(** * Eno: resource parsing, three-way merge, reconstitution cache and
      slice controller

    A shallow embedding of
      - [internal/resource/resource.go]        (module [resource]),
      - the reconstituter controller            (module [reconstitution]),
      - [internal/controllers/synthesis/slice.go] (module [synthesis]),
    together with the properties of these functions that the design
    document states.

    Conventions.
      - A Go function returning [(T, error)] returns an [outcome T]; a Go
        panic is the third constructor of [outcome].
      - [map[string]any] is an association list with unique keys, kept in
        insertion order; Go gives no order to a map, and no definition below
        depends on it except where a comment says so.
      - [[]byte] holding JSON text is a [string]; the nil slice is the empty
        string.
      - The functions of libraries outside the repository that do real work
        (JSON codecs, JSON-Patch, JSON merge patch, structured-merge-diff,
        duration and integer parsing, the readiness expression compiler) are
        fields of type classes: every theorem holds for whatever they
        compute.  Module [refimpl] instantiates the classes with small
        executable implementations so that the functions can be run. *)

From Stdlib Require Import Strings.String Strings.Ascii.
From Stdlib Require Import Lists.List.
From Stdlib Require Import ZArith.ZArith.
From Stdlib Require Import Bool.Bool.
From Stdlib Require Import micromega.Lia.
Import ListNotations.

Local Open Scope string_scope.
Local Open Scope list_scope.

(* ================================================================= *)
(** ** Errors and outcomes *)

(** Go [error] values.  [Wrapped p e] is [fmt.Errorf(p + ": %w", e)]. *)
Inductive error : Type :=
| NotFoundError (what : string)
| OtherError (msg : string)
| Wrapped (prefix : string) (cause : error).

(** [k8serrors.IsNotFound]: looks through [%w] wrapping. *)
Fixpoint IsNotFound (e : error) : bool :=
  match e with
  | NotFoundError _ => true
  | OtherError _ => false
  | Wrapped _ c => IsNotFound c
  end.

(** [client.IgnoreNotFound]: nil for a not-found error, the error otherwise. *)
Definition IgnoreNotFound (e : error) : option error :=
  if IsNotFound e then None else Some e.

Inductive outcome (A : Type) : Type :=
| Ok (a : A)
| Err (e : error)
| Panic (msg : string).

Arguments Ok {A} a.
Arguments Err {A} e.
Arguments Panic {A} msg.

Definition bind {A B : Type} (x : outcome A) (f : A -> outcome B) : outcome B :=
  match x with
  | Ok a => f a
  | Err e => Err e
  | Panic m => Panic m
  end.

(** [if err != nil { return ..., fmt.Errorf(p + ": %w", err) }] *)
Definition wrap {A : Type} (p : string) (x : outcome A) : outcome A :=
  match x with
  | Ok a => Ok a
  | Err e => Err (Wrapped p e)
  | Panic m => Panic m
  end.

Notation "x <- c1 ;; c2" := (bind c1 (fun x => c2))
  (at level 61, c1 at next level, right associativity).

(** The double quote character, as a string. *)
Definition dq : string := String (ascii_of_nat 34) EmptyString.

(* ================================================================= *)
(** ** Go maps as association lists *)

Section AssocMap.
Context {A : Type}.

(** [v, ok := m[k]] *)
Fixpoint m_get (k : string) (m : list (string * A)) : option A :=
  match m with
  | [] => None
  | (k', v) :: rest => if String.eqb k k' then Some v else m_get k rest
  end.

(** [m[k] = v] *)
Fixpoint m_set (k : string) (v : A) (m : list (string * A)) : list (string * A) :=
  match m with
  | [] => [(k, v)]
  | (k', v') :: rest =>
      if String.eqb k k' then (k, v) :: rest else (k', v') :: m_set k v rest
  end.

(** [delete(m, k)] *)
Fixpoint m_delete (k : string) (m : list (string * A)) : list (string * A) :=
  match m with
  | [] => []
  | (k', v') :: rest =>
      if String.eqb k k' then m_delete k rest else (k', v') :: m_delete k rest
  end.

(** [maps.DeleteFunc(m, del)] *)
Definition m_DeleteFunc (del : string -> A -> bool) (m : list (string * A))
  : list (string * A) :=
  filter (fun kv => negb (del (fst kv) (snd kv))) m.
End AssocMap.

(** A Go [map[string]string] that may be nil. *)
Definition strmap : Type := option (list (string * string)).

(** [m[k]] on a possibly nil map: the zero value when absent. *)
Definition strmap_index (m : strmap) (k : string) : string :=
  match m with
  | None => EmptyString
  | Some l => match m_get k l with Some v => v | None => EmptyString end
  end.

(* ================================================================= *)
(** ** The content of an [unstructured.Unstructured] *)

(** Go's [any] as the JSON decoders of apimachinery produce it: nil, bool,
    int64, float64, string, [[]any] and [map[string]any].  A float64 is
    carried as its IEEE-754 bit pattern. *)
Unset Elimination Schemes.
Inductive any : Type :=
| VNil
| VBool (b : bool)
| VInt (n : Z)
| VFloat (bits : Z)
| VString (s : string)
| VList (l : list any)
| VMap (m : list (string * any)).
Set Elimination Schemes.

Definition object : Type := list (string * any).

Record Unstructured : Type := mkUnstructured { Object : object }.

(** [equality.Semantic.DeepEqual] on unstructured content: maps are compared
    as maps (same keys, equal values), slices element by element, int64 and
    float64 are different types. *)
Fixpoint DeepEqualValue (a b : any) {struct a} : bool :=
  match a, b with
  | VNil, VNil => true
  | VBool x, VBool y => Bool.eqb x y
  | VInt x, VInt y => Z.eqb x y
  | VFloat x, VFloat y => Z.eqb x y
  | VString x, VString y => String.eqb x y
  | VList xs, VList ys =>
      (fix go (xs ys : list any) {struct xs} : bool :=
         match xs, ys with
         | [], [] => true
         | x :: xs', y :: ys' => DeepEqualValue x y && go xs' ys'
         | _, _ => false
         end) xs ys
  | VMap xs, VMap ys =>
      Nat.eqb (length xs) (length ys) &&
      (fix go (xs : list (string * any)) {struct xs} : bool :=
         match xs with
         | [] => true
         | (k, x) :: xs' =>
             match m_get k ys with
             | Some y => DeepEqualValue x y && go xs'
             | None => false
             end
         end) xs
  | _, _ => false
  end.

Definition DeepEqual (a b : Unstructured) : bool :=
  DeepEqualValue (VMap (Object a)) (VMap (Object b)).

(** *** Accessors of package [unstructured] *)

Definition accessorError : error :=
  OtherError "accessor error: value is not of the expected type".

(** [unstructured.NestedFieldNoCopy] *)
Fixpoint NestedFieldNoCopy (val : any) (fields : list string)
  : any * bool * option error :=
  match fields with
  | [] => (val, true, None)
  | field :: rest =>
      match val with
      | VNil => (VNil, false, None)
      | VMap m =>
          match m_get field m with
          | Some v => NestedFieldNoCopy v rest
          | None => (VNil, false, None)
          end
      | _ => (VNil, false, Some accessorError)
      end
  end.

(** [unstructured.NestedString] *)
Definition NestedString (obj : object) (fields : list string)
  : string * bool * option error :=
  match NestedFieldNoCopy (VMap obj) fields with
  | (val, true, None) =>
      match val with
      | VString s => (s, true, None)
      | _ => (EmptyString, false, Some accessorError)
      end
  | (_, found, err) => (EmptyString, found, err)
  end.

(** [getNestedString]: the string, or the empty string when it is missing or
    is not a string. *)
Definition getNestedString (obj : object) (fields : list string) : string :=
  match NestedString obj fields with
  | (val, true, None) => val
  | _ => EmptyString
  end.

(** The loop of [unstructured.NestedStringMap] converting the values. *)
Fixpoint toStringMap (m : list (string * any)) : option (list (string * string)) :=
  match m with
  | [] => Some []
  | (k, VString s) :: rest =>
      match toStringMap rest with
      | Some l => Some ((k, s) :: l)
      | None => None
      end
  | _ :: _ => None
  end.

(** [unstructured.NestedStringMap] *)
Definition NestedStringMap (obj : object) (fields : list string)
  : strmap * bool * option error :=
  match NestedFieldNoCopy (VMap obj) fields with
  | (val, true, None) =>
      match val with
      | VMap m =>
          match toStringMap m with
          | Some l => (Some l, true, None)
          | None => (None, false, Some accessorError)
          end
      | _ => (None, false, Some accessorError)
      end
  | (_, found, err) => (None, found, err)
  end.

(** [unstructured.RemoveNestedField] *)
Fixpoint RemoveNestedField (obj : object) (fields : list string) : object :=
  match fields with
  | [] => obj
  | [last] => m_delete last obj
  | field :: rest =>
      match m_get field obj with
      | Some (VMap x) => m_set field (VMap (RemoveNestedField x rest)) obj
      | _ => obj
      end
  end.

(** [setNestedFieldNoCopy]; the error (a non-map on the way) leaves the
    object as it is, and the callers below drop that error. *)
Fixpoint setNestedFieldNoCopy (obj : object) (val : any) (fields : list string)
  : object :=
  match fields with
  | [] => obj
  | [last] => m_set last val obj
  | field :: rest =>
      match m_get field obj with
      | Some (VMap x) => m_set field (VMap (setNestedFieldNoCopy x val rest)) obj
      | Some _ => obj
      | None => m_set field (VMap (setNestedFieldNoCopy [] val rest)) obj
      end
  end.

(** [unstructured.SetNestedStringMap] *)
Definition SetNestedStringMap (obj : object) (m : list (string * string))
  (fields : list string) : object :=
  setNestedFieldNoCopy obj (VMap (map (fun kv => (fst kv, VString (snd kv))) m)) fields.

(** Methods of [*unstructured.Unstructured] used by the parser. *)
Definition GetName (u : Unstructured) : string :=
  getNestedString (Object u) ["metadata"; "name"].
Definition GetNamespace (u : Unstructured) : string :=
  getNestedString (Object u) ["metadata"; "namespace"].
Definition GetKind (u : Unstructured) : string :=
  getNestedString (Object u) ["kind"].
Definition GetAPIVersion (u : Unstructured) : string :=
  getNestedString (Object u) ["apiVersion"].
Definition GetLabels (u : Unstructured) : strmap :=
  fst (fst (NestedStringMap (Object u) ["metadata"; "labels"])).
Definition GetAnnotations (u : Unstructured) : strmap :=
  fst (fst (NestedStringMap (Object u) ["metadata"; "annotations"])).

(** [SetAnnotations] and [SetLabels]: a nil map removes the field. *)
Definition setNestedMap (u : Unstructured) (m : strmap) (fields : list string)
  : Unstructured :=
  match m with
  | None => mkUnstructured (RemoveNestedField (Object u) fields)
  | Some l => mkUnstructured (SetNestedStringMap (Object u) l fields)
  end.
Definition SetAnnotations (u : Unstructured) (m : strmap) : Unstructured :=
  setNestedMap u m ["metadata"; "annotations"].
Definition SetLabels (u : Unstructured) (m : strmap) : Unstructured :=
  setNestedMap u m ["metadata"; "labels"].

(** [SetCreationTimestamp(metav1.Time{})]: the zero time removes the field,
    whatever it held. *)
Definition SetCreationTimestampZero (u : Unstructured) : Unstructured :=
  mkUnstructured (RemoveNestedField (Object u) ["metadata"; "creationTimestamp"]).

(** *** Package [schema] *)

Record GroupVersion : Type := mkGV { GV_Group : string; GV_Version : string }.
Record GroupKind : Type := mkGK { GK_Group : string; GK_Kind : string }.
Record GroupVersionKind : Type :=
  mkGVK { GVK_Group : string; GVK_Version : string; GVK_Kind : string }.

Definition GVK_eqb (a b : GroupVersionKind) : bool :=
  String.eqb (GVK_Group a) (GVK_Group b) &&
  String.eqb (GVK_Version a) (GVK_Version b) &&
  String.eqb (GVK_Kind a) (GVK_Kind b).

(** Cuts a string at its first slash ([strings.Index] and two slices). *)
Fixpoint cut_at_slash (s : string) : option (string * string) :=
  match s with
  | EmptyString => None
  | String c rest =>
      if Ascii.eqb c "/"%char then Some (EmptyString, rest)
      else match cut_at_slash rest with
           | Some (a, b) => Some (String c a, b)
           | None => None
           end
  end.

(** [schema.ParseGroupVersion] *)
Definition ParseGroupVersion (gv : string) : outcome GroupVersion :=
  if String.eqb gv EmptyString || String.eqb gv "/" then Ok (mkGV EmptyString EmptyString)
  else match cut_at_slash gv with
       | None => Ok (mkGV EmptyString gv)
       | Some (g, v) =>
           match cut_at_slash v with
           | None => Ok (mkGV g v)
           | Some _ => Err (OtherError "unexpected GroupVersion string")
           end
       end.

(** [Unstructured.GroupVersionKind] *)
Definition GroupVersionKindOf (u : Unstructured) : GroupVersionKind :=
  match ParseGroupVersion (GetAPIVersion u) with
  | Ok gv => mkGVK (GV_Group gv) (GV_Version gv) (GetKind u)
  | _ => mkGVK EmptyString EmptyString EmptyString
  end.

(* ================================================================= *)
(** ** [hash/fnv]: the 64-bit FNV-1 hash *)

Definition offset64 : Z := 14695981039346656037%Z.
Definition prime64 : Z := 1099511628211%Z.

Definition bytes_of_string (s : string) : list Z :=
  map (fun a => Z.of_N (N_of_ascii a)) (list_ascii_of_string s).

(** [sum64.Write]: multiply, wrap to 64 bits, then xor the byte in. *)
Definition fnv64_Write (h : Z) (data : list Z) : Z :=
  fold_left (fun h c => Z.lxor ((h * prime64) mod 2 ^ 64)%Z c) data h.

(** [sum64.Sum(nil)]: the eight bytes of the state, most significant
    first. *)
Definition fnv64_Sum (h : Z) : list Z :=
  map (fun i => (Z.shiftr h (8 * i) mod 256)%Z) [7; 6; 5; 4; 3; 2; 1; 0]%Z.

Definition fnv64 (s : string) : list Z :=
  fnv64_Sum (fnv64_Write offset64 (bytes_of_string s)).

(** [bytes.Compare] *)
Fixpoint bytes_Compare (a b : list Z) : comparison :=
  match a, b with
  | [], [] => Eq
  | [], _ :: _ => Lt
  | _ :: _, [] => Gt
  | x :: a', y :: b' =>
      match Z.compare x y with
      | Eq => bytes_Compare a' b'
      | c => c
      end
  end.

(* ================================================================= *)
(** ** The API types ([api/v1]) *)

Module apiv1.

(** [metav1.Time], as an instant on some clock. *)
Definition Time_ : Type := Z.

Record NamespacedName : Type :=
  mkNSN { NSN_Namespace : string; NSN_Name : string }.

Record Manifest : Type :=
  mkManifest { Manifest_Manifest : string; Manifest_Deleted : bool }.

Record ResourceSlice : Type :=
  mkResourceSlice {
    Slice_Name : string;
    Slice_Namespace : string;
    Slice_Resources : list Manifest   (* Spec.Resources *)
  }.

Record ResourceSliceRef : Type := mkSliceRef { SliceRef_Name : string }.

Record Synthesis : Type :=
  mkSynthesis {
    UUID : string;
    ObservedCompositionGeneration : Z;
    ObservedSynthesizerGeneration : Z;
    Synthesized : option Time_;
    Reconciled : option Time_;
    Ready : option Time_;
    ResourceSlices : list ResourceSliceRef
  }.

Record CompositionStatus : Type :=
  mkCompositionStatus {
    InFlightSynthesis : option Synthesis;
    CurrentSynthesis : option Synthesis;
    PreviousSynthesis : option Synthesis;
    PendingResynthesis : option Time_
  }.

Record Composition : Type :=
  mkComposition {
    Name : string;
    Namespace : string;
    Generation : Z;
    DeletionTimestamp : option Time_;
    Annotations : strmap;
    Spec_Synthesizer_Name : string;
    Status : CompositionStatus
  }.

Record Synthesizer : Type :=
  mkSynthesizer { Synthesizer_Name : string; Synthesizer_Generation : Z }.

(** [SynthesizerRef], as the controllers build it: a name. *)
Record SynthesizerRef : Type := mkSynthesizerRef { SynthesizerRef_Name : string }.

Record Variation : Type :=
  mkVariation { Variation_Labels : strmap; Variation_Synthesizer : SynthesizerRef }.

Record SymphonyStatus : Type :=
  mkSymphonyStatus {
    Symphony_ObservedGeneration : Z;
    Symphony_Synthesized : option Time_;
    Symphony_Reconciled : option Time_;
    Symphony_Ready : option Time_;
    Symphony_Synthesizers : list SynthesizerRef
  }.

Record Symphony : Type :=
  mkSymphony {
    Symphony_Name : string;
    Symphony_Namespace : string;
    Symphony_Generation : Z;
    Symphony_Variations : list Variation;   (* Spec.Variations *)
    Symphony_Status : SymphonyStatus
  }.

(** [metav1.Time.Before], on pointers: false when either is nil. *)
Definition Before (t u : option Time_) : bool :=
  match t, u with
  | Some a, Some b => Z.ltb a b
  | _, _ => false
  end.

(** Methods of [*Composition] whose source is outside the files at hand;
    the code below only calls them. *)
Class CompositionMethods : Type := {
  ShouldOrphanResources : Composition -> bool;
  NotEligibleForResynthesis : Composition -> Synthesizer -> bool
}.

End apiv1.

(* ================================================================= *)
(** ** Libraries outside the repository *)

(** A [jsonpatch.Operation] is a [map[string]*json.RawMessage]: each member
    of the operation, still as JSON text. *)
Definition Operation : Type := list (string * string).

(** [jsonpatch.Patch]: a slice of operations, possibly nil. *)
Definition Patch_ : Type := option (list Operation).

(** [readiness.Check]; the compiled expression is opaque here. *)
Record readiness_Check : Type :=
  mkCheck { Check_Name : string; Check_program : string }.

(** The [patch] member of a Patch manifest ([patchMeta] in the source). *)
Record patchMeta : Type :=
  mkPatchMeta { pm_APIVersion : string; pm_Kind : string; pm_Ops : Patch_ }.

(** JSON encoding and decoding. *)
Class JSONCodec : Type := {
  (** [Unstructured.UnmarshalJSON] *)
  UnmarshalJSON : string -> outcome Unstructured;
  (** [Unstructured.MarshalJSON] *)
  MarshalJSON : Unstructured -> outcome string;
  (** [json.Unmarshal] into a [map[string]any] *)
  json_Unmarshal_map : string -> outcome object;
  (** [json.Unmarshal] into [struct{ Patch patchMeta }] *)
  json_Unmarshal_patch : string -> outcome patchMeta
}.

(** [evanphx/json-patch] and [apimachinery/pkg/util/jsonmergepatch]. *)
Class JSONPatchLib : Type := {
  (** [jsonpatch.Patch.Apply] (RFC 6902) *)
  Patch_Apply : list Operation -> string -> outcome string;
  (** [jsonpatch.MergePatch(doc, patch)] (RFC 7396) *)
  MergePatch : string -> string -> outcome string;
  (** [jsonmergepatch.CreateThreeWayJSONMergePatch(original, modified, current)] *)
  CreateThreeWayJSONMergePatch : string -> string -> string -> outcome string
}.

(** [time.ParseDuration] (nanoseconds) and [strconv.Atoi].  Go returns the
    zero value next to a non-nil error. *)
Class GoStd : Type := {
  ParseDuration : string -> outcome Z;
  Atoi : string -> outcome Z
}.

(** [readiness.ParseCheck] *)
Class ReadinessLib : Type := {
  ParseCheck : string -> outcome readiness_Check
}.

(** [sigs.k8s.io/structured-merge-diff/v4]: [typed], [fieldpath], [schema]. *)
Class SMD : Type := {
  TypeRef : Type;
  Schema : Type;
  TypedValue : Type;
  FieldSet : Type;
  (** [typed.AsTypedUnvalidated] *)
  AsTypedUnvalidated : any -> Schema -> TypeRef -> TypedValue;
  (** [typed.AsTyped] *)
  AsTyped : any -> Schema -> TypeRef -> outcome TypedValue;
  (** [TypedValue.Merge(pso)] *)
  tv_Merge : TypedValue -> TypedValue -> outcome TypedValue;
  (** [TypedValue.Compare(rhs)]: the sets [Removed], [Modified], [Added] *)
  tv_Compare : TypedValue -> TypedValue -> outcome (FieldSet * FieldSet * FieldSet);
  (** [TypedValue.RemoveItems(items)] *)
  tv_RemoveItems : TypedValue -> FieldSet -> TypedValue;
  (** [TypedValue.AsValue().Unstructured()] *)
  tv_AsValue : TypedValue -> any;
  (** [fieldpath.Set.Empty] *)
  fs_Empty : FieldSet -> bool;
  (** [fieldpath.Set.Has], for a path made of field names *)
  fs_Has : FieldSet -> list string -> bool
}.

(** [typed.Comparison] *)
Record Comparison {smd : SMD} : Type :=
  mkComparison { Removed : FieldSet; Modified : FieldSet; Added : FieldSet }.

(** [Comparison.IsSame] *)
Definition IsSame {smd : SMD} (c : Comparison) : bool :=
  fs_Empty (Removed c) && fs_Empty (Modified c) && fs_Empty (Added c).

Definition Compare {smd : SMD} (lhs rhs : TypedValue) : outcome Comparison :=
  r <- tv_Compare lhs rhs ;;
  Ok (mkComparison _ (fst (fst r)) (snd (fst r)) (snd r)).

(* ================================================================= *)
(** ** Package [resource] ([internal/resource/resource.go]) *)

Module resource.
Import apiv1.

Definition patchGVK : GroupVersionKind := mkGVK "eno.azure.io" "v1" "Patch".

(** [Ref] refers to a specific synthesized resource. *)
Record Ref : Type :=
  mkRef { Ref_Name : string; Ref_Namespace : string;
          Ref_Group : string; Ref_Kind : string }.

(** [ManifestRef] references a manifest within a resource slice. *)
Record ManifestRef : Type :=
  mkManifestRef { Slice : NamespacedName; Index : nat }.

(** [Resource]: one resource out of a ResourceSlice.  [value] is the parsed
    object the resource was interned from.  The atomic slot
    [latestKnownState] plays no part in the functions below and is left
    out. *)
Record Resource : Type :=
  mkResource {
    rRef : Ref;
    ManifestDeleted : bool;
    rManifestRef : ManifestRef;
    ManifestHash : list Z;
    ReconcileInterval : option Z;          (* *metav1.Duration, nanoseconds *)
    GVK : GroupVersionKind;
    ReadinessChecks : list readiness_Check;
    Patch : Patch_;
    DisableUpdates : bool;
    ReadinessGroup : Z;
    Labels : strmap;
    DefinedGroupKind : option GroupKind;
    value : any
  }.

(** [SchemaGetter]: the type reference may be nil. *)
Record SchemaGetter {smd : SMD} : Type :=
  mkSchemaGetter { Get : GroupVersionKind -> outcome (option TypeRef * Schema) }.

(** [Resource.Unstructured]: [r.value.Unstructured().(map[string]any)];
    the type assertion panics on anything but a map. *)
Definition Resource_Unstructured (r : Resource) : outcome Unstructured :=
  match value r with
  | VMap m => Ok (mkUnstructured m)
  | _ => Panic "interface conversion: interface {} is not map[string]interface {}"
  end.

(** [Resource.Less]: used to order conflicting resources. *)
Definition Less (r than : Resource) : bool :=
  match bytes_Compare (ManifestHash r) (ManifestHash than) with
  | Lt => true
  | _ => false
  end.

(** The placeholder that [patchSetsDeletionTimestamp] patches. *)
Definition placeholder : string :=
  "{" ++ dq ++ "apiVersion" ++ dq ++ ": " ++ dq ++ "eno.azure.io/v1" ++ dq ++ ", "
      ++ dq ++ "kind" ++ dq ++ ":" ++ dq ++ "PatchPlaceholder" ++ dq ++ ", "
      ++ dq ++ "metadata" ++ dq ++ ":{}}".

Section WithLibraries.
Context {json : JSONCodec} {jsonpatch : JSONPatchLib} {gostd : GoStd} {readiness : ReadinessLib}
        {methods : CompositionMethods}.

(** [Resource.patchSetsDeletionTimestamp] *)
Definition patchSetsDeletionTimestamp (r : Resource) : bool :=
  match Patch r with
  | None => false
  | Some ops =>
      match Patch_Apply ops placeholder with
      | Ok patchedjson =>
          match json_Unmarshal_map patchedjson with
          | Ok patched =>
              let dt := fst (fst (NestedString patched
                                    ["metadata"; "deletionTimestamp"])) in
              negb (String.eqb dt EmptyString)
          | _ => false
          end
      | _ => false
      end
  end.

(** [Resource.Deleted] *)
Definition Deleted (r : Resource) (comp : Composition) : bool :=
  (match DeletionTimestamp comp with Some _ => true | None => false end
     && negb (ShouldOrphanResources comp))
  || ManifestDeleted r
  || (match Patch r with Some _ => true | None => false end
        && patchSetsDeletionTimestamp r).

(** [Resource.NeedsToBePatched]; [current] may be nil. *)
Definition NeedsToBePatched (r : Resource) (current : option Unstructured) : bool :=
  match Patch r, current with
  | Some ops, Some cur =>
      match MarshalJSON cur with
      | Ok curjson =>
          match Patch_Apply ops curjson with
          | Ok patchedjson =>
              match UnmarshalJSON patchedjson with
              | Ok patched => negb (DeepEqual cur patched)
              | _ => false
              end
          | _ => false
          end
      | _ => false
      end
  | _, _ => false
  end.

(** *** [Resource.Merge]

    The result [Ok (Some u, typed)] is an object to write, [Ok (None,
    typed)] is "no change"; every error return of the source carries
    [nil, false] next to the error. *)

(** Lines 143-175: the three-way JSON merge for unknown types, up to the
    patched object. *)
Definition patchedUntyped (r : Resource) (old : option Resource)
  (current : Unstructured) : outcome Unstructured :=
  currentJS <- wrap "encoding current state" (MarshalJSON current) ;;
  prevJS <- match old with
            | None => Ok EmptyString
            | Some o =>
                u <- Resource_Unstructured o ;;
                wrap "encoding old state" (MarshalJSON u)
            end ;;
  expected <- Resource_Unstructured r ;;
  expectedJS <- wrap "encoding expected state" (MarshalJSON expected) ;;
  patch <- wrap "building merge patch"
             (CreateThreeWayJSONMergePatch prevJS expectedJS currentJS) ;;
  patchedJSON <- wrap "applying merge patch" (MergePatch currentJS patch) ;;
  wrap "parsing patched resource" (UnmarshalJSON patchedJSON).

(** Lines 177-180: nothing to write when the patched object equals the
    current one. *)
Definition mergeUntyped (r : Resource) (old : option Resource)
  (current : Unstructured) : outcome (option Unstructured * bool) :=
  patched <- patchedUntyped r old current ;;
  if DeepEqual current patched then Ok (None, false)
  else Ok (Some patched, false).

Context {smd : SMD}.

(** Lines 183-205: merge [new] onto [current], then prune what [old] had
    and [new] has not. *)
Definition mergedTyped (r : Resource) (old : option Resource)
  (current : Unstructured) (schem : Schema) (typeref : TypeRef)
  : outcome TypedValue :=
  let currentVal := VMap (Object current) in
  let typedNew := AsTypedUnvalidated (value r) schem typeref in
  let typedCurrent := AsTypedUnvalidated currentVal schem typeref in
  merged <- wrap "merging new state into current"
              (tv_Merge typedCurrent typedNew) ;;
  match old with
  | None => Ok merged
  | Some o =>
      typedOld <- wrap "converting old version to typed"
                    (AsTyped (value o) schem typeref) ;;
      toOld <- wrap "comparing new and old states"
                 (Compare typedOld typedNew) ;;
      Ok (tv_RemoveItems merged (Removed toOld))
  end.

(** Lines 207-214: skip when nothing changes, else return a copy. *)
Definition finishTyped (merged : TypedValue) (current : Unstructured)
  (schem : Schema) (typeref : TypeRef) : outcome (option Unstructured * bool) :=
  let typedCurrent := AsTypedUnvalidated (VMap (Object current)) schem typeref in
  let copy :=
    match tv_AsValue merged with
    | VMap m => Ok (Some (mkUnstructured m), true)
    | _ => Panic "interface conversion: interface {} is not map[string]interface {}"
    end in
  match Compare merged typedCurrent with
  | Ok cmp => if IsSame cmp then Ok (None, true) else copy
  | Err _ => copy
  | Panic m => Panic m
  end.

Definition Merge (r : Resource) (old : option Resource)
  (current : Unstructured) (sg : SchemaGetter)
  : outcome (option Unstructured * bool) :=
  match Get sg (GVK r) with
  | Err e => Err (Wrapped "looking up schema" e)
  | Panic m => Panic m
  | Ok (None, _) => mergeUntyped r old current
  | Ok (Some typeref, schem) =>
      merged <- mergedTyped r old current schem typeref ;;
      finishTyped merged current schem typeref
  end.

(** *** [NewResource] *)

Definition reconcileIntervalKey : string := "eno.azure.io/reconcile-interval".
Definition disableUpdatesKey : string := "eno.azure.io/disable-updates".
Definition readinessGroupKey : string := "eno.azure.io/readiness-group".

(** [strings.TrimPrefix] *)
Definition TrimPrefix (s p : string) : string :=
  if String.prefix p s
  then String.substring (String.length p) (String.length s - String.length p) s
  else s.

(** [pruneMetadata]: drops the keys under [eno.azure.io/]; an empty
    result is the nil map. *)
Definition pruneMetadata (m : strmap) : strmap :=
  let m' := match m with
            | None => []
            | Some l => m_DeleteFunc (fun key _ => String.prefix "eno.azure.io/" key) l
            end in
  match m' with
  | [] => None
  | _ :: _ => Some m'
  end.

(** Lines 262-278: a manifest of kind Patch takes its group, version and
    kind from the [patch] member and carries its operations. *)
Definition parsePatch (manifest : string) (gvk : GroupVersionKind)
  : outcome (GroupVersionKind * Patch_) :=
  if GVK_eqb gvk patchGVK then
    obj <- wrap "parsing patch json" (json_Unmarshal_patch manifest) ;;
    gv <- wrap "parsing patch apiVersion" (ParseGroupVersion (pm_APIVersion obj)) ;;
    Ok (mkGVK (GV_Group gv) (GV_Version gv) (pm_Kind obj), pm_Ops obj)
  else Ok (gvk, None).

(** Lines 280-284 *)
Definition definedGroupKind (gvk : GroupVersionKind) (parsed : Unstructured)
  : option GroupKind :=
  if String.eqb (GVK_Group gvk) "apiextensions.k8s.io"
     && String.eqb (GVK_Kind gvk) "CustomResourceDefinition"
  then Some (mkGK (fst (fst (NestedString (Object parsed) ["spec"; "group"])))
                  (fst (fst (NestedString (Object parsed) ["spec"; "names"; "kind"]))))
  else None.

(** Lines 292-299.  [time.ParseDuration] hands back the zero duration
    with its error, and the assignment of line 298 is not guarded. *)
Definition parseReconcileInterval (anno : list (string * string))
  : list string * option Z :=
  match m_get reconcileIntervalKey anno with
  | Some str =>
      let '(reconcileInterval, failed) :=
        match ParseDuration str with
        | Ok d => (d, false)
        | _ => (0%Z, true)
        end in
      ((if negb (String.eqb str EmptyString) && failed
        then ["invalid reconcile interval - ignoring"] else []),
       Some reconcileInterval)
  | None => ([], None)
  end.

(** Lines 304-312 *)
Definition parseReadinessGroup (anno : list (string * string))
  : list string * Z :=
  match m_get readinessGroupKey anno with
  | Some str =>
      match Atoi str with
      | Ok rg => ([], rg)
      | _ => (["invalid readiness group - ignoring"], 0%Z)
      end
  | None => ([], 0%Z)
  end.

(** Lines 319-322 *)
Definition readinessName (key : string) : string :=
  let name := TrimPrefix key "eno.azure.io/readiness-" in
  if String.eqb name "eno.azure.io/readiness" then "default" else name.

(** Lines 314-331; the annotations are visited in the order of the
    association list (Go visits a map in no particular order). *)
Fixpoint parseReadinessChecks (anno : list (string * string))
  : list string * list readiness_Check :=
  match anno with
  | [] => ([], [])
  | (key, val) :: rest =>
      let '(logs, checks) := parseReadinessChecks rest in
      if negb (String.prefix "eno.azure.io/readiness" key)
         || String.eqb key readinessGroupKey
      then (logs, checks)
      else match ParseCheck val with
           | Ok check =>
               (logs, mkCheck (readinessName key) (Check_program check) :: checks)
           | _ => ("invalid cel expression" :: logs, checks)
           end
  end.

(** Line 332: [sort.Slice] by name, as a stable insertion sort. *)
Fixpoint insertCheck (c : readiness_Check) (l : list readiness_Check)
  : list readiness_Check :=
  match l with
  | [] => [c]
  | x :: rest =>
      if String.ltb (Check_Name c) (Check_Name x) then c :: l
      else x :: insertCheck c rest
  end.

Definition sortChecks (l : list readiness_Check) : list readiness_Check :=
  fold_left (fun acc c => insertCheck c acc) l [].

(** Lines 241-247: status and creation time are pruned from the parsed
    object. *)
Definition pruneStatusAndCreation (parsed : Unstructured) : Unstructured :=
  SetCreationTimestampZero (mkUnstructured (m_delete "status" (Object parsed))).

(** Lines 334-335: the Eno annotations and labels are pruned.  [res.value]
    wraps the very map that these two calls update, so the Resource sees
    the pruned object. *)
Definition pruneEnoMetadata (parsed : Unstructured) : Unstructured :=
  let parsed1 := SetAnnotations parsed (pruneMetadata (GetAnnotations parsed)) in
  SetLabels parsed1 (pruneMetadata (GetLabels parsed1)).

(** [NewResource]: the log lines and the resource or the error. *)
Definition NewResource (slice : ResourceSlice) (index : nat)
  : list string * outcome Resource :=
  match nth_error (Slice_Resources slice) index with
  | None => ([], Panic "index out of range")
  | Some resource =>
      let manifest := Manifest_Manifest resource in
      let hash := fnv64 manifest in
      match UnmarshalJSON manifest with
      | Err e => ([], Err (Wrapped "invalid json" e))
      | Panic m => ([], Panic m)
      | Ok parsed0 =>
          let parsed := pruneStatusAndCreation parsed0 in
          let gvk := GroupVersionKindOf parsed in
          let ref := mkRef (GetName parsed) (GetNamespace parsed)
                           (GVK_Group (GroupVersionKindOf parsed))
                           (GetKind parsed) in
          if String.eqb (Ref_Name ref) EmptyString
             || String.eqb (Ref_Kind ref) EmptyString
             || String.eqb (GetAPIVersion parsed) EmptyString
          then ([], Err (OtherError "missing name, kind, or apiVersion"))
          else
            match parsePatch manifest gvk with
            | Err e => ([], Err e)
            | Panic m => ([], Panic m)
            | Ok (gvk', patch) =>
                let anno := match GetAnnotations parsed with
                            | None => []
                            | Some l => l
                            end in
                let '(logs1, interval) := parseReconcileInterval anno in
                let '(logs2, group) := parseReadinessGroup anno in
                let '(logs3, checks) := parseReadinessChecks anno in
                (logs1 ++ logs2 ++ logs3,
                 Ok {| rRef := ref;
                       ManifestDeleted := Manifest_Deleted resource;
                       rManifestRef :=
                         mkManifestRef
                           (mkNSN (Slice_Namespace slice) (Slice_Name slice)) index;
                       ManifestHash := hash;
                       ReconcileInterval := interval;
                       GVK := gvk';
                       ReadinessChecks := sortChecks checks;
                       Patch := patch;
                       DisableUpdates :=
                         String.eqb (strmap_index (Some anno) disableUpdatesKey) "true";
                       ReadinessGroup := group;
                       Labels := GetLabels parsed;
                       DefinedGroupKind := definedGroupKind gvk' parsed;
                       value := VMap (Object (pruneEnoMetadata parsed)) |})
            end
      end
  end.

End WithLibraries.
End resource.

(* ================================================================= *)
(** ** [controller-runtime] results *)

(** [ctrl.Result] *)
Record Result : Type := mkResult { Requeue : bool; RequeueAfter : Z }.

(** [ctrl.Result{}] *)
Definition Result0 : Result := mkResult false 0%Z.

(** [return ctrl.Result{}, err] with an [err] that may be nil. *)
Definition returnWith (err : option error) : outcome Result :=
  match err with
  | Some e => Err e
  | None => Ok Result0
  end.

(* ================================================================= *)
(** ** Package [reconstitution]: the reconstituter *)

Module reconstitution.
Import apiv1.

(** The two API types as this controller reads them: a synthesis records
    how many slices it produced, and the composition status holds the
    previous and the current one. *)
Record Synthesis : Type :=
  mkSynthesis {
    ObservedCompositionGeneration : Z;
    ResourceSliceCount : option Z       (* *int64 *)
  }.

Record Composition : Type :=
  mkComposition {
    Namespace : string;
    Name : string;
    PreviousState : option Synthesis;   (* Status.PreviousState *)
    CurrentState : option Synthesis     (* Status.CurrentState *)
  }.

(** The cache embedded in the reconstituter ([cache.go]): its state and the
    three methods the controller calls.  [Fill] parses every manifest of
    every slice it is given and returns one request per resource. *)
Class Cache : Type := {
  cache : Type;
  Request : Type;
  HasSynthesis : cache -> NamespacedName -> Synthesis -> bool;
  Fill : cache -> NamespacedName -> Synthesis -> list ResourceSlice
         -> cache * outcome (list Request);
  Purge : cache -> NamespacedName -> option Composition -> cache
}.

(** The reads the controller makes through [client.Client], and the index
    key of package [manager]. *)
Class Client : Type := {
  client_Get : NamespacedName -> outcome Composition;
  client_List : string -> string -> outcome (list ResourceSlice);
  NewSlicesByCompositionGenerationKey : string -> Z -> string
}.

Section WithCache.
Context {cachelib : Cache} {store : Client}.

(** A subscriber queue, as the requests added to it so far. *)
Definition Queue : Type := list Request.

(** [reconstituter] *)
Record reconstituter : Type :=
  mkReconstituter {
    r_cache : cache;
    queues : list Queue;
    started : bool
  }.

(** [reconstituter.AddQueue] *)
Definition AddQueue (r : reconstituter) (queue : Queue) : outcome reconstituter :=
  if started r
  then Panic "AddQueue must be called before any resources are reconciled"
  else Ok (mkReconstituter (r_cache r) (queues r ++ [queue]) (started r)).

(** Lines 114-118: every request goes to every queue. *)
Definition enqueue (qs : list Queue) (reqs : list Request) : list Queue :=
  map (fun q => q ++ reqs) qs.

(** [reconstituter.populateCache] *)
Definition populateCache (r : reconstituter) (comp : Composition)
  (synthesis : option Synthesis) : reconstituter * outcome unit :=
  match synthesis with
  | None => (r, Ok tt)
  | Some synthesis =>
      match ResourceSliceCount synthesis with
      | None => (r, Ok tt)
      | Some count =>
          let compNSN := mkNSN (Namespace comp) (Name comp) in
          if HasSynthesis (r_cache r) compNSN synthesis then (r, Ok tt)
          else
            match client_List (Namespace comp)
                    (NewSlicesByCompositionGenerationKey (Name comp)
                       (ObservedCompositionGeneration synthesis)) with
            | Err e => (r, Err (Wrapped "listing resource slices" e))
            | Panic m => (r, Panic m)
            | Ok items =>
                if negb (Z.eqb (Z.of_nat (length items)) count) then (r, Ok tt)
                else
                  let '(c, filled) := Fill (r_cache r) compNSN synthesis items in
                  match filled with
                  | Err e => (mkReconstituter c (queues r) (started r), Err e)
                  | Panic m => (mkReconstituter c (queues r) (started r), Panic m)
                  | Ok reqs =>
                      (mkReconstituter c (enqueue (queues r) reqs) (started r),
                       Ok tt)
                  end
            end
      end
  end.

(** [reconstituter.Reconcile] *)
Definition Reconcile (r : reconstituter) (req : NamespacedName)
  : reconstituter * outcome Result :=
  let r := mkReconstituter (r_cache r) (queues r) true in
  match client_Get req with
  | Err e =>
      if IsNotFound e
      then (mkReconstituter (Purge (r_cache r) req None) (queues r) (started r),
            Ok Result0)
      else (r, Err (Wrapped "getting resource" e))
  | Panic m => (r, Panic m)
  | Ok comp =>
      match populateCache r comp (PreviousState comp) with
      | (r1, Err e) => (r1, Err (Wrapped "processing previous state" e))
      | (r1, Panic m) => (r1, Panic m)
      | (r1, Ok _) =>
          match populateCache r1 comp (CurrentState comp) with
          | (r2, Err e) => (r2, Err (Wrapped "processing current state" e))
          | (r2, Panic m) => (r2, Panic m)
          | (r2, Ok _) =>
              (mkReconstituter (Purge (r_cache r2) req (Some comp))
                 (queues r2) (started r2),
               Ok Result0)
          end
      end
  end.

End WithCache.
End reconstitution.

(* ================================================================= *)
(** ** Package [synthesis]: the slice controller
       ([internal/controllers/synthesis/slice.go]) *)

Module synthesis.
Import apiv1.

(** The calls the controller makes through [client.Client] during one pass,
    and the clock behind [metav1.Now].  Synthesizers are cluster-scoped:
    their key is the name alone. *)
Class Client : Type := {
  GetComposition : NamespacedName -> outcome Composition;
  GetSynthesizer : string -> outcome Synthesizer;
  GetResourceSlice : NamespacedName -> outcome ResourceSlice;
  StatusUpdate : Composition -> outcome unit;
  Now : Time_
}.

(** [comp.Status.PendingResynthesis = ptr.To(t)] *)
Definition setPendingResynthesis (comp : Composition) (t : Time_) : Composition :=
  mkComposition (Name comp) (Namespace comp) (Generation comp)
    (DeletionTimestamp comp) (Annotations comp) (Spec_Synthesizer_Name comp)
    (mkCompositionStatus
       (InFlightSynthesis (Status comp)) (CurrentSynthesis (Status comp))
       (PreviousSynthesis (Status comp)) (Some t)).

Section WithClient.
Context {store : Client} {methods : CompositionMethods}.

(** Lines 66-84: the loop over the slices of the current synthesis.  The
    first component is the list of status updates sent to the store. *)
Fixpoint checkSlices (comp : Composition) (refs : list ResourceSliceRef)
  : list Composition * outcome Result :=
  match refs with
  | [] => ([], Ok Result0)
  | ref :: rest =>
      match GetResourceSlice (mkNSN (Namespace comp) (SliceRef_Name ref)) with
      | Ok _ => checkSlices comp rest
      | Panic m => ([], Panic m)
      | Err e =>
          if IsNotFound e then
            let comp' := setPendingResynthesis comp Now in
            match StatusUpdate comp' with
            | Err e' => ([comp'], Err (Wrapped "swapping compisition state" e'))
            | Panic m => ([comp'], Panic m)
            | Ok _ => ([comp'], Ok Result0)
            end
          else
            match IgnoreNotFound e with
            | Some _ =>
                ([], returnWith (IgnoreNotFound (Wrapped "getting resource slice" e)))
            | None => checkSlices comp rest
            end
      end
  end.

(** [sliceController.Reconcile] *)
Definition Reconcile (req : NamespacedName) : list Composition * outcome Result :=
  match GetComposition req with
  | Err e => ([], Err (Wrapped "getting composition" e))
  | Panic m => ([], Panic m)
  | Ok comp =>
      match GetSynthesizer (Spec_Synthesizer_Name comp) with
      | Err e => ([], returnWith (IgnoreNotFound (Wrapped "gettting synthesizer" e)))
      | Panic m => ([], Panic m)
      | Ok syn =>
          if NotEligibleForResynthesis comp syn then ([], Ok Result0)
          else
            match CurrentSynthesis (Status comp) with
            | None => ([], Panic "invalid memory address or nil pointer dereference")
            | Some current => checkSlices comp (ResourceSlices current)
            end
      end
  end.

End WithClient.

(** *** [newSliceHandler] *)

(** [metav1.OwnerReference]; [Controller] is a [*bool]. *)
Record OwnerReference : Type :=
  mkOwnerReference { Owner_Name : string; Owner_Controller : option bool }.

(** What the handler reads of the [client.Object] of an event. *)
Record EventObject : Type :=
  mkEventObject { Object_Namespace : string; Object_OwnerReferences : list OwnerReference }.

(** [metav1.GetControllerOf]: the first owner reference marked as the
    controller. *)
Definition GetControllerOf (obj : EventObject) : option OwnerReference :=
  find (fun ref => match Owner_Controller ref with
                   | Some true => true
                   | _ => false
                   end) (Object_OwnerReferences obj).

Inductive Event : Type :=
| CreateEvent (obj : EventObject)
| UpdateEvent (objectOld objectNew : EventObject)
| DeleteEvent (obj : EventObject)
| GenericEvent (obj : EventObject).

(** Lines 90-103: the requests that [apply] adds to the queue. *)
Definition apply (obj : EventObject) : list NamespacedName :=
  match GetControllerOf obj with
  | None => []
  | Some owner => [mkNSN (Object_Namespace obj) (Owner_Name owner)]
  end.

(** [newSliceHandler]: the requests that each kind of event adds to the
    queue.  The [handler.Funcs] it returns has no [GenericFunc], which makes
    generic events no-ops. *)
Definition newSliceHandler (e : Event) : list NamespacedName :=
  match e with
  | CreateEvent _ => []
  | UpdateEvent _ _ => []
  | DeleteEvent obj => apply obj
  | GenericEvent _ => []
  end.

End synthesis.

(* ================================================================= *)
(** ** Sorting by a name ([sort.Slice] with [<] on a string key)

    The elements the controllers sort this way carry nothing but the key, or
    are told apart by nothing else afterwards; the sort is written as an
    insertion sort. *)

Section SortByName.
Context {A : Type} (key : A -> string).

Fixpoint insertBy (x : A) (l : list A) : list A :=
  match l with
  | [] => [x]
  | y :: rest =>
      if String.ltb (key x) (key y) then x :: l else y :: insertBy x rest
  end.

Definition sortBy (l : list A) : list A :=
  fold_left (fun acc x => insertBy x acc) l [].
End SortByName.

(* ================================================================= *)
(** ** Package [aggregation]: the status of a symphony *)

Module aggregation.
Import apiv1.

(** [equality.Semantic.DeepEqual] on two symphony statuses. *)
Definition timeEqual (a b : option Time_) : bool :=
  match a, b with
  | None, None => true
  | Some x, Some y => Z.eqb x y
  | _, _ => false
  end.

Fixpoint refsEqual (a b : list SynthesizerRef) : bool :=
  match a, b with
  | [], [] => true
  | x :: a', y :: b' =>
      String.eqb (SynthesizerRef_Name x) (SynthesizerRef_Name y) && refsEqual a' b'
  | _, _ => false
  end.

Definition statusEqual (a b : SymphonyStatus) : bool :=
  Z.eqb (Symphony_ObservedGeneration a) (Symphony_ObservedGeneration b)
  && timeEqual (Symphony_Synthesized a) (Symphony_Synthesized b)
  && timeEqual (Symphony_Reconciled a) (Symphony_Reconciled b)
  && timeEqual (Symphony_Ready a) (Symphony_Ready b)
  && refsEqual (Symphony_Synthesizers a) (Symphony_Synthesizers b).

(** One step of "find the max values":
    [if acc.Before(t) || acc == nil { acc = t }]. *)
Definition later (acc t : option Time_) : option Time_ :=
  if Before acc t || match acc with None => true | Some _ => false end
  then t else acc.

(** Lines 68-81: the first loop. *)
Definition maxValues (comps : list Composition) (newStatus : SymphonyStatus)
  : SymphonyStatus :=
  fold_left
    (fun st comp =>
       match CurrentSynthesis (Status comp) with
       | None => st
       | Some cur =>
           mkSymphonyStatus (Symphony_ObservedGeneration st)
             (later (Symphony_Synthesized st) (Synthesized cur))
             (later (Symphony_Reconciled st) (Reconciled cur))
             (later (Symphony_Ready st) (Ready cur))
             (Symphony_Synthesizers st)
       end)
    comps newStatus.

(** [if t == nil { acc = nil }] *)
Definition unlessNil (acc t : option Time_) : option Time_ :=
  match t with
  | None => None
  | Some _ => acc
  end.

Definition clearTimes (st : SymphonyStatus) : SymphonyStatus :=
  mkSymphonyStatus (Symphony_ObservedGeneration st) None None None
    (Symphony_Synthesizers st).

(** Lines 84-101: the second loop; [None] is its early return, the status
    that comes with it being [clearTimes] of the status reached. *)
Fixpoint filterValues (comps : list Composition) (st : SymphonyStatus)
  (synthMap : list string) : SymphonyStatus * option (list string) :=
  match comps with
  | [] => (st, Some synthMap)
  | comp :: rest =>
      match CurrentSynthesis (Status comp) with
      | None => (clearTimes st, None)
      | Some cur =>
          if negb (Z.eqb (ObservedCompositionGeneration cur) (Generation comp))
             || match DeletionTimestamp comp with Some _ => true | None => false end
          then (clearTimes st, None)
          else
            filterValues rest
              (mkSymphonyStatus (Symphony_ObservedGeneration st)
                 (unlessNil (Symphony_Synthesized st) (Synthesized cur))
                 (unlessNil (Symphony_Reconciled st) (Reconciled cur))
                 (unlessNil (Symphony_Ready st) (Ready cur))
                 (Symphony_Synthesizers st))
              (Spec_Synthesizer_Name comp :: synthMap)
      end
  end.

(** [symphonyController.buildStatus] *)
Definition buildStatus (symph : Symphony) (comps : list Composition)
  : SymphonyStatus * bool :=
  let newStatus :=
    mkSymphonyStatus (Symphony_Generation symph) None None None
      (Symphony_Synthesizers (Symphony_Status symph)) in
  match filterValues comps (maxValues comps newStatus) [] with
  | (st, None) => (st, false)
  | (st, Some synthMap) =>
      if forallb (fun v => existsb (String.eqb (SynthesizerRef_Name (Variation_Synthesizer v)))
                             synthMap)
                 (Symphony_Variations symph)
      then (st, negb (statusEqual st (Symphony_Status symph)))
      else (st, false)
  end.

End aggregation.

(* ================================================================= *)
(** ** Package [replication]: the synthesizers listed in the status of a
       symphony ([internal/controllers/replication/symphony.go]) *)

Module replication.
Import apiv1.

(** The one call that [syncStatus] makes through [client.Client]. *)
Class Client : Type := {
  StatusUpdate : Symphony -> outcome unit
}.

(** [sortSynthesizerRefs] *)
Definition sortSynthesizerRefs (refs : list SynthesizerRef) : list SynthesizerRef :=
  sortBy SynthesizerRef_Name refs.

(** [symph.Status.Synthesizers = refs] *)
Definition setSynthesizers (symph : Symphony) (refs : list SynthesizerRef) : Symphony :=
  mkSymphony (Symphony_Name symph) (Symphony_Namespace symph)
    (Symphony_Generation symph) (Symphony_Variations symph)
    (mkSymphonyStatus
       (Symphony_ObservedGeneration (Symphony_Status symph))
       (Symphony_Synthesized (Symphony_Status symph))
       (Symphony_Reconciled (Symphony_Status symph))
       (Symphony_Ready (Symphony_Status symph))
       refs).

Section WithClient.
Context {store : Client}.

(** [symphonyController.syncStatus]: the symphony as the call leaves it, and
    whether it was modified. *)
Definition syncStatus (symph : Symphony) (comps : list Composition)
  : Symphony * outcome bool :=
  let refs :=
    sortSynthesizerRefs
      (map (fun comp => mkSynthesizerRef (Spec_Synthesizer_Name comp)) comps) in
  if aggregation.refsEqual refs (Symphony_Synthesizers (Symphony_Status symph))
  then (symph, Ok false)
  else
    let symph' := setSynthesizers symph refs in
    match StatusUpdate symph' with
    | Err e => (symph', Err (Wrapped "syncing status" e))
    | Panic m => (symph', Panic m)
    | Ok _ => (symph', Ok true)
    end.

End WithClient.
End replication.

(* ================================================================= *)
(** ** Reference implementations of the libraries

    Small executable stand-ins for the library classes, enough to run the
    functions above on concrete manifests.  They cover a subset of what the
    real libraries accept: JSON without floating-point numbers and without
    [\u] escapes, JSON-Patch with [add], [remove], [replace] and [test] on
    object members, durations made of integer components, and a
    structured merge over objects in which lists and scalars are atomic. *)

From Stdlib Require Import Numbers.DecimalString.

Module refimpl.

(** *** JSON text *)

Inductive token : Type :=
| TLBrace | TRBrace | TLBracket | TRBracket | TColon | TComma
| TStr (s : string) | TNum (z : Z) | TTrue | TFalse | TNull.

Inductive lexmode : Type :=
| Idle
| InStr (acc : string) (escaped : bool)
| InNum (neg : bool) (digits : option Z)
| InWord (w : string).

Definition quote : ascii := ascii_of_nat 34.
Definition backslash : ascii := ascii_of_nat 92.

Definition snoc (s : string) (c : ascii) : string :=
  (s ++ String c EmptyString)%string.

Definition is_digit (c : ascii) : bool :=
  Nat.leb 48 (nat_of_ascii c) && Nat.leb (nat_of_ascii c) 57.
Definition digit_of (c : ascii) : Z := Z.of_nat (nat_of_ascii c - 48).
Definition is_lower (c : ascii) : bool :=
  Nat.leb 97 (nat_of_ascii c) && Nat.leb (nat_of_ascii c) 122.
Definition is_space (c : ascii) : bool :=
  let n := nat_of_ascii c in
  Nat.eqb n 32 || Nat.eqb n 10 || Nat.eqb n 9 || Nat.eqb n 13.

Definition unescape (c : ascii) : option ascii :=
  if Ascii.eqb c quote then Some quote
  else if Ascii.eqb c backslash then Some backslash
  else if Ascii.eqb c "/"%char then Some "/"%char
  else if Ascii.eqb c "n"%char then Some (ascii_of_nat 10)
  else if Ascii.eqb c "t"%char then Some (ascii_of_nat 9)
  else if Ascii.eqb c "r"%char then Some (ascii_of_nat 13)
  else if Ascii.eqb c "b"%char then Some (ascii_of_nat 8)
  else if Ascii.eqb c "f"%char then Some (ascii_of_nat 12)
  else None.

Definition word_token (w : string) : option token :=
  if String.eqb w "true" then Some TTrue
  else if String.eqb w "false" then Some TFalse
  else if String.eqb w "null" then Some TNull
  else None.

Definition num_token (neg : bool) (digits : option Z) : option token :=
  match digits with
  | Some n => Some (TNum (if neg then (- n)%Z else n))
  | None => None
  end.

(** What a character starts when no token is open. *)
Definition idle_step (c : ascii) (acc : list token) : option (lexmode * list token) :=
  if is_space c then Some (Idle, acc)
  else if Ascii.eqb c "{"%char then Some (Idle, TLBrace :: acc)
  else if Ascii.eqb c "}"%char then Some (Idle, TRBrace :: acc)
  else if Ascii.eqb c "["%char then Some (Idle, TLBracket :: acc)
  else if Ascii.eqb c "]"%char then Some (Idle, TRBracket :: acc)
  else if Ascii.eqb c ":"%char then Some (Idle, TColon :: acc)
  else if Ascii.eqb c ","%char then Some (Idle, TComma :: acc)
  else if Ascii.eqb c quote then Some (InStr EmptyString false, acc)
  else if Ascii.eqb c "-"%char then Some (InNum true None, acc)
  else if is_digit c then Some (InNum false (Some (digit_of c)), acc)
  else if is_lower c then Some (InWord (String c EmptyString), acc)
  else None.

Fixpoint lex (s : string) (mode : lexmode) (acc : list token) : option (list token) :=
  match s with
  | EmptyString =>
      match mode with
      | Idle => Some (rev acc)
      | InStr _ _ => None
      | InNum neg d =>
          match num_token neg d with Some t => Some (rev (t :: acc)) | None => None end
      | InWord w =>
          match word_token w with Some t => Some (rev (t :: acc)) | None => None end
      end
  | String c rest =>
      match mode with
      | Idle =>
          match idle_step c acc with
          | Some (mode', acc') => lex rest mode' acc'
          | None => None
          end
      | InStr a true =>
          match unescape c with
          | Some c' => lex rest (InStr (snoc a c') false) acc
          | None => None
          end
      | InStr a false =>
          if Ascii.eqb c quote then lex rest Idle (TStr a :: acc)
          else if Ascii.eqb c backslash then lex rest (InStr a true) acc
          else lex rest (InStr (snoc a c) false) acc
      | InNum neg d =>
          if is_digit c
          then lex rest (InNum neg (Some (match d with
                                          | Some n => 10 * n + digit_of c
                                          | None => digit_of c
                                          end)%Z)) acc
          else match num_token neg d with
               | Some t =>
                   match idle_step c (t :: acc) with
                   | Some (mode', acc') => lex rest mode' acc'
                   | None => None
                   end
               | None => None
               end
      | InWord w =>
          if is_lower c then lex rest (InWord (snoc w c)) acc
          else match word_token w with
               | Some t =>
                   match idle_step c (t :: acc) with
                   | Some (mode', acc') => lex rest mode' acc'
                   | None => None
                   end
               | None => None
               end
      end
  end.

(** Recursive descent over the tokens; a repeated key keeps its last
    value, as in [encoding/json]. *)
Fixpoint parse_value (fuel : nat) (ts : list token) : option (any * list token) :=
  match fuel with
  | O => None
  | S fuel' =>
      match ts with
      | TNull :: r => Some (VNil, r)
      | TTrue :: r => Some (VBool true, r)
      | TFalse :: r => Some (VBool false, r)
      | TNum z :: r => Some (VInt z, r)
      | TStr s :: r => Some (VString s, r)
      | TLBracket :: TRBracket :: r => Some (VList [], r)
      | TLBracket :: r => parse_elements fuel' r []
      | TLBrace :: TRBrace :: r => Some (VMap [], r)
      | TLBrace :: r => parse_members fuel' r []
      | _ => None
      end
  end
with parse_elements (fuel : nat) (ts : list token) (acc : list any)
  : option (any * list token) :=
  match fuel with
  | O => None
  | S fuel' =>
      match parse_value fuel' ts with
      | Some (v, TComma :: r) => parse_elements fuel' r (acc ++ [v])
      | Some (v, TRBracket :: r) => Some (VList (acc ++ [v]), r)
      | _ => None
      end
  end
with parse_members (fuel : nat) (ts : list token) (acc : object)
  : option (any * list token) :=
  match fuel with
  | O => None
  | S fuel' =>
      match ts with
      | TStr k :: TColon :: r =>
          match parse_value fuel' r with
          | Some (v, TComma :: r') => parse_members fuel' r' (m_set k v acc)
          | Some (v, TRBrace :: r') => Some (VMap (m_set k v acc), r')
          | _ => None
          end
      | _ => None
      end
  end.

Definition decode (s : string) : option any :=
  match lex s Idle [] with
  | Some ts =>
      match parse_value (S (length ts)) ts with
      | Some (v, []) => Some v
      | _ => None
      end
  | None => None
  end.

Fixpoint escape (s : string) : string :=
  match s with
  | EmptyString => EmptyString
  | String c rest =>
      if Ascii.eqb c quote then String backslash (String quote (escape rest))
      else if Ascii.eqb c backslash then String backslash (String backslash (escape rest))
      else if Ascii.eqb c (ascii_of_nat 10) then String backslash (String "n"%char (escape rest))
      else String c (escape rest)
  end.

Definition quoted (s : string) : string := (dq ++ escape s ++ dq)%string.

(** Members are written in the order of the association list. *)
Fixpoint encode (v : any) : option string :=
  match v with
  | VNil => Some "null"
  | VBool true => Some "true"
  | VBool false => Some "false"
  | VInt n => Some (NilZero.string_of_int (Z.to_int n))
  | VFloat _ => None
  | VString s => Some (quoted s)
  | VList l =>
      match (fix go (l : list any) (first : bool) : option string :=
               match l with
               | [] => Some EmptyString
               | x :: r =>
                   match encode x, go r false with
                   | Some sx, Some sr =>
                       Some ((if first then EmptyString else ",") ++ sx ++ sr)%string
                   | _, _ => None
                   end
               end) l true with
      | Some body => Some ("[" ++ body ++ "]")%string
      | None => None
      end
  | VMap m =>
      match (fix go (m : list (string * any)) (first : bool) : option string :=
               match m with
               | [] => Some EmptyString
               | (k, x) :: r =>
                   match encode x, go r false with
                   | Some sx, Some sr =>
                       Some ((if first then EmptyString else ",")
                               ++ quoted k ++ ":" ++ sx ++ sr)%string
                   | _, _ => None
                   end
               end) m true with
      | Some body => Some ("{" ++ body ++ "}")%string
      | None => None
      end
  end.

Definition jsonError : error := OtherError "json: cannot decode or encode".

Definition decodeObject (s : string) : outcome object :=
  match decode s with
  | Some (VMap m) => Ok m
  | _ => Err jsonError
  end.

Definition encodeObject (m : object) : outcome string :=
  match encode (VMap m) with
  | Some s => Ok s
  | None => Err jsonError
  end.

(** The unstructured decoder refuses an object without a kind. *)
Definition ref_UnmarshalJSON (s : string) : outcome Unstructured :=
  m <- decodeObject s ;;
  if String.eqb (getNestedString m ["kind"]) EmptyString
  then Err (OtherError "Object 'Kind' is missing")
  else Ok (mkUnstructured m).

Definition ref_MarshalJSON (u : Unstructured) : outcome string :=
  encodeObject (Object u).

(** One operation: every member back to JSON text. *)
Fixpoint rawMembers (m : list (string * any)) : option Operation :=
  match m with
  | [] => Some []
  | (k, v) :: rest =>
      match encode v, rawMembers rest with
      | Some s, Some l => Some ((k, s) :: l)
      | _, _ => None
      end
  end.

Fixpoint rawOps (l : list any) : option (list Operation) :=
  match l with
  | [] => Some []
  | VMap m :: rest =>
      match rawMembers m, rawOps rest with
      | Some o, Some os => Some (o :: os)
      | _, _ => None
      end
  | _ :: _ => None
  end.

Definition stringMember (m : object) (k : string) : outcome string :=
  match m_get k m with
  | None | Some VNil => Ok EmptyString
  | Some (VString s) => Ok s
  | Some _ => Err jsonError
  end.

Definition ref_Unmarshal_patch (s : string) : outcome patchMeta :=
  m <- decodeObject s ;;
  match m_get "patch" m with
  | None | Some VNil => Ok (mkPatchMeta EmptyString EmptyString None)
  | Some (VMap p) =>
      apiVersion <- stringMember p "apiVersion" ;;
      kind <- stringMember p "kind" ;;
      match m_get "ops" p with
      | None | Some VNil => Ok (mkPatchMeta apiVersion kind None)
      | Some (VList l) =>
          match rawOps l with
          | Some ops => Ok (mkPatchMeta apiVersion kind (Some ops))
          | None => Err jsonError
          end
      | Some _ => Err jsonError
      end
  | Some _ => Err jsonError
  end.

#[export] Instance codec : JSONCodec :=
  {| UnmarshalJSON := ref_UnmarshalJSON;
     MarshalJSON := ref_MarshalJSON;
     json_Unmarshal_map := decodeObject;
     json_Unmarshal_patch := ref_Unmarshal_patch |}.

(** *** JSON-Patch (RFC 6902) on object members *)

Fixpoint split_slash (s : string) (cur : string) : list string :=
  match s with
  | EmptyString => [cur]
  | String c r =>
      if Ascii.eqb c "/"%char then cur :: split_slash r EmptyString
      else split_slash r (snoc cur c)
  end.

Definition pointer (p : string) : option (list string) :=
  match p with
  | EmptyString => Some []
  | String c r => if Ascii.eqb c "/"%char then Some (split_slash r EmptyString) else None
  end.

Fixpoint ptr_get (doc : any) (path : list string) : option any :=
  match path with
  | [] => Some doc
  | k :: rest =>
      match doc with
      | VMap m => match m_get k m with Some c => ptr_get c rest | None => None end
      | _ => None
      end
  end.

Fixpoint ptr_add (doc : any) (path : list string) (v : any) : option any :=
  match path with
  | [] => Some v
  | k :: rest =>
      match doc with
      | VMap m =>
          match rest with
          | [] => Some (VMap (m_set k v m))
          | _ :: _ =>
              match m_get k m with
              | Some c =>
                  match ptr_add c rest v with
                  | Some c' => Some (VMap (m_set k c' m))
                  | None => None
                  end
              | None => None
              end
          end
      | _ => None
      end
  end.

Fixpoint ptr_remove (doc : any) (path : list string) : option any :=
  match path with
  | [] => None
  | k :: rest =>
      match doc with
      | VMap m =>
          match m_get k m with
          | Some c =>
              match rest with
              | [] => Some (VMap (m_delete k m))
              | _ :: _ =>
                  match ptr_remove c rest with
                  | Some c' => Some (VMap (m_set k c' m))
                  | None => None
                  end
              end
          | None => None
          end
      | _ => None
      end
  end.

Definition rawValue (op : Operation) (k : string) : option any :=
  match m_get k op with
  | Some raw => decode raw
  | None => None
  end.

Definition rawString (op : Operation) (k : string) : option string :=
  match rawValue op k with
  | Some (VString s) => Some s
  | _ => None
  end.

Definition applyOp (doc : any) (op : Operation) : option any :=
  match rawString op "op", rawString op "path" with
  | Some name, Some p =>
      match pointer p with
      | Some path =>
          if String.eqb name "add" then
            match rawValue op "value" with
            | Some v => ptr_add doc path v
            | None => None
            end
          else if String.eqb name "remove" then ptr_remove doc path
          else if String.eqb name "replace" then
            match ptr_get doc path, rawValue op "value" with
            | Some _, Some v => ptr_add doc path v
            | _, _ => None
            end
          else if String.eqb name "test" then
            match ptr_get doc path, rawValue op "value" with
            | Some a, Some b => if DeepEqualValue a b then Some doc else None
            | _, _ => None
            end
          else None
      | None => None
      end
  | _, _ => None
  end.

Fixpoint applyOps (doc : any) (ops : list Operation) : option any :=
  match ops with
  | [] => Some doc
  | op :: rest =>
      match applyOp doc op with
      | Some doc' => applyOps doc' rest
      | None => None
      end
  end.

Definition patchError : error := OtherError "jsonpatch: cannot apply".

Definition encodeAny (v : any) : outcome string :=
  match encode v with
  | Some s => Ok s
  | None => Err jsonError
  end.

Definition ref_Patch_Apply (ops : list Operation) (doc : string) : outcome string :=
  match decode doc with
  | Some d =>
      match applyOps d ops with
      | Some d' => encodeAny d'
      | None => Err patchError
      end
  | None => Err jsonError
  end.

(** *** JSON merge patch (RFC 7396) *)

Fixpoint mergePatch (target patch : any) {struct patch} : any :=
  match patch with
  | VMap pm =>
      VMap ((fix go (pm : list (string * any)) (tm : object) {struct pm} : object :=
               match pm with
               | [] => tm
               | (k, v) :: r =>
                   match v with
                   | VNil => go r (m_delete k tm)
                   | _ =>
                       go r (m_set k (mergePatch
                                        (match m_get k tm with
                                         | Some t => t
                                         | None => VNil
                                         end) v) tm)
                   end
               end) pm (match target with VMap m => m | _ => [] end))
  | _ => patch
  end.

Definition m_has {A : Type} (k : string) (m : list (string * A)) : bool :=
  match m_get k m with Some _ => true | None => false end.

(** [jsonpatch.CreateMergePatch(a, b)]: the patch that turns [a] into [b]. *)
Fixpoint createMergePatch (a b : any) {struct b} : any :=
  match a, b with
  | VMap am, VMap bm =>
      VMap ((fix go (bm : list (string * any)) {struct bm} : object :=
               match bm with
               | [] => []
               | (k, vb) :: r =>
                   match m_get k am with
                   | None => (k, vb) :: go r
                   | Some va =>
                       match va, vb with
                       | VMap _, VMap _ =>
                           match createMergePatch va vb with
                           | VMap [] => go r
                           | d => (k, d) :: go r
                           end
                       | _, _ =>
                           if DeepEqualValue va vb then go r else (k, vb) :: go r
                       end
                   end
               end) bm
            ++ map (fun kv => (fst kv, VNil))
                 (filter (fun kv => negb (m_has (fst kv) bm)) am))
  | _, _ => b
  end.

(** [keepOrDeleteNullInObj]: keep only the deletions ([keepNull]) or only
    the additions and changes. *)
Fixpoint keepOrDeleteNull (keepNull : bool) (v : any) : any :=
  match v with
  | VMap m =>
      VMap ((fix go (m : list (string * any)) : object :=
               match m with
               | [] => []
               | (k, x) :: r =>
                   match x with
                   | VNil => if keepNull then (k, VNil) :: go r else go r
                   | VMap [] => if keepNull then go r else (k, x) :: go r
                   | VMap (_ :: _) =>
                       match keepOrDeleteNull keepNull x with
                       | VMap [] => go r
                       | f => (k, f) :: go r
                       end
                   | _ => if keepNull then go r else (k, x) :: go r
                   end
               end) m)
  | _ => v
  end.

Definition decodeOrEmpty (s : string) : option any :=
  if String.eqb s EmptyString then Some (VMap []) else decode s.

Definition ref_MergePatch (doc patch : string) : outcome string :=
  match decode doc, decode patch with
  | Some d, Some p => encodeAny (mergePatch d p)
  | _, _ => Err jsonError
  end.

Definition ref_CreateThreeWay (original modified current : string) : outcome string :=
  match decodeOrEmpty original, decodeOrEmpty modified, decodeOrEmpty current with
  | Some o, Some m, Some c =>
      let addAndChange := keepOrDeleteNull false (createMergePatch c m) in
      let deletions := keepOrDeleteNull true (createMergePatch o m) in
      encodeAny (mergePatch deletions addAndChange)
  | _, _, _ => Err jsonError
  end.

#[export] Instance jsonpatch : JSONPatchLib :=
  {| Patch_Apply := ref_Patch_Apply;
     MergePatch := ref_MergePatch;
     CreateThreeWayJSONMergePatch := ref_CreateThreeWay |}.

(** *** Durations and integers *)

Definition unitFactor (u : string) : option Z :=
  if String.eqb u "ns" then Some 1%Z
  else if String.eqb u "us" then Some 1000%Z
  else if String.eqb u "ms" then Some 1000000%Z
  else if String.eqb u "s" then Some 1000000000%Z
  else if String.eqb u "m" then Some 60000000000%Z
  else if String.eqb u "h" then Some 3600000000000%Z
  else None.

Definition closeComponent (total : Z) (num : option Z) (u : string) : option Z :=
  match num, unitFactor u with
  | Some n, Some f => Some (total + n * f)%Z
  | _, _ => None
  end.

Fixpoint durationLoop (s : string) (total : Z) (num : option Z) (u : string)
  : option Z :=
  match s with
  | EmptyString => closeComponent total num u
  | String c rest =>
      if is_digit c then
        if String.eqb u EmptyString
        then durationLoop rest total
               (Some (match num with
                      | Some n => 10 * n + digit_of c
                      | None => digit_of c
                      end)%Z) u
        else match closeComponent total num u with
             | Some total' => durationLoop rest total' (Some (digit_of c)) EmptyString
             | None => None
             end
      else match num with
           | Some _ => durationLoop rest total num (snoc u c)
           | None => None
           end
  end.

Definition durationError : error := OtherError "time: invalid duration".

Definition ref_ParseDuration (s : string) : outcome Z :=
  let '(neg, body) :=
    match s with
    | String c rest =>
        if Ascii.eqb c "-"%char then (true, rest)
        else if Ascii.eqb c "+"%char then (false, rest)
        else (false, s)
    | EmptyString => (false, s)
    end in
  if String.eqb body "0" then Ok 0%Z
  else match durationLoop body 0%Z None EmptyString with
       | Some d => Ok (if neg then (- d)%Z else d)
       | None => Err durationError
       end.

Fixpoint digits (s : string) (acc : option Z) : option Z :=
  match s with
  | EmptyString => acc
  | String c rest =>
      if is_digit c
      then digits rest (Some (match acc with
                              | Some n => 10 * n + digit_of c
                              | None => digit_of c
                              end)%Z)
      else None
  end.

Definition ref_Atoi (s : string) : outcome Z :=
  let '(neg, body) :=
    match s with
    | String c rest =>
        if Ascii.eqb c "-"%char then (true, rest)
        else if Ascii.eqb c "+"%char then (false, rest)
        else (false, s)
    | EmptyString => (false, s)
    end in
  match digits body None with
  | Some n =>
      let z := if neg then (- n)%Z else n in
      if (Z.leb (- 2 ^ 63) z && Z.ltb z (2 ^ 63))%Z then Ok z
      else Err (OtherError "strconv.Atoi: value out of range")
  | None => Err (OtherError "strconv.Atoi: invalid syntax")
  end.

#[export] Instance gostd : GoStd :=
  {| ParseDuration := ref_ParseDuration; Atoi := ref_Atoi |}.

(** A check compiles when its expression is not empty. *)
#[export] Instance readinesslib : ReadinessLib :=
  {| ParseCheck := fun expr =>
       if String.eqb expr EmptyString
       then Err (OtherError "empty expression")
       else Ok (mkCheck EmptyString expr) |}.

(** *** Structured merge over objects

    Objects merge member by member; everything else is atomic.  A field
    set is the list of its paths, each a list of field names. *)

Definition path : Type := list string.

Fixpoint smd_merge (lhs rhs : any) {struct rhs} : any :=
  match rhs with
  | VMap rm =>
      match lhs with
      | VMap lm =>
          VMap ((fix go (rm : list (string * any)) (lm : object) {struct rm} : object :=
                   match rm with
                   | [] => lm
                   | (k, v) :: r =>
                       go r (m_set k (match m_get k lm with
                                      | Some l => smd_merge l v
                                      | None => v
                                      end) lm)
                   end) rm lm)
      | _ => rhs
      end
  | _ => rhs
  end.

(** The leaves below a value: the members of non-empty objects, and
    everything else as it is. *)
Fixpoint leaves (prefix : path) (v : any) : list path :=
  match v with
  | VMap ((_ :: _) as m) =>
      (fix go (m : list (string * any)) : list path :=
         match m with
         | [] => []
         | (k, x) :: r => leaves (prefix ++ [k]) x ++ go r
         end) m
  | _ => [prefix]
  end.

Fixpoint smd_compare (prefix : path) (lhs rhs : any) {struct lhs}
  : list path * list path * list path :=
  match lhs, rhs with
  | VMap lm, VMap rm =>
      let '(removed, modified, added) :=
        (fix go (lm : list (string * any)) : list path * list path * list path :=
           match lm with
           | [] => ([], [], [])
           | (k, l) :: rest =>
               let '(r1, m1, a1) :=
                 match m_get k rm with
                 | Some r => smd_compare (prefix ++ [k]) l r
                 | None => (leaves (prefix ++ [k]) l, [], [])
                 end in
               let '(r2, m2, a2) := go rest in
               (r1 ++ r2, m1 ++ m2, a1 ++ a2)
           end) lm in
      (removed, modified,
       added ++ flat_map (fun kv => if m_has (fst kv) lm then []
                                    else leaves (prefix ++ [fst kv]) (snd kv)) rm)
  | _, _ => if DeepEqualValue lhs rhs then ([], [], []) else ([], [prefix], [])
  end.

(** Puts a member back after a removal below it; a member that the removal
    emptied goes as well. *)
Definition putOrDrop (m : object) (k : string) (child : any) : any :=
  match child with
  | VMap [] => VMap (m_delete k m)
  | _ => VMap (m_set k child m)
  end.

(** Removes one path. *)
Fixpoint removePath (v : any) (p : path) : any :=
  match p with
  | [] => v
  | k :: rest =>
      match v with
      | VMap m =>
          match rest with
          | [] => VMap (m_delete k m)
          | _ :: _ =>
              match m_get k m with
              | Some child => putOrDrop m k (removePath child rest)
              | None => v
              end
          end
      | _ => v
      end
  end.

Definition smd_remove (v : any) (s : list path) : any := fold_left removePath s v.

Definition path_eqb (a b : path) : bool :=
  if list_eq_dec string_dec a b then true else false.

#[export] Instance smd : SMD :=
  {| TypeRef := string;
     Schema := unit;
     TypedValue := any;
     FieldSet := list path;
     AsTypedUnvalidated := fun v _ _ => v;
     AsTyped := fun v _ _ => Ok v;
     tv_Merge := fun lhs rhs => Ok (smd_merge lhs rhs);
     tv_Compare := fun lhs rhs => Ok (smd_compare [] lhs rhs);
     tv_RemoveItems := smd_remove;
     tv_AsValue := fun v => v;
     fs_Empty := fun s => match s with [] => true | _ :: _ => false end;
     fs_Has := fun s p => existsb (path_eqb p) s |}.

(** The schema getters of the tests: one that knows every type under a
    single name, one that knows none, and one whose lookup fails. *)
Definition typedGetter (name : string) : resource.SchemaGetter :=
  resource.mkSchemaGetter _ (fun _ => Ok (Some name, tt)).
Definition untypedGetter : resource.SchemaGetter :=
  resource.mkSchemaGetter _ (fun _ => Ok (None, tt)).
Definition failingGetter : resource.SchemaGetter :=
  resource.mkSchemaGetter _ (fun _ => Err (OtherError "discovery unavailable")).

(** A composition orphans its resources when its deletion strategy says
    so, and is eligible for resynthesis once it has a synthesized current
    synthesis and is not being deleted. *)
#[export] Instance compositionMethods : apiv1.CompositionMethods :=
  {| apiv1.ShouldOrphanResources := fun c =>
       String.eqb (strmap_index (apiv1.Annotations c) "eno.azure.io/deletion-strategy")
                  "orphan";
     apiv1.NotEligibleForResynthesis := fun c _ =>
       match apiv1.CurrentSynthesis (apiv1.Status c) with
       | None => true
       | Some cur =>
           match apiv1.Synthesized cur, apiv1.DeletionTimestamp c with
           | Some _, None => false
           | _, _ => true
           end
       end |}.

(** JSON text written with single quotes, for readability. *)
Fixpoint js (s : string) : string :=
  match s with
  | EmptyString => EmptyString
  | String c rest =>
      String (if Ascii.eqb c "'"%char then quote else c) (js rest)
  end.

(** A slice holding one manifest. *)
Definition sliceOf (manifest : string) : apiv1.ResourceSlice :=
  apiv1.mkResourceSlice "slice" "default" [apiv1.mkManifest manifest false].

End refimpl.


From Stdlib Require Import Sorting.Sorted Sorting.Permutation.

(* ================================================================= *)
(** * Notions used to state the properties *)

(** Whether [unstructured.NestedFieldNoCopy] finds something at a path. *)
Definition found (v : any) (p : list string) : bool :=
  snd (fst (NestedFieldNoCopy v p)).

Section MergeNotions.
Import resource.
Context {json : JSONCodec} {jsonpatch : JSONPatchLib} {smd : SMD}.

(** Which path [Merge] takes: [Some true] is the schema-aware one, [Some
    false] the schema-free one, [None] when the lookup itself fails. *)
Definition mergePath (r : Resource) (sg : SchemaGetter) : option bool :=
  match Get sg (GVK r) with
  | Ok (Some _, _) => Some true
  | Ok (None, _) => Some false
  | _ => None
  end.

(** The merged state equals the live object, in the sense of the
    comparison that each path makes. *)
Definition converged (r : Resource) (old : option Resource)
  (current : Unstructured) (sg : SchemaGetter) : Prop :=
  match Get sg (GVK r) with
  | Ok (None, _) =>
      exists patched,
        patchedUntyped r old current = Ok patched /\
        DeepEqual current patched = true
  | Ok (Some typeref, schem) =>
      exists merged cmp,
        mergedTyped r old current schem typeref = Ok merged /\
        Compare merged (AsTypedUnvalidated (VMap (Object current)) schem typeref)
          = Ok cmp /\
        IsSame cmp = true
  | _ => False
  end.

(** [RemoveItems] removes what it is given: no field of the set is found
    in the value afterwards. *)
Definition RemoveItems_removes : Prop :=
  forall (v : TypedValue) (s : FieldSet) (p : list string),
    p <> [] -> fs_Has s p = true ->
    found (tv_AsValue (tv_RemoveItems v s)) p = false.
End MergeNotions.

Section PatchNotions.
Import resource.
Context {json : JSONCodec} {jsonpatch : JSONPatchLib}.

(** The operations, applied to the placeholder object, give an object
    whose [metadata.deletionTimestamp] is a non-empty string. *)
Definition setsDeletionTimestamp (ops : list Operation) : Prop :=
  exists patchedjson patched,
    Patch_Apply ops placeholder = Ok patchedjson /\
    json_Unmarshal_map patchedjson = Ok patched /\
    fst (fst (NestedString patched ["metadata"; "deletionTimestamp"])) <> EmptyString.

(** The patch applies to the live object and changes it. *)
Definition patchChanges (ops : list Operation) (cur : Unstructured) : Prop :=
  exists curjson patchedjson patched,
    MarshalJSON cur = Ok curjson /\
    Patch_Apply ops curjson = Ok patchedjson /\
    UnmarshalJSON patchedjson = Ok patched /\
    DeepEqual cur patched = false.
End PatchNotions.

Section ParserNotions.
Import resource apiv1.
Context {json : JSONCodec}.

(** The manifest text at a position of a slice. *)
Definition manifestAt (slice : ResourceSlice) (index : nat) : option string :=
  option_map Manifest_Manifest (nth_error (Slice_Resources slice) index).

(** The annotations of a manifest, as [NewResource] reads them. *)
Definition manifestAnnotations (manifest : string) : list (string * string) :=
  match UnmarshalJSON manifest with
  | Ok parsed =>
      match GetAnnotations (pruneStatusAndCreation parsed) with
      | Some l => l
      | None => []
      end
  | _ => []
  end.

(** Two manifests that decode to the same object once [status] and
    [metadata.creationTimestamp] are set aside: they differ in nothing but
    these two fields. *)
Definition sameButStatusAndCreation (m1 m2 : string) : Prop :=
  exists o1 o2,
    UnmarshalJSON m1 = Ok o1 /\ UnmarshalJSON m2 = Ok o2 /\
    pruneStatusAndCreation o1 = pruneStatusAndCreation o2.
End ParserNotions.

Section ControllerNotions.
Import apiv1.
Context {cachelib : reconstitution.Cache} {store : reconstitution.Client}.

(** The reconstituter after one reconcile pass for each request, in order. *)
Definition reconcileAll (r : reconstitution.reconstituter)
  (reqs : list NamespacedName) : reconstitution.reconstituter :=
  fold_left (fun r req => fst (reconstitution.Reconcile r req)) reqs r.

(** The slices that [populateCache] lists for a synthesis. *)
Definition listedSlices (comp : reconstitution.Composition)
  (synthesis : reconstitution.Synthesis) : outcome (list ResourceSlice) :=
  reconstitution.client_List (reconstitution.Namespace comp)
    (reconstitution.NewSlicesByCompositionGenerationKey
       (reconstitution.Name comp)
       (reconstitution.ObservedCompositionGeneration synthesis)).
End ControllerNotions.

Section SliceNotions.
Import apiv1.
Context {store : synthesis.Client}.

(** The store has no slice of that name in the namespace of the
    composition. *)
Definition sliceMissing (comp : Composition) (ref : ResourceSliceRef) : Prop :=
  exists e,
    synthesis.GetResourceSlice (mkNSN (Namespace comp) (SliceRef_Name ref)) = Err e /\
    IsNotFound e = true.

(** The store answers the lookup of the slice: it is there, or it is not
    found. *)
Definition sliceAnswered (comp : Composition) (ref : ResourceSliceRef) : Prop :=
  (exists slice,
      synthesis.GetResourceSlice (mkNSN (Namespace comp) (SliceRef_Name ref)) = Ok slice)
  \/ sliceMissing comp ref.
End SliceNotions.

Section MoreParserNotions.
Import resource apiv1.
Context {json : JSONCodec}.

(** What [NewResource] asks of a manifest: it decodes; the decoded object
    names itself, its kind and its API version; and, when it is a Patch of
    [eno.azure.io/v1], its patch member decodes and names a well-formed API
    version.  No annotation takes part. *)
Definition manifestAccepted (manifest : string) : Prop :=
  exists parsed0,
    UnmarshalJSON manifest = Ok parsed0 /\
    GetName parsed0 <> EmptyString /\
    GetKind parsed0 <> EmptyString /\
    GetAPIVersion parsed0 <> EmptyString /\
    exists gvk patch,
      parsePatch manifest (GroupVersionKindOf parsed0) = Ok (gvk, patch).
End MoreParserNotions.

(** A list in the order of its names: no element has a name below that of
    the element before it. *)
Definition orderedBy {A : Type} (key : A -> string) (l : list A) : Prop :=
  Sorted (fun a b => String.ltb (key b) (key a) = false) l.

Section CacheNotions.
Import apiv1.
Context {cachelib : reconstitution.Cache}.

(** A synthesis that [Fill] has stored is one that [HasSynthesis] reports. *)
Definition Fill_is_remembered : Prop :=
  forall c nsn s items c' reqs,
    reconstitution.Fill c nsn s items = (c', Ok reqs) ->
    reconstitution.HasSynthesis c' nsn s = true.
End CacheNotions.

(** ** Notions for the status of a symphony *)

Section AggregationNotions.
Import apiv1.

(** The three times that a synthesis and the status of a symphony share. *)
Inductive timeField : Type := FSynthesized | FReconciled | FReady.

Definition ofSynthesis (f : timeField) (s : Synthesis) : option Time_ :=
  match f with
  | FSynthesized => Synthesized s
  | FReconciled => Reconciled s
  | FReady => Ready s
  end.

Definition ofStatus (f : timeField) (st : SymphonyStatus) : option Time_ :=
  match f with
  | FSynthesized => Symphony_Synthesized st
  | FReconciled => Symphony_Reconciled st
  | FReady => Symphony_Ready st
  end.

(** The composition has a current synthesis, made from its present
    generation, and is not being deleted. *)
Definition upToDate (comp : Composition) (cur : Synthesis) : Prop :=
  CurrentSynthesis (Status comp) = Some cur /\
  ObservedCompositionGeneration cur = Generation comp /\
  DeletionTimestamp comp = None.

(** Every composition is up to date and has the time [field]; [t] is the
    latest of these times. *)
Definition latestOf (field : Synthesis -> option Time_)
  (comps : list Composition) (t : Time_) : Prop :=
  (forall comp, In comp comps ->
     exists cur t', upToDate comp cur /\ field cur = Some t' /\ (t' <= t)%Z) /\
  (exists comp cur,
     In comp comps /\ CurrentSynthesis (Status comp) = Some cur /\
     field cur = Some t).

(** The first loop of [buildStatus], for one of the times. *)
Definition maxTime (field : Synthesis -> option Time_)
  (comps : list Composition) (acc : option Time_) : option Time_ :=
  fold_left
    (fun acc comp =>
       match CurrentSynthesis (Status comp) with
       | None => acc
       | Some cur => aggregation.later acc (field cur)
       end)
    comps acc.

(** Some composition runs the synthesizer of the variation. *)
Definition covered (comps : list Composition) (v : Variation) : Prop :=
  exists comp,
    In comp comps /\
    Spec_Synthesizer_Name comp = SynthesizerRef_Name (Variation_Synthesizer v).
End AggregationNotions.

(** ** Concrete inputs *)

Module examples.
Import refimpl resource.

Definition resourceOf (manifest : string) : outcome Resource :=
  snd (NewResource (sliceOf manifest) 0).

Definition liveOf (text : string) : Unstructured :=
  match UnmarshalJSON text with
  | Ok u => u
  | _ => mkUnstructured []
  end.

(** The three deployments of [TestMergeBasics]. *)
Definition newManifest : string :=
  js "{ 'apiVersion': 'apps/v1', 'kind': 'Deployment', 'metadata': { 'name': 'foo' }, 'spec': { 'replicas': 2, 'template': { 'spec': { 'serviceAccountName': 'updated' } } } }".
Definition oldManifest : string :=
  js "{ 'apiVersion': 'apps/v1', 'kind': 'Deployment', 'metadata': { 'name': 'foo' }, 'spec': { 'strategy': { 'type': 'RollingUpdate' }, 'template': { 'spec': { 'serviceAccountName': 'original' } } } }".
Definition liveText : string :=
  js "{ 'apiVersion': 'apps/v1', 'kind': 'Deployment', 'metadata': { 'name': 'foo', 'resourceVersion': '1' }, 'spec': { 'selector': { 'matchLabels': { 'foo': 'bar' } }, 'strategy': { 'type': 'RollingUpdate' }, 'template': { 'spec': { 'serviceAccountName': 'original' } } } }".
(** The live object once the new state has been applied to it. *)
Definition convergedText : string :=
  js "{ 'apiVersion': 'apps/v1', 'kind': 'Deployment', 'metadata': { 'name': 'foo', 'resourceVersion': '2' }, 'spec': { 'selector': { 'matchLabels': { 'foo': 'bar' } }, 'template': { 'spec': { 'serviceAccountName': 'updated' } }, 'replicas': 2 } }".

Definition emptyResource : Resource :=
  mkResource (mkRef EmptyString EmptyString EmptyString EmptyString) false
    (mkManifestRef (apiv1.mkNSN EmptyString EmptyString) 0) [] None
    (mkGVK EmptyString EmptyString EmptyString) [] None false 0%Z None None VNil.

Definition resourceOrEmpty (manifest : string) : Resource :=
  match resourceOf manifest with
  | Ok r => r
  | _ => emptyResource
  end.

Definition newState : Resource := Eval vm_compute in resourceOrEmpty newManifest.
Definition oldState : Resource := Eval vm_compute in resourceOrEmpty oldManifest.
Definition live : Unstructured := Eval vm_compute in liveOf liveText.
Definition liveConverged : Unstructured := Eval vm_compute in liveOf convergedText.

Definition deploymentGetter : SchemaGetter :=
  typedGetter "io.k8s.api.apps.v1.Deployment".

(** Config maps for the parser. *)
Definition plainManifest : string :=
  js "{'apiVersion': 'v1', 'kind': 'ConfigMap', 'metadata': {'name': 'foo'}}".
Definition statusManifest : string :=
  js "{'apiVersion': 'v1', 'kind': 'ConfigMap', 'metadata': {'name': 'foo', 'creationTimestamp': null}, 'status': {}}".
Definition badIntervalManifest : string :=
  js "{'apiVersion': 'v1', 'kind': 'ConfigMap', 'metadata': {'name': 'foo', 'annotations': {'eno.azure.io/reconcile-interval': 'bogus'}}}".

(** The deletion patch of [TestNewResource]. *)
Definition deletionPatchManifest : string :=
  js "{'apiVersion': 'eno.azure.io/v1', 'kind': 'Patch', 'metadata': {'name': 'foo', 'namespace': 'bar'}, 'patch': {'apiVersion': 'v1', 'kind': 'ConfigMap', 'ops': [{'op': 'add', 'path': '/metadata/deletionTimestamp', 'value': 'anything'}]}}".
(** A patch that adds a data entry. *)
Definition dataPatchManifest : string :=
  js "{'apiVersion': 'eno.azure.io/v1', 'kind': 'Patch', 'metadata': {'name': 'foo', 'namespace': 'bar'}, 'patch': {'apiVersion': 'v1', 'kind': 'ConfigMap', 'ops': [{'op': 'add', 'path': '/data', 'value': {'foo': 'bar'}}]}}".

Definition deletionPatch : Resource :=
  Eval vm_compute in resourceOrEmpty deletionPatchManifest.
Definition dataPatch : Resource :=
  Eval vm_compute in resourceOrEmpty dataPatchManifest.
Definition liveConfigMap : Unstructured :=
  Eval vm_compute in liveOf plainManifest.

Definition plainResource : Resource :=
  Eval vm_compute in resourceOrEmpty plainManifest.
Definition statusResource : Resource :=
  Eval vm_compute in resourceOrEmpty statusManifest.
Definition badIntervalResource : Resource :=
  Eval vm_compute in resourceOrEmpty badIntervalManifest.

Definition someComposition : apiv1.Composition :=
  apiv1.mkComposition "comp" "default" 1%Z None None "synth"
    (apiv1.mkCompositionStatus None None None None).

(** A cache that remembers the generations it was filled for and asks for
    one request per manifest. *)
#[export] Instance cacheOfGenerations : reconstitution.Cache :=
  {| reconstitution.cache := list Z;
     reconstitution.Request := string * nat;
     reconstitution.HasSynthesis := fun c _ s =>
       existsb (Z.eqb (reconstitution.ObservedCompositionGeneration s)) c;
     reconstitution.Fill := fun c _ s slices =>
       (reconstitution.ObservedCompositionGeneration s :: c,
        Ok (flat_map (fun sl =>
                        map (fun i => (apiv1.Slice_Name sl, i))
                            (seq 0 (length (apiv1.Slice_Resources sl))))
                     slices));
     reconstitution.Purge := fun c _ _ => c |}.

(** A store with one composition whose current synthesis recorded two
    slices, while only one slice is listed yet; its previous synthesis
    recorded one. *)
Definition staleComposition : reconstitution.Composition :=
  reconstitution.mkComposition "default" "comp"
    (Some (reconstitution.mkSynthesis 1%Z (Some 1%Z)))
    (Some (reconstitution.mkSynthesis 2%Z (Some 2%Z))).

#[export] Instance staleStore : reconstitution.Client :=
  {| reconstitution.client_Get := fun nsn =>
       if String.eqb (apiv1.NSN_Name nsn) "comp" then Ok staleComposition
       else Err (NotFoundError "composition");
     reconstitution.client_List := fun _ _ => Ok [sliceOf plainManifest];
     reconstitution.NewSlicesByCompositionGenerationKey := fun name gen =>
       (name ++ "/" ++ NilZero.string_of_int (Z.to_int gen))%string |}.

Definition freshReconstituter : reconstitution.reconstituter :=
  reconstitution.mkReconstituter [] [[]] false.

(** A store for the slice controller: the current synthesis of the
    composition refers to the slices [a] and [b], and [b] is gone. *)
Definition referringComposition : apiv1.Composition :=
  apiv1.mkComposition "comp" "default" 1%Z None None "synth"
    (apiv1.mkCompositionStatus None
       (Some (apiv1.mkSynthesis "uuid" 1%Z 1%Z (Some 10%Z) None None
                [apiv1.mkSliceRef "a"; apiv1.mkSliceRef "b"]))
       None None).

#[export] Instance storeWithoutB : synthesis.Client :=
  {| synthesis.GetComposition := fun nsn =>
       if String.eqb (apiv1.NSN_Name nsn) "comp" then Ok referringComposition
       else Err (NotFoundError "composition");
     synthesis.GetSynthesizer := fun name =>
       if String.eqb name "synth" then Ok (apiv1.mkSynthesizer "synth" 1%Z)
       else Err (NotFoundError "synthesizer");
     synthesis.GetResourceSlice := fun nsn =>
       if String.eqb (apiv1.NSN_Name nsn) "a" then Ok (sliceOf plainManifest)
       else Err (NotFoundError "resourceslice");
     synthesis.StatusUpdate := fun _ => Ok tt;
     synthesis.Now := 1000%Z |}.

(** A store in which both slices of [referringComposition] exist. *)
Definition storeWithBoth : synthesis.Client :=
  {| synthesis.GetComposition := fun nsn =>
       if String.eqb (apiv1.NSN_Name nsn) "comp" then Ok referringComposition
       else Err (NotFoundError "composition");
     synthesis.GetSynthesizer := fun name =>
       if String.eqb name "synth" then Ok (apiv1.mkSynthesizer "synth" 1%Z)
       else Err (NotFoundError "synthesizer");
     synthesis.GetResourceSlice := fun _ => Ok (sliceOf plainManifest);
     synthesis.StatusUpdate := fun _ => Ok tt;
     synthesis.Now := 1000%Z |}.

(** A config map with a reconcile interval, a readiness group, two
    readiness checks and the annotations and labels that the parser reads
    and prunes. *)
Definition annotatedManifest : string :=
  js "{'apiVersion': 'v1', 'kind': 'ConfigMap', 'metadata': {'name': 'foo', 'namespace': 'bar', 'labels': {'eno.azure.io/owner': 'me', 'app': 'web'}, 'annotations': {'eno.azure.io/reconcile-interval': '10s', 'eno.azure.io/disable-updates': 'true', 'eno.azure.io/readiness-group': '250', 'eno.azure.io/readiness-zz': 'true', 'eno.azure.io/readiness': 'false', 'team': 'core'}}}".

Definition annotatedResource : Resource :=
  Eval vm_compute in resourceOrEmpty annotatedManifest.

(** Two compositions of one symphony, both synthesized from their present
    generation. *)
Definition compositionOf (name synth : string) (synthesized reconciled ready : option Z)
  : apiv1.Composition :=
  apiv1.mkComposition name "default" 1%Z None None synth
    (apiv1.mkCompositionStatus None
       (Some (apiv1.mkSynthesis "uuid" 1%Z 1%Z synthesized reconciled ready []))
       None None).

Definition symphonyCompositions : list apiv1.Composition :=
  [compositionOf "one" "synth-b" (Some 10%Z) (Some 25%Z) (Some 30%Z);
   compositionOf "two" "synth-a" (Some 12%Z) (Some 20%Z) None].

Definition someSymphony : apiv1.Symphony :=
  apiv1.mkSymphony "symph" "default" 3%Z
    [apiv1.mkVariation None (apiv1.mkSynthesizerRef "synth-a");
     apiv1.mkVariation None (apiv1.mkSynthesizerRef "synth-b")]
    (apiv1.mkSymphonyStatus 2%Z None None None []).

(** A store that accepts every status update of a symphony. *)
#[export] Instance acceptingStore : replication.Client :=
  {| replication.StatusUpdate := fun _ => Ok tt |}.

End examples.
(* ================================================================= *)
(** * Properties *)

(** ** Association lists *)

Section AssocMapFacts.
Context {A : Type}.

Lemma m_get_delete_same (k : string) (m : list (string * A)) :
  m_get k (m_delete k m) = None.
Proof.
  induction m as [|[k' v'] m IH]; simpl; [reflexivity|].
  destruct (String.eqb k k') eqn:E; [exact IH|].
  simpl. rewrite E. exact IH.
Qed.

Lemma m_get_delete_other (k k' : string) (m : list (string * A)) :
  String.eqb k' k = false -> m_get k' (m_delete k m) = m_get k' m.
Proof.
  intros Hne. induction m as [|[k0 v0] m IH]; simpl; [reflexivity|].
  destruct (String.eqb k k0) eqn:E.
  - apply String.eqb_eq in E. subst k0. rewrite Hne. exact IH.
  - simpl. destruct (String.eqb k' k0); [reflexivity|exact IH].
Qed.

Lemma m_get_set_same (k : string) (v : A) (m : list (string * A)) :
  m_get k (m_set k v m) = Some v.
Proof.
  induction m as [|[k' v'] m IH]; simpl.
  - rewrite String.eqb_refl. reflexivity.
  - destruct (String.eqb k k') eqn:E; simpl.
    + rewrite String.eqb_refl. reflexivity.
    + rewrite E. exact IH.
Qed.

Lemma m_get_set_other (k k' : string) (v : A) (m : list (string * A)) :
  String.eqb k' k = false -> m_get k' (m_set k v m) = m_get k' m.
Proof.
  intros Hne. induction m as [|[k0 v0] m IH]; simpl.
  - rewrite Hne. reflexivity.
  - destruct (String.eqb k k0) eqn:E; simpl.
    + apply String.eqb_eq in E. subst k0. rewrite Hne. reflexivity.
    + destruct (String.eqb k' k0); [reflexivity|exact IH].
Qed.
End AssocMapFacts.

(** ** [Resource.Merge] *)

Section MergeProperties.
Import resource.
Context {json : JSONCodec} {jsonpatch : JSONPatchLib} {smd : SMD}.

(** C1. Idempotence of merge: whenever the three-way merge of [old], the
    desired resource and [current] gives a result equal to [current],
    [Merge] returns no object to write, on the schema-aware and on the
    schema-free path alike. *)
Theorem Merge_skips_when_converged :
  forall (r : Resource) (old : option Resource) (current : Unstructured)
         (sg : SchemaGetter),
    converged r old current sg ->
    exists typed,
      mergePath r sg = Some typed /\
      Merge r old current sg = Ok (None, typed).
Proof.
  intros r old current sg Hc.
  unfold converged in Hc. unfold Merge, mergePath.
  destruct (Get sg (GVK r)) as [[[typeref|] schem]|e|m]; try contradiction.
  - destruct Hc as (merged & cmp & Hm & Hcmp & Hsame).
    exists true. split; [reflexivity|].
    rewrite Hm. simpl. unfold finishTyped. rewrite Hcmp, Hsame. reflexivity.
  - destruct Hc as (patched & Hp & Heq).
    exists false. split; [reflexivity|].
    unfold mergeUntyped. rewrite Hp. simpl. rewrite Heq. reflexivity.
Qed.

(** The converse: [Merge] skips only when the merge has converged. *)
Lemma Merge_skip_only_when_converged :
  forall r old current sg typed,
    Merge r old current sg = Ok (None, typed) ->
    converged r old current sg.
Proof.
  intros r old current sg typed. unfold Merge, converged.
  destruct (Get sg (GVK r)) as [[[typeref|] schem]|e|m]; try discriminate.
  - destruct (mergedTyped r old current schem typeref) as [merged|e|m] eqn:Hm;
      simpl; try discriminate.
    unfold finishTyped.
    destruct (Compare merged _) as [cmp|e|m] eqn:Hcmp; try discriminate.
    + destruct (IsSame cmp) eqn:Hsame.
      * intros _. exists merged, cmp. auto.
      * destruct (tv_AsValue merged); discriminate.
    + destruct (tv_AsValue merged); discriminate.
  - unfold mergeUntyped.
    destruct (patchedUntyped r old current) as [patched|e|m] eqn:Hp;
      simpl; try discriminate.
    destruct (DeepEqual current patched) eqn:Heq; try discriminate.
    intros _. exists patched. auto.
Qed.

(** C2, as the code has it. A failed schema lookup makes [Merge] fail with
    that error, wrapped, and no object; the schema-free path is the one
    taken when the lookup succeeds with a nil type reference. *)
Theorem Merge_lookup_failure_is_returned :
  forall (r : Resource) (old : option Resource) (current : Unstructured)
         (sg : SchemaGetter),
    (forall e, Get sg (GVK r) = Err e ->
               Merge r old current sg = Err (Wrapped "looking up schema" e)) /\
    (forall schem, Get sg (GVK r) = Ok (None, schem) ->
                   Merge r old current sg = mergeUntyped r old current).
Proof.
  intros r old current sg. unfold Merge. split.
  - intros e He. rewrite He. reflexivity.
  - intros schem Hs. rewrite Hs. reflexivity.
Qed.

(** C3. On the schema-aware path with an old resource: the value that
    [Merge] compares with the live object and returns is the merge of the
    new state onto the current one from which exactly the set [Removed] of
    the comparison of old with new has been removed; so, [RemoveItems]
    removing what it is given, no field of that set is found in the
    object that [Merge] returns. *)
Theorem Merge_typed_prunes_removed :
  forall (r old : Resource) (current : Unstructured) (sg : SchemaGetter)
         (typeref : TypeRef) (schem : Schema)
         (merged typedOld : TypedValue) (toOld : Comparison),
    let typedNew := AsTypedUnvalidated (value r) schem typeref in
    let typedCurrent := AsTypedUnvalidated (VMap (Object current)) schem typeref in
    let pruned := tv_RemoveItems merged (Removed toOld) in
    Get sg (GVK r) = Ok (Some typeref, schem) ->
    tv_Merge typedCurrent typedNew = Ok merged ->
    AsTyped (value old) schem typeref = Ok typedOld ->
    Compare typedOld typedNew = Ok toOld ->
    RemoveItems_removes ->
    mergedTyped r (Some old) current schem typeref = Ok pruned /\
    Merge r (Some old) current sg = finishTyped pruned current schem typeref /\
    (forall u typed,
        Merge r (Some old) current sg = Ok (Some u, typed) ->
        typed = true /\
        VMap (Object u) = tv_AsValue pruned /\
        forall p, p <> [] -> fs_Has (Removed toOld) p = true ->
                  found (VMap (Object u)) p = false).
Proof.
  intros r old current sg typeref schem merged typedOld toOld
         typedNew typedCurrent pruned Hget Hmerge Hold Hcmp Hlaw.
  assert (Hm : mergedTyped r (Some old) current schem typeref = Ok pruned).
  { unfold mergedTyped. fold typedNew typedCurrent.
    rewrite Hmerge. simpl. rewrite Hold. simpl. rewrite Hcmp. reflexivity. }
  assert (HM : Merge r (Some old) current sg
               = finishTyped pruned current schem typeref).
  { unfold Merge. rewrite Hget, Hm. reflexivity. }
  split; [exact Hm|]. split; [exact HM|].
  intros u typed Hu. rewrite HM in Hu. unfold finishTyped in Hu.
  assert (Hcopy : match tv_AsValue pruned with
                  | VMap m => Ok (Some (mkUnstructured m), true)
                  | _ => Panic "interface conversion: interface {} is not map[string]interface {}"
                  end = Ok (Some u, typed) ->
                  typed = true /\ VMap (Object u) = tv_AsValue pruned).
  { destruct (tv_AsValue pruned); try discriminate.
    intros E. inversion E. subst. simpl. auto. }
  assert (Hres : typed = true /\ VMap (Object u) = tv_AsValue pruned).
  { destruct (Compare pruned _) as [cmp|e|m]; try discriminate.
    - destruct (IsSame cmp); [discriminate|]. apply Hcopy. exact Hu.
    - apply Hcopy. exact Hu. }
  destruct Hres as [Ht Hv]. split; [exact Ht|]. split; [exact Hv|].
  intros p Hp Hin. rewrite Hv. unfold pruned. apply Hlaw; assumption.
Qed.

End MergeProperties.

(** ** [Resource.Deleted] and [Resource.NeedsToBePatched] *)

Section PatchProperties.
Import resource apiv1.
Context {json : JSONCodec} {jsonpatch : JSONPatchLib} {methods : CompositionMethods}.

Lemma patchSetsDeletionTimestamp_iff (r : Resource) :
  patchSetsDeletionTimestamp r = true <->
  exists ops, Patch r = Some ops /\ setsDeletionTimestamp ops.
Proof.
  unfold patchSetsDeletionTimestamp, setsDeletionTimestamp. split.
  - destruct (Patch r) as [ops|]; [|discriminate].
    destruct (Patch_Apply ops placeholder) as [pj|e|m] eqn:Ha; try discriminate.
    destruct (json_Unmarshal_map pj) as [patched|e|m] eqn:Hu; try discriminate.
    intros Hne. exists ops. split; [reflexivity|]. exists pj, patched.
    repeat split; try assumption.
    intros Heq. rewrite Heq in Hne. discriminate.
  - intros (ops & Hp & pj & patched & Ha & Hu & Hne).
    rewrite Hp, Ha, Hu.
    destruct (String.eqb _ EmptyString) eqn:E; [|reflexivity].
    apply String.eqb_eq in E. contradiction.
Qed.

(** C4. The deletion predicate: a resource is deleted exactly when its
    composition is being deleted and does not orphan its resources, or its
    manifest is flagged deleted, or it carries a patch that gives the
    placeholder object a non-empty [metadata.deletionTimestamp]. *)
Theorem Deleted_iff :
  forall (r : Resource) (comp : Composition),
    Deleted r comp = true <->
    (DeletionTimestamp comp <> None /\ ShouldOrphanResources comp = false)
    \/ ManifestDeleted r = true
    \/ (exists ops, Patch r = Some ops /\ setsDeletionTimestamp ops).
Proof.
  intros r comp. rewrite <- patchSetsDeletionTimestamp_iff.
  unfold Deleted. rewrite !orb_true_iff, !andb_true_iff, negb_true_iff.
  split.
  - intros [[[Hd Ho]|Hm]|[_ Hp]]; auto.
    left. split; [|exact Ho]. destruct (DeletionTimestamp comp); [discriminate|discriminate].
  - intros [[Hd Ho]|[Hm|Hp]]; auto.
    + left. left. split; [|exact Ho].
      destruct (DeletionTimestamp comp); [reflexivity|contradiction].
    + right. split; [|exact Hp].
      apply patchSetsDeletionTimestamp_iff in Hp. destruct Hp as (ops & Hp & _).
      rewrite Hp. reflexivity.
Qed.

(** C10. [NeedsToBePatched] always answers and never fails: it is false
    without a patch, without a live object, and whenever encoding the live
    object, applying the patch or decoding the result fails; it is true
    exactly when the patched object differs from the live one. *)
Theorem NeedsToBePatched_total :
  forall (r : Resource) (current : option Unstructured),
    (Patch r = None -> NeedsToBePatched r current = false) /\
    (current = None -> NeedsToBePatched r current = false) /\
    (forall ops cur,
        Patch r = Some ops -> current = Some cur ->
        (forall js, MarshalJSON cur <> Ok js) \/
        (forall js pj, MarshalJSON cur = Ok js -> Patch_Apply ops js <> Ok pj) \/
        (forall js pj u, MarshalJSON cur = Ok js -> Patch_Apply ops js = Ok pj ->
                         UnmarshalJSON pj <> Ok u) ->
        NeedsToBePatched r current = false) /\
    (NeedsToBePatched r current = true <->
     exists ops cur, Patch r = Some ops /\ current = Some cur /\ patchChanges ops cur).
Proof.
  intros r current. unfold NeedsToBePatched, patchChanges.
  split; [|split; [|split]].
  - intros Hp. rewrite Hp. reflexivity.
  - intros Hc. rewrite Hc. destruct (Patch r); reflexivity.
  - intros ops cur Hp Hc Hfail. rewrite Hp, Hc.
    destruct (MarshalJSON cur) as [js|e|m] eqn:Hm; try reflexivity.
    destruct (Patch_Apply ops js) as [pj|e|m] eqn:Ha; try reflexivity.
    destruct (UnmarshalJSON pj) as [u|e|m] eqn:Hu; try reflexivity.
    exfalso. destruct Hfail as [F|[F|F]].
    + exact (F js eq_refl).
    + exact (F js pj eq_refl Ha).
    + exact (F js pj u eq_refl Ha Hu).
  - split.
    + destruct (Patch r) as [ops|]; [|discriminate].
      destruct current as [cur|]; [|discriminate].
      destruct (MarshalJSON cur) as [js|e|m] eqn:Hm; try discriminate.
      destruct (Patch_Apply ops js) as [pj|e|m] eqn:Ha; try discriminate.
      destruct (UnmarshalJSON pj) as [u|e|m] eqn:Hu; try discriminate.
      intros Hne. apply negb_true_iff in Hne.
      exists ops, cur. repeat split. exists js, pj, u. auto.
    + intros (ops & cur & Hp & Hc & js & pj & u & Hm & Ha & Hu & Hne).
      rewrite Hp, Hc, Hm, Ha, Hu, Hne. reflexivity.
Qed.

End PatchProperties.

(** ** [NewResource] *)

Section NestedFieldFacts.

Lemma RemoveNestedField_two (o : object) (a k : string) :
  RemoveNestedField o [a; k] =
  match m_get a o with
  | Some (VMap x) => m_set a (VMap (m_delete k x)) o
  | _ => o
  end.
Proof. reflexivity. Qed.

Lemma setNestedFieldNoCopy_two (o : object) (v : any) (a k : string) :
  setNestedFieldNoCopy o v [a; k] =
  match m_get a o with
  | Some (VMap x) => m_set a (VMap (m_set k v x)) o
  | Some _ => o
  | None => m_set a (VMap [(k, v)]) o
  end.
Proof. reflexivity. Qed.

Lemma found_two (o : object) (a c : string) :
  found (VMap o) [a; c] =
  match m_get a o with
  | Some (VMap x) => match m_get c x with Some _ => true | None => false end
  | _ => false
  end.
Proof.
  unfold found. simpl.
  destruct (m_get a o) as [[| | | | | |x]|]; simpl; try reflexivity.
  destruct (m_get c x); reflexivity.
Qed.

Lemma found_one (o : object) (s : string) :
  found (VMap o) [s] = match m_get s o with Some _ => true | None => false end.
Proof. unfold found. simpl. destruct (m_get s o); reflexivity. Qed.

Lemma m_get_RemoveNestedField_other (o : object) (s a k : string) :
  String.eqb s a = false ->
  m_get s (RemoveNestedField o [a; k]) = m_get s o.
Proof.
  intros Hne. rewrite RemoveNestedField_two.
  destruct (m_get a o) as [[| | | | | |x]|]; try reflexivity.
  apply m_get_set_other. exact Hne.
Qed.

Lemma m_get_setNestedFieldNoCopy_other (o : object) (v : any) (s a k : string) :
  String.eqb s a = false ->
  m_get s (setNestedFieldNoCopy o v [a; k]) = m_get s o.
Proof.
  intros Hne. rewrite setNestedFieldNoCopy_two.
  destruct (m_get a o) as [[| | | | | |x]|]; try reflexivity;
    apply m_get_set_other; exact Hne.
Qed.

Lemma found_RemoveNestedField_same (o : object) (a k : string) :
  found (VMap (RemoveNestedField o [a; k])) [a; k] = false.
Proof.
  rewrite found_two, RemoveNestedField_two.
  destruct (m_get a o) as [[| | | | | |x]|] eqn:E; rewrite ?E; try reflexivity.
  rewrite m_get_set_same, m_get_delete_same. reflexivity.
Qed.

Lemma found_RemoveNestedField_other (o : object) (a k c : string) :
  String.eqb c k = false ->
  found (VMap (RemoveNestedField o [a; k])) [a; c] = found (VMap o) [a; c].
Proof.
  intros Hne. rewrite !found_two, RemoveNestedField_two.
  destruct (m_get a o) as [[| | | | | |x]|] eqn:E; rewrite ?E; try reflexivity.
  rewrite m_get_set_same, m_get_delete_other by exact Hne. reflexivity.
Qed.

Lemma found_setNestedFieldNoCopy_other (o : object) (v : any) (a k c : string) :
  String.eqb c k = false ->
  found (VMap (setNestedFieldNoCopy o v [a; k])) [a; c] = found (VMap o) [a; c].
Proof.
  intros Hne. rewrite !found_two, setNestedFieldNoCopy_two.
  destruct (m_get a o) as [[| | | | | |x]|] eqn:E; rewrite ?E; try reflexivity.
  - rewrite m_get_set_same, m_get_set_other by exact Hne. reflexivity.
  - rewrite m_get_set_same. simpl. rewrite Hne. reflexivity.
Qed.

End NestedFieldFacts.

Section ParserProperties.
Import resource apiv1.
Context {json : JSONCodec} {gostd : GoStd} {readiness : ReadinessLib}.

(** [setNestedMap] on a second-level field of [metadata] leaves the other
    top-level fields and the other fields of [metadata] as they are. *)
Lemma setNestedMap_top (u : Unstructured) (m : strmap) (k s : string) :
  String.eqb s "metadata" = false ->
  m_get s (Object (setNestedMap u m ["metadata"; k])) = m_get s (Object u).
Proof.
  intros Hne. destruct m as [l|]; simpl.
  - unfold SetNestedStringMap. apply m_get_setNestedFieldNoCopy_other. exact Hne.
  - apply m_get_RemoveNestedField_other. exact Hne.
Qed.

Lemma setNestedMap_metadata (u : Unstructured) (m : strmap) (k c : string) :
  String.eqb c k = false ->
  found (VMap (Object (setNestedMap u m ["metadata"; k]))) ["metadata"; c]
  = found (VMap (Object u)) ["metadata"; c].
Proof.
  intros Hne. destruct m as [l|]; simpl.
  - unfold SetNestedStringMap. apply found_setNestedFieldNoCopy_other. exact Hne.
  - apply found_RemoveNestedField_other. exact Hne.
Qed.

(** What the parser interns has neither [status] nor
    [metadata.creationTimestamp]. *)
Lemma interned_has_no_status (parsed0 : Unstructured) :
  found (VMap (Object (pruneEnoMetadata (pruneStatusAndCreation parsed0)))) ["status"]
  = false.
Proof.
  rewrite found_one. unfold pruneEnoMetadata, SetLabels, SetAnnotations.
  rewrite !setNestedMap_top by reflexivity.
  unfold pruneStatusAndCreation, SetCreationTimestampZero. cbn [Object].
  rewrite m_get_RemoveNestedField_other by reflexivity.
  rewrite m_get_delete_same. reflexivity.
Qed.

Lemma interned_has_no_creationTimestamp (parsed0 : Unstructured) :
  found (VMap (Object (pruneEnoMetadata (pruneStatusAndCreation parsed0))))
        ["metadata"; "creationTimestamp"] = false.
Proof.
  unfold pruneEnoMetadata, SetLabels, SetAnnotations.
  rewrite !setNestedMap_metadata by reflexivity.
  unfold pruneStatusAndCreation, SetCreationTimestampZero. cbn [Object].
  apply found_RemoveNestedField_same.
Qed.

(** What a successful [NewResource] read and built. *)
Lemma NewResource_Ok_inv (slice : ResourceSlice) (index : nat)
  (logs : list string) (res : Resource) :
  NewResource slice index = (logs, Ok res) ->
  exists manifest parsed0,
    manifestAt slice index = Some manifest /\
    UnmarshalJSON manifest = Ok parsed0 /\
    ManifestHash res = fnv64 manifest /\
    value res = VMap (Object (pruneEnoMetadata (pruneStatusAndCreation parsed0))) /\
    ReconcileInterval res = snd (parseReconcileInterval (manifestAnnotations manifest)) /\
    (forall l, In l (fst (parseReconcileInterval (manifestAnnotations manifest))) ->
               In l logs).
Proof.
  unfold NewResource, manifestAt, manifestAnnotations.
  destruct (nth_error (Slice_Resources slice) index) as [resource|]; [|discriminate].
  destruct (UnmarshalJSON (Manifest_Manifest resource)) as [parsed0|e|m] eqn:Hu;
    try discriminate.
  destruct (_ || _ || _); [discriminate|].
  destruct (parsePatch _ _) as [[gvk' patch]|e|m]; try discriminate.
  destruct (parseReconcileInterval _) as [logs1 interval] eqn:Hi.
  destruct (parseReadinessGroup _) as [logs2 group].
  destruct (parseReadinessChecks _) as [logs3 checks].
  intros E. inversion E; subst. clear E.
  exists (Manifest_Manifest resource), parsed0. simpl.
  rewrite Hu, Hi. simpl.
  repeat split; try reflexivity.
  intros l Hl. apply in_or_app. left. exact Hl.
Qed.

(** C5, as the code has it. A reconcile-interval annotation that does not
    parse as a duration does not make the parser fail and is logged unless
    it is empty, but the interval of the resource is then set, to the zero
    duration: line 298 assigns it whether or not the parse succeeded. *)
Theorem NewResource_invalid_interval_sets_zero :
  forall (slice : ResourceSlice) (index : nat) (manifest str : string)
         (logs : list string) (res : Resource),
    manifestAt slice index = Some manifest ->
    m_get reconcileIntervalKey (manifestAnnotations manifest) = Some str ->
    (forall d, ParseDuration str <> Ok d) ->
    NewResource slice index = (logs, Ok res) ->
    ReconcileInterval res = Some 0%Z /\
    (str <> EmptyString -> In "invalid reconcile interval - ignoring" logs).
Proof.
  intros slice index manifest str logs res Hm Ha Hbad Hnew.
  apply NewResource_Ok_inv in Hnew.
  destruct Hnew as (manifest' & parsed0 & Hm' & _ & _ & _ & Hint & Hlogs).
  rewrite Hm in Hm'. inversion Hm'; subst manifest'. clear Hm'.
  unfold parseReconcileInterval in Hint, Hlogs. rewrite Ha in Hint, Hlogs.
  destruct (ParseDuration str) as [d|e|m] eqn:Hd.
  - exfalso. exact (Hbad d eq_refl).
  - simpl in *. split; [exact Hint|].
    intros Hne. apply Hlogs.
    destruct (String.eqb str EmptyString) eqn:E.
    + apply String.eqb_eq in E. contradiction.
    + simpl. left. reflexivity.
  - simpl in *. split; [exact Hint|].
    intros Hne. apply Hlogs.
    destruct (String.eqb str EmptyString) eqn:E.
    + apply String.eqb_eq in E. contradiction.
    + simpl. left. reflexivity.
Qed.

(** Without the annotation the interval stays unset. *)
Lemma NewResource_without_interval :
  forall slice index manifest logs res,
    manifestAt slice index = Some manifest ->
    m_get reconcileIntervalKey (manifestAnnotations manifest) = None ->
    NewResource slice index = (logs, Ok res) ->
    ReconcileInterval res = None.
Proof.
  intros slice index manifest logs res Hm Ha Hnew.
  apply NewResource_Ok_inv in Hnew.
  destruct Hnew as (manifest' & parsed0 & Hm' & _ & _ & _ & Hint & _).
  rewrite Hm in Hm'. inversion Hm'; subst manifest'.
  unfold parseReconcileInterval in Hint. rewrite Ha in Hint. exact Hint.
Qed.

(** C6, as the code has it. [NewResource] removes [status] and
    [metadata.creationTimestamp] from the object it interns, so two manifests
    that differ in nothing else give resources with the same interned object,
    in which neither field is found; [ManifestHash] is the FNV-64 digest of
    the manifest text as it was received, taken before anything is
    removed. *)
Theorem NewResource_prunes_value_not_hash :
  forall (slice1 slice2 : ResourceSlice) (i1 i2 : nat) (m1 m2 : string)
         (logs1 logs2 : list string) (r1 r2 : Resource),
    manifestAt slice1 i1 = Some m1 ->
    manifestAt slice2 i2 = Some m2 ->
    sameButStatusAndCreation m1 m2 ->
    NewResource slice1 i1 = (logs1, Ok r1) ->
    NewResource slice2 i2 = (logs2, Ok r2) ->
    value r1 = value r2 /\
    found (value r1) ["status"] = false /\
    found (value r1) ["metadata"; "creationTimestamp"] = false /\
    ManifestHash r1 = fnv64 m1 /\
    ManifestHash r2 = fnv64 m2.
Proof.
  intros slice1 slice2 i1 i2 m1 m2 logs1 logs2 r1 r2 Hm1 Hm2 Hsame Hn1 Hn2.
  apply NewResource_Ok_inv in Hn1. apply NewResource_Ok_inv in Hn2.
  destruct Hn1 as (m1' & p1 & Hm1' & Hu1 & Hh1 & Hv1 & _).
  destruct Hn2 as (m2' & p2 & Hm2' & Hu2 & Hh2 & Hv2 & _).
  rewrite Hm1 in Hm1'. inversion Hm1'; subst m1'.
  rewrite Hm2 in Hm2'. inversion Hm2'; subst m2'.
  destruct Hsame as (o1 & o2 & Ho1 & Ho2 & Heq).
  rewrite Hu1 in Ho1. inversion Ho1; subst o1.
  rewrite Hu2 in Ho2. inversion Ho2; subst o2.
  rewrite Hv1, Hv2, Heq.
  repeat split; try assumption.
  - apply interned_has_no_status.
  - apply interned_has_no_creationTimestamp.
Qed.

End ParserProperties.

(** ** The reconstituter *)

Section ReconstituterProperties.
Import apiv1 reconstitution.
Context {cachelib : Cache} {store : Client}.

Lemma populateCache_started (r : reconstituter) (comp : Composition)
  (synthesis : option Synthesis) :
  started (fst (populateCache r comp synthesis)) = started r.
Proof.
  unfold populateCache.
  destruct synthesis as [s|]; [|reflexivity].
  destruct (ResourceSliceCount s) as [count|]; [|reflexivity].
  destruct (HasSynthesis _ _ _); [reflexivity|].
  destruct (client_List _ _) as [items|e|m]; try reflexivity.
  destruct (negb _); [reflexivity|].
  destruct (Fill _ _ _ _) as [c [reqs|e|m]]; reflexivity.
Qed.

Lemma Reconcile_started (r : reconstituter) (req : NamespacedName) :
  started (fst (Reconcile r req)) = true.
Proof.
  unfold Reconcile.
  destruct (client_Get req) as [comp|e|m]; try reflexivity.
  - set (r0 := mkReconstituter (r_cache r) (queues r) true).
    pose proof (populateCache_started r0 comp (PreviousState comp)) as H1.
    destruct (populateCache r0 comp (PreviousState comp)) as [r1 [u|e|m]];
      simpl in H1; try exact H1.
    pose proof (populateCache_started r1 comp (CurrentState comp)) as H2.
    destruct (populateCache r1 comp (CurrentState comp)) as [r2 [u'|e|m]];
      simpl in H2; simpl; rewrite H2; exact H1.
  - destruct (IsNotFound e); reflexivity.
Qed.

Lemma reconcileAll_started (reqs : list NamespacedName) (r : reconstituter) :
  reqs <> [] -> started (reconcileAll r reqs) = true.
Proof.
  unfold reconcileAll.
  assert (Hkeep : forall l r0, started r0 = true ->
            started (fold_left (fun r1 req => fst (Reconcile r1 req)) l r0) = true).
  { induction l as [|req l IH]; intros r0 Hr0; simpl; [exact Hr0|].
    apply IH. apply Reconcile_started. }
  destruct reqs as [|req reqs]; [intros F; contradiction|].
  intros _. simpl. apply Hkeep. apply Reconcile_started.
Qed.

(** Requests reach the queues only out of a [Fill] that was given as many
    slices as the synthesis recorded and that succeeded. *)
Lemma populateCache_enqueues_after_Fill (r : reconstituter) (comp : Composition)
  (synthesis : option Synthesis) :
  queues (fst (populateCache r comp synthesis)) <> queues r ->
  exists s count items c reqs,
    synthesis = Some s /\
    ResourceSliceCount s = Some count /\
    listedSlices comp s = Ok items /\
    Z.of_nat (length items) = count /\
    Fill (r_cache r) (mkNSN (Namespace comp) (Name comp)) s items = (c, Ok reqs) /\
    populateCache r comp synthesis
    = (mkReconstituter c (enqueue (queues r) reqs) (started r), Ok tt).
Proof.
  unfold populateCache, listedSlices.
  destruct synthesis as [s|]; [|intros F; contradiction F; reflexivity].
  destruct (ResourceSliceCount s) as [count|] eqn:Hc;
    [|intros F; contradiction F; reflexivity].
  destruct (HasSynthesis _ _ _); [intros F; contradiction F; reflexivity|].
  destruct (client_List _ _) as [items|e|m] eqn:Hl;
    try (intros F; contradiction F; reflexivity).
  destruct (Z.eqb (Z.of_nat (length items)) count) eqn:Hn; simpl;
    [|intros F; contradiction F; reflexivity].
  apply Z.eqb_eq in Hn.
  destruct (Fill _ _ _ _) as [c [reqs|e|m]] eqn:Hf;
    try (intros F; contradiction F; reflexivity).
  intros _. exists s, count, items, c, reqs. repeat split; assumption.
Qed.

(** C7. A synthesis whose listed slices are not as many as it recorded is
    left for a later pass: [populateCache] succeeds, the cache and the
    subscriber queues stay as they were; and whenever it does put requests
    on the queues, it is after [Fill] went through all the recorded slices
    of the synthesis. *)
Theorem populateCache_defers_when_stale :
  forall (r : reconstituter) (comp : Composition) (synthesis : Synthesis)
         (count : Z) (items : list ResourceSlice),
    ResourceSliceCount synthesis = Some count ->
    listedSlices comp synthesis = Ok items ->
    Z.of_nat (length items) <> count ->
    populateCache r comp (Some synthesis) = (r, Ok tt) /\
    (forall (r0 : reconstituter) (any_synthesis : option Synthesis),
        queues (fst (populateCache r0 comp any_synthesis)) <> queues r0 ->
        exists s n slices c reqs,
          any_synthesis = Some s /\
          ResourceSliceCount s = Some n /\
          listedSlices comp s = Ok slices /\
          Z.of_nat (length slices) = n /\
          Fill (r_cache r0) (mkNSN (Namespace comp) (Name comp)) s slices
          = (c, Ok reqs) /\
          populateCache r0 comp any_synthesis
          = (mkReconstituter c (enqueue (queues r0) reqs) (started r0), Ok tt)).
Proof.
  intros r comp synthesis count items Hc Hl Hn. split.
  - unfold populateCache. unfold listedSlices in Hl. rewrite Hc.
    destruct (HasSynthesis _ _ _); [reflexivity|].
    rewrite Hl.
    destruct (Z.eqb (Z.of_nat (length items)) count) eqn:E; [|reflexivity].
    apply Z.eqb_eq in E. contradiction.
  - intros r0 any_synthesis. apply populateCache_enqueues_after_Fill.
Qed.

(** C9. A queue is registered only before the first reconcile pass: on a
    reconstituter that has not reconciled yet [AddQueue] appends the queue,
    and after one pass or more it panics. *)
Theorem AddQueue_only_before_Reconcile :
  forall (r : reconstituter) (reqs : list NamespacedName) (queue : Queue),
    (started r = false ->
     AddQueue r queue = Ok (mkReconstituter (r_cache r) (queues r ++ [queue]) false)) /\
    (reqs <> [] ->
     AddQueue (reconcileAll r reqs) queue
     = Panic "AddQueue must be called before any resources are reconciled").
Proof.
  intros r reqs queue. unfold AddQueue. split.
  - intros Hs. rewrite Hs. reflexivity.
  - intros Hne. rewrite (reconcileAll_started reqs r Hne). reflexivity.
Qed.

End ReconstituterProperties.

(** ** The slice controller *)

Section SliceControllerProperties.
Import apiv1 synthesis.
Context {store : Client} {methods : CompositionMethods}.

Lemma checkSlices_writes (comp : Composition) (refs : list ResourceSliceRef) :
  fst (checkSlices comp refs) = [] \/
  fst (checkSlices comp refs) = [setPendingResynthesis comp Now].
Proof.
  induction refs as [|ref refs IH]; simpl; [left; reflexivity|].
  destruct (GetResourceSlice _) as [slice|e|m]; [exact IH| |left; reflexivity].
  destruct (IsNotFound e).
  - right. destruct (StatusUpdate _) as [u|e'|m]; reflexivity.
  - destruct (IgnoreNotFound e); [left; reflexivity|exact IH].
Qed.

Lemma checkSlices_missing (comp : Composition) (refs : list ResourceSliceRef) :
  (forall ref, In ref refs -> sliceAnswered comp ref) ->
  (exists ref, In ref refs /\ sliceMissing comp ref) ->
  fst (checkSlices comp refs) = [setPendingResynthesis comp Now].
Proof.
  induction refs as [|ref refs IH]; intros Hans [missing [Hin Hmiss]].
  - destruct Hin.
  - simpl.
    destruct (GetResourceSlice (mkNSN (Namespace comp) (SliceRef_Name ref)))
      as [slice|e|m] eqn:Hget.
    + apply IH.
      * intros ref' Hin'. apply Hans. right. exact Hin'.
      * destruct Hin as [Heq|Hin].
        -- subst missing. destruct Hmiss as (e & He & _).
           rewrite Hget in He. discriminate.
        -- exists missing. split; assumption.
    + destruct (Hans ref (or_introl eq_refl)) as [[slice Hs]|(e' & He' & Hnf)].
      * rewrite Hget in Hs. discriminate.
      * rewrite Hget in He'. inversion He'; subst e'. rewrite Hnf.
        destruct (StatusUpdate _) as [u|e''|m]; reflexivity.
    + destruct (Hans ref (or_introl eq_refl)) as [[slice Hs]|(e' & He' & _)].
      * rewrite Hget in Hs. discriminate.
      * rewrite Hget in He'. discriminate.
Qed.

(** One pass sends at most one status update, and it is the one that sets
    [PendingResynthesis] to the time of the pass. *)
Lemma Reconcile_writes (req : NamespacedName) :
  fst (Reconcile req) = [] \/
  exists comp, GetComposition req = Ok comp /\
               fst (Reconcile req) = [setPendingResynthesis comp Now].
Proof.
  unfold Reconcile.
  destruct (GetComposition req) as [comp|e|m]; try (left; reflexivity).
  destruct (GetSynthesizer _) as [syn|e|m]; try (left; reflexivity).
  destruct (NotEligibleForResynthesis comp syn); [left; reflexivity|].
  destruct (CurrentSynthesis (Status comp)) as [current|]; [|left; reflexivity].
  destruct (checkSlices_writes comp (ResourceSlices current)) as [E|E].
  - left. exact E.
  - right. exists comp. split; [reflexivity|exact E].
Qed.

(** C8. For a composition that is eligible for resynthesis, if a slice
    that its current synthesis refers to is not found in the store (the
    store answering each lookup of a referenced slice), the pass sends the
    status update that sets [PendingResynthesis] to the time of the pass, and
    that is its only write; a pass never sends more than one write; and for
    a composition that is not eligible it sends none. *)
Theorem sliceController_forces_resynthesis :
  forall (req : NamespacedName) (comp : Composition) (syn : Synthesizer),
    GetComposition req = Ok comp ->
    GetSynthesizer (Spec_Synthesizer_Name comp) = Ok syn ->
    (NotEligibleForResynthesis comp syn = false ->
     forall current,
       CurrentSynthesis (Status comp) = Some current ->
       (forall ref, In ref (ResourceSlices current) -> sliceAnswered comp ref) ->
       (exists ref, In ref (ResourceSlices current) /\ sliceMissing comp ref) ->
       fst (Reconcile req) = [setPendingResynthesis comp Now] /\
       PendingResynthesis (Status (setPendingResynthesis comp Now)) = Some Now) /\
    (NotEligibleForResynthesis comp syn = true ->
     Reconcile req = ([], Ok Result0)) /\
    (length (fst (Reconcile req)) <= 1)%nat.
Proof.
  intros req comp syn Hcomp Hsyn. split; [|split].
  - intros Hel current Hcur Hans Hmiss. split; [|reflexivity].
    unfold Reconcile. rewrite Hcomp, Hsyn, Hel, Hcur.
    apply checkSlices_missing; assumption.
  - intros Hnot. unfold Reconcile. rewrite Hcomp, Hsyn, Hnot. reflexivity.
  - destruct (Reconcile_writes req) as [E|(c & _ & E)]; rewrite E; simpl; lia.
Qed.

End SliceControllerProperties.

(* ================================================================= *)
(** * The properties on concrete inputs

    The reference libraries satisfy what the theorems above ask of a
    library, and the functions run on the manifests of the tests. *)

Section ReferenceSMD.
Import refimpl.

Lemma found_nil (v : any) : found v [] = true.
Proof. reflexivity. Qed.

Lemma found_cons (v : any) (k : string) (rest : list string) :
  found v (k :: rest) =
  match v with
  | VMap m => match m_get k m with Some c => found c rest | None => false end
  | _ => false
  end.
Proof.
  unfold found. simpl.
  destruct v as [| | | | | |m]; try reflexivity.
  destruct (m_get k m); reflexivity.
Qed.

Lemma found_putOrDrop (m : object) (k k' : string) (child : any) (p : list string) :
  found (putOrDrop m k child) (k' :: p) =
  if String.eqb k' k
  then match child with VMap [] => false | _ => found child p end
  else found (VMap m) (k' :: p).
Proof.
  destruct (String.eqb k' k) eqn:E.
  - apply String.eqb_eq in E. subst k'.
    destruct child as [| | | | | |[|kv c]]; unfold putOrDrop; rewrite found_cons;
      rewrite ?m_get_set_same, ?m_get_delete_same; reflexivity.
  - destruct child as [| | | | | |[|kv c]]; unfold putOrDrop; rewrite !found_cons;
      rewrite ?(m_get_set_other _ _ _ _ E), ?(m_get_delete_other _ _ _ E); reflexivity.
Qed.

Lemma removePath_below (m : object) (k k2 : string) (rest : path) :
  removePath (VMap m) (k :: k2 :: rest) =
  match m_get k m with
  | Some child => putOrDrop m k (removePath child (k2 :: rest))
  | None => VMap m
  end.
Proof. reflexivity. Qed.

Lemma found_removePath_same (p : path) :
  forall v, p <> [] -> found (removePath v p) p = false.
Proof.
  induction p as [|k rest IH]; intros v Hne; [contradiction|].
  destruct v as [| | | | | |m]; try (simpl; rewrite found_cons; reflexivity).
  destruct rest as [|k2 rest'].
  - simpl. rewrite found_cons, m_get_delete_same. reflexivity.
  - rewrite removePath_below.
    destruct (m_get k m) as [child|] eqn:E.
    + rewrite found_putOrDrop, String.eqb_refl.
      assert (Hc : found (removePath child (k2 :: rest')) (k2 :: rest') = false)
        by (apply IH; discriminate).
      destruct (removePath child (k2 :: rest')) as [| | | | | |[|kv c]];
        try exact Hc; reflexivity.
    + rewrite found_cons, E. reflexivity.
Qed.

Lemma found_removePath_mono (q : path) :
  forall v p, found v p = false -> found (removePath v q) p = false.
Proof.
  induction q as [|k rest IH]; intros v p Hf; [exact Hf|].
  destruct v as [| | | | | |m]; try exact Hf.
  destruct p as [|k' p']; [rewrite found_nil in Hf; discriminate|].
  rewrite found_cons in Hf.
  destruct rest as [|k2 rest'].
  - simpl. rewrite found_cons.
    destruct (String.eqb k' k) eqn:E.
    + apply String.eqb_eq in E. subst k'. rewrite m_get_delete_same. reflexivity.
    + rewrite (m_get_delete_other _ _ _ E). exact Hf.
  - rewrite removePath_below.
    destruct (m_get k m) as [child|] eqn:Em.
    + rewrite found_putOrDrop.
      destruct (String.eqb k' k) eqn:E.
      * apply String.eqb_eq in E. subst k'. rewrite Em in Hf.
        pose proof (IH child p' Hf) as Hc.
        destruct (removePath child (k2 :: rest')) as [| | | | | |[|kv c]];
          try exact Hc; reflexivity.
      * rewrite found_cons. exact Hf.
    + rewrite found_cons. exact Hf.
Qed.

Lemma found_smd_remove_mono (s : list path) :
  forall v p, found v p = false -> found (smd_remove v s) p = false.
Proof.
  unfold smd_remove.
  induction s as [|q s IH]; intros v p Hf; simpl; [exact Hf|].
  apply IH. apply found_removePath_mono. exact Hf.
Qed.

Lemma path_eqb_eq (a b : path) : path_eqb a b = true -> a = b.
Proof.
  unfold path_eqb. destruct (list_eq_dec string_dec a b); [trivial|discriminate].
Qed.

(** The reference [RemoveItems] removes what it is given. *)
Lemma reference_RemoveItems_removes : @RemoveItems_removes refimpl.smd.
Proof.
  unfold RemoveItems_removes. simpl. unfold smd_remove.
  intros v s. revert v.
  induction s as [|q s IH]; intros v p Hne Hin; simpl in Hin; [discriminate|].
  simpl. apply orb_true_iff in Hin. destruct Hin as [Heq|Hin].
  - apply path_eqb_eq in Heq. subst q.
    apply (found_smd_remove_mono s). apply found_removePath_same. exact Hne.
  - apply IH; assumption.
Qed.

End ReferenceSMD.

Section OnExamples.
Import refimpl examples resource.

(** The resources of the examples are what [NewResource] makes of their
    manifests, and the live objects what the decoder makes of their text. *)
Lemma examples_are_parsed :
  resourceOf newManifest = Ok newState /\
  resourceOf oldManifest = Ok oldState /\
  resourceOf deletionPatchManifest = Ok deletionPatch /\
  resourceOf dataPatchManifest = Ok dataPatch /\
  UnmarshalJSON liveText = Ok live /\
  UnmarshalJSON convergedText = Ok liveConverged /\
  UnmarshalJSON plainManifest = Ok liveConfigMap.
Proof. repeat split; vm_compute; reflexivity. Qed.

(** The deployments of [TestMergeBasics]: once the live object carries the
    new state, [Merge] has nothing to write, with and without a schema. *)
Lemma Merge_skips_when_converged_witness :
  (exists typed,
      mergePath newState deploymentGetter = Some typed /\
      Merge newState (Some oldState) liveConverged deploymentGetter = Ok (None, typed))
  /\
  (exists typed,
      mergePath newState untypedGetter = Some typed /\
      Merge newState (Some oldState) liveConverged untypedGetter = Ok (None, typed)).
Proof.
  split.
  - apply (Merge_skips_when_converged newState (Some oldState) liveConverged
             deploymentGetter).
    unfold converged. simpl Get. cbv iota beta.
    eexists. eexists. split; [vm_compute; reflexivity|].
    split; vm_compute; reflexivity.
  - apply (Merge_skips_when_converged newState (Some oldState) liveConverged
             untypedGetter).
    unfold converged. simpl Get. cbv iota beta.
    eexists. split; vm_compute; reflexivity.
Defined.

(** C2 fails on the code: with a resolver whose lookup fails, [Merge]
    returns the error, although the schema-free merge of the same three
    objects succeeds and has an object to write. *)
Lemma Merge_lookup_failure_does_not_fall_back :
  Get failingGetter (GVK newState) = Err (OtherError "discovery unavailable") /\
  Merge newState (Some oldState) live failingGetter
  = Err (Wrapped "looking up schema" (OtherError "discovery unavailable")) /\
  Merge newState (Some oldState) live failingGetter
  <> mergeUntyped newState (Some oldState) live /\
  (exists u, mergeUntyped newState (Some oldState) live = Ok (Some u, false)).
Proof.
  split; [reflexivity|]. split; [reflexivity|]. split.
  - vm_compute. discriminate.
  - eexists. vm_compute. reflexivity.
Qed.

Lemma Merge_lookup_failure_is_returned_witness :
  Merge newState (Some oldState) live failingGetter
  = Err (Wrapped "looking up schema" (OtherError "discovery unavailable")) /\
  Merge newState (Some oldState) live untypedGetter
  = mergeUntyped newState (Some oldState) live.
Proof.
  split.
  - apply (proj1 (Merge_lookup_failure_is_returned newState (Some oldState) live
                    failingGetter)).
    reflexivity.
  - apply (proj2 (Merge_lookup_failure_is_returned newState (Some oldState) live
                    untypedGetter) tt).
    reflexivity.
Defined.

(** Scenario S6 on the deployments of [TestMergeBasics]: the old state set
    [spec.strategy.type], the new one does not mention it, and the object
    that [Merge] returns has no such field, while the live object had. *)
Lemma Merge_typed_prunes_removed_witness :
  found (VMap (Object live)) ["spec"; "strategy"; "type"] = true /\
  exists u,
    Merge newState (Some oldState) live deploymentGetter = Ok (Some u, true) /\
    found (VMap (Object u)) ["spec"; "strategy"; "type"] = false /\
    found (VMap (Object u)) ["spec"; "replicas"] = true.
Proof.
  split; [reflexivity|].
  destruct (Merge_typed_prunes_removed (smd := refimpl.smd)
              newState oldState live deploymentGetter
              "io.k8s.api.apps.v1.Deployment" tt
              (smd_merge (VMap (Object live)) (value newState))
              (value oldState)
              (@mkComparison refimpl.smd
                 (fst (fst (smd_compare [] (value oldState) (value newState))))
                 (snd (fst (smd_compare [] (value oldState) (value newState))))
                 (snd (smd_compare [] (value oldState) (value newState))))
              eq_refl eq_refl eq_refl eq_refl reference_RemoveItems_removes)
    as (_ & HM & Hu).
  eexists. split; [vm_compute; reflexivity|].
  split; [|reflexivity].
  refine (proj2 (proj2 (Hu _ true _)) ["spec"; "strategy"; "type"] _ _).
  - vm_compute. reflexivity.
  - discriminate.
  - vm_compute. reflexivity.
Defined.

(** The deletion patch of [TestNewResource] makes its resource deleted,
    whatever the composition. *)
Lemma Deleted_iff_witness :
  Deleted deletionPatch someComposition = true /\
  Deleted dataPatch someComposition = false.
Proof.
  split; [|reflexivity].
  apply (proj2 (Deleted_iff deletionPatch someComposition)).
  right. right. eexists. split; [reflexivity|].
  unfold setsDeletionTimestamp. eexists. eexists.
  split; [vm_compute; reflexivity|].
  split; [vm_compute; reflexivity|].
  vm_compute. discriminate.
Defined.

(** A patch that adds data to a config map without data needs to be
    applied. *)
Lemma NeedsToBePatched_total_witness :
  NeedsToBePatched dataPatch (Some liveConfigMap) = true /\
  NeedsToBePatched dataPatch None = false /\
  NeedsToBePatched plainResource (Some liveConfigMap) = false.
Proof.
  split; [|split].
  - apply (proj2 (proj2 (proj2 (proj2
             (NeedsToBePatched_total dataPatch (Some liveConfigMap)))))).
    eexists. eexists. split; [reflexivity|]. split; [reflexivity|].
    unfold patchChanges. eexists. eexists. eexists.
    split; [vm_compute; reflexivity|].
    split; [vm_compute; reflexivity|].
    split; vm_compute; reflexivity.
  - apply (proj1 (proj2 (NeedsToBePatched_total dataPatch None))). reflexivity.
  - apply (proj1 (NeedsToBePatched_total plainResource (Some liveConfigMap))).
    reflexivity.
Defined.

(** The config map whose reconcile interval is [bogus]: the parser
    succeeds and logs, and the interval of the resource is set to zero. *)
Lemma NewResource_invalid_interval_witness :
  NewResource (sliceOf badIntervalManifest) 0
  = (["invalid reconcile interval - ignoring"], Ok badIntervalResource) /\
  ReconcileInterval badIntervalResource = Some 0%Z /\
  In "invalid reconcile interval - ignoring" ["invalid reconcile interval - ignoring"].
Proof.
  assert (Hnew : NewResource (sliceOf badIntervalManifest) 0
                 = (["invalid reconcile interval - ignoring"], Ok badIntervalResource))
    by (vm_compute; reflexivity).
  split; [exact Hnew|].
  destruct (NewResource_invalid_interval_sets_zero
              (sliceOf badIntervalManifest) 0 badIntervalManifest "bogus"
              ["invalid reconcile interval - ignoring"] badIntervalResource)
    as [Hzero Hlog].
  - reflexivity.
  - vm_compute. reflexivity.
  - intros d. vm_compute. discriminate.
  - exact Hnew.
  - split; [exact Hzero|]. apply Hlog. discriminate.
Defined.

(** The same config map without the annotation: the interval is unset, and
    nothing else distinguishes the two resources but the hash of their
    text. *)
Lemma invalid_interval_differs_from_absent :
  NewResource (sliceOf plainManifest) 0 = ([], Ok plainResource) /\
  ReconcileInterval plainResource = None /\
  ReconcileInterval badIntervalResource <> ReconcileInterval plainResource /\
  value badIntervalResource = value plainResource.
Proof.
  split; [vm_compute; reflexivity|].
  split; [reflexivity|]. split; [discriminate|reflexivity].
Qed.

(** C6 fails on the code: two config maps that differ only in an empty
    [status] and a null [metadata.creationTimestamp] get different
    hashes. *)
Lemma status_changes_ManifestHash :
  sameButStatusAndCreation plainManifest statusManifest /\
  NewResource (sliceOf plainManifest) 0 = ([], Ok plainResource) /\
  NewResource (sliceOf statusManifest) 0 = ([], Ok statusResource) /\
  ManifestHash plainResource <> ManifestHash statusResource.
Proof.
  split; [|split; [|split]].
  - unfold sameButStatusAndCreation. eexists. eexists.
    split; [vm_compute; reflexivity|]. split; vm_compute; reflexivity.
  - vm_compute. reflexivity.
  - vm_compute. reflexivity.
  - vm_compute. discriminate.
Qed.

Lemma NewResource_prunes_value_not_hash_witness :
  value plainResource = value statusResource /\
  found (value statusResource) ["status"] = false /\
  found (value statusResource) ["metadata"; "creationTimestamp"] = false /\
  ManifestHash plainResource = fnv64 plainManifest /\
  ManifestHash statusResource = fnv64 statusManifest.
Proof.
  destruct (NewResource_prunes_value_not_hash
              (sliceOf statusManifest) (sliceOf plainManifest) 0 0
              statusManifest plainManifest [] [] statusResource plainResource)
    as (Hv & Hs & Hc & Hh1 & Hh2).
  - reflexivity.
  - reflexivity.
  - unfold sameButStatusAndCreation. eexists. eexists.
    split; [vm_compute; reflexivity|]. split; vm_compute; reflexivity.
  - vm_compute. reflexivity.
  - vm_compute. reflexivity.
  - exact (conj (eq_sym Hv) (conj Hs (conj Hc (conj Hh2 Hh1)))).
Defined.

(** The current synthesis recorded two slices and one is listed: nothing
    is filled, nothing is enqueued. *)
Lemma populateCache_defers_when_stale_witness :
  reconstitution.populateCache freshReconstituter staleComposition
    (reconstitution.CurrentState staleComposition)
  = (freshReconstituter, Ok tt).
Proof.
  refine (proj1 (populateCache_defers_when_stale freshReconstituter staleComposition
                   (reconstitution.mkSynthesis 2%Z (Some 2%Z)) 2%Z
                   [sliceOf plainManifest] _ _ _)).
  - reflexivity.
  - reflexivity.
  - vm_compute. discriminate.
Defined.

(** The previous synthesis recorded one slice, which is listed: the cache
    is filled and the one request goes to the queue. *)
Lemma populateCache_fills_when_complete :
  reconstitution.populateCache freshReconstituter staleComposition
    (reconstitution.PreviousState staleComposition)
  = (reconstitution.mkReconstituter [1%Z] [[("slice", 0)]] false, Ok tt).
Proof. vm_compute. reflexivity. Qed.

(** After one pass over the store, a queue is refused. *)
Lemma AddQueue_only_before_Reconcile_witness :
  reconstitution.AddQueue freshReconstituter []
  = Ok (reconstitution.mkReconstituter [] [[]; []] false) /\
  reconstitution.AddQueue
    (reconcileAll freshReconstituter [apiv1.mkNSN "default" "comp"]) []
  = Panic "AddQueue must be called before any resources are reconciled".
Proof.
  split.
  - apply (proj1 (AddQueue_only_before_Reconcile freshReconstituter [] [])).
    reflexivity.
  - apply (proj2 (AddQueue_only_before_Reconcile freshReconstituter
                    [apiv1.mkNSN "default" "comp"] [])).
    discriminate.
Defined.

(** The slice [b] is gone while the composition still refers to it: the
    pass sets [PendingResynthesis], once. *)
Lemma sliceController_forces_resynthesis_witness :
  fst (synthesis.Reconcile (apiv1.mkNSN "default" "comp"))
  = [synthesis.setPendingResynthesis referringComposition 1000%Z] /\
  (length (fst (synthesis.Reconcile (apiv1.mkNSN "default" "comp"))) <= 1)%nat.
Proof.
  assert (Hcomp : synthesis.GetComposition (apiv1.mkNSN "default" "comp")
                  = Ok referringComposition) by reflexivity.
  assert (Hsyn : synthesis.GetSynthesizer
                   (apiv1.Spec_Synthesizer_Name referringComposition)
                 = Ok (apiv1.mkSynthesizer "synth" 1%Z)) by reflexivity.
  destruct (sliceController_forces_resynthesis (apiv1.mkNSN "default" "comp")
              referringComposition (apiv1.mkSynthesizer "synth" 1%Z)
              Hcomp Hsyn) as (Hforce & _ & Hone).
  split; [|exact Hone].
  assert (Hel : apiv1.NotEligibleForResynthesis referringComposition
                  (apiv1.mkSynthesizer "synth" 1%Z) = false) by reflexivity.
  refine (proj1 (Hforce Hel _ eq_refl _ _)).
  - intros ref [E|[E|[]]]; subst ref.
    + left. eexists. reflexivity.
    + right. eexists. split; reflexivity.
  - exists (apiv1.mkSliceRef "b"). split; [right; left; reflexivity|].
    eexists. split; reflexivity.
Defined.

End OnExamples.

(* ================================================================= *)
(** * Further properties of the parser *)

Section PruningFacts.

Lemma NestedFieldNoCopy_one (o : object) (a : string) :
  NestedFieldNoCopy (VMap o) [a] =
  match m_get a o with
  | Some v => (v, true, None)
  | None => (VNil, false, None)
  end.
Proof. reflexivity. Qed.

Lemma NestedFieldNoCopy_two (o : object) (a c : string) :
  NestedFieldNoCopy (VMap o) [a; c] =
  match m_get a o with
  | Some v => NestedFieldNoCopy v [c]
  | None => (VNil, false, None)
  end.
Proof. reflexivity. Qed.

Lemma NestedFieldNoCopy_cons (o : object) (a : string) (rest : list string) :
  NestedFieldNoCopy (VMap o) (a :: rest) =
  match m_get a o with
  | Some v => NestedFieldNoCopy v rest
  | None => (VNil, false, None)
  end.
Proof. reflexivity. Qed.

Lemma NestedFieldNoCopy_delete_other (o : object) (s a : string) (rest : list string) :
  String.eqb a s = false ->
  NestedFieldNoCopy (VMap (m_delete s o)) (a :: rest)
  = NestedFieldNoCopy (VMap o) (a :: rest).
Proof.
  intros Hne. rewrite !NestedFieldNoCopy_cons.
  rewrite (m_get_delete_other _ _ _ Hne). reflexivity.
Qed.

Lemma NestedFieldNoCopy_Remove_top (o : object) (s a k : string) (rest : list string) :
  String.eqb s a = false ->
  NestedFieldNoCopy (VMap (RemoveNestedField o [a; k])) (s :: rest)
  = NestedFieldNoCopy (VMap o) (s :: rest).
Proof.
  intros Hne. rewrite !NestedFieldNoCopy_cons.
  rewrite (m_get_RemoveNestedField_other _ _ _ _ Hne). reflexivity.
Qed.

Lemma NestedFieldNoCopy_Remove_other (o : object) (a k c : string) :
  String.eqb c k = false ->
  NestedFieldNoCopy (VMap (RemoveNestedField o [a; k])) [a; c]
  = NestedFieldNoCopy (VMap o) [a; c].
Proof.
  intros Hne. rewrite !NestedFieldNoCopy_two, RemoveNestedField_two.
  destruct (m_get a o) as [[| | | | | |x]|] eqn:E; rewrite ?E; try reflexivity.
  rewrite m_get_set_same. simpl.
  rewrite (m_get_delete_other _ _ _ Hne). reflexivity.
Qed.

Lemma NestedFieldNoCopy_Remove_same (o : object) (a k : string) :
  fst (fst (NestedFieldNoCopy (VMap (RemoveNestedField o [a; k])) [a; k])) = VNil.
Proof.
  rewrite NestedFieldNoCopy_two, RemoveNestedField_two.
  destruct (m_get a o) as [[| | | | | |x]|] eqn:E; rewrite ?E; try reflexivity.
  rewrite m_get_set_same. simpl. rewrite m_get_delete_same. reflexivity.
Qed.

Lemma NestedFieldNoCopy_set_other (o : object) (v : any) (a k c : string) :
  String.eqb c k = false ->
  NestedFieldNoCopy (VMap (setNestedFieldNoCopy o v [a; k])) [a; c]
  = NestedFieldNoCopy (VMap o) [a; c].
Proof.
  intros Hne. rewrite !NestedFieldNoCopy_two, setNestedFieldNoCopy_two.
  destruct (m_get a o) as [[| | | | | |x]|] eqn:E; rewrite ?E; try reflexivity.
  - rewrite m_get_set_same. simpl.
    rewrite (m_get_set_other _ _ _ _ Hne). reflexivity.
  - rewrite m_get_set_same. simpl. rewrite Hne. reflexivity.
Qed.

Lemma NestedFieldNoCopy_set_same (o : object) (v : any) (a k : string) (x : object) :
  m_get a o = Some (VMap x) ->
  NestedFieldNoCopy (VMap (setNestedFieldNoCopy o v [a; k])) [a; k] = (v, true, None).
Proof.
  intros E. rewrite NestedFieldNoCopy_two, setNestedFieldNoCopy_two, E.
  rewrite m_get_set_same. simpl. rewrite m_get_set_same. reflexivity.
Qed.

Lemma toStringMap_map (l : list (string * string)) :
  toStringMap (map (fun kv => (fst kv, VString (snd kv))) l) = Some l.
Proof.
  induction l as [|[k v] l IH]; simpl; [reflexivity|]. rewrite IH. reflexivity.
Qed.

(** Reading a string map gives a map only below an object. *)
Lemma NestedStringMap_Some (o : object) (a k : string) (l : list (string * string)) :
  fst (fst (NestedStringMap o [a; k])) = Some l ->
  exists x, m_get a o = Some (VMap x).
Proof.
  unfold NestedStringMap. rewrite NestedFieldNoCopy_two.
  destruct (m_get a o) as [[| | | | | |x]|]; simpl; try discriminate.
  intros _. exists x. reflexivity.
Qed.

End PruningFacts.

Section MoreParserProperties.
Import resource apiv1.
Context {json : JSONCodec} {gostd : GoStd} {readiness : ReadinessLib}.

(** Pruning status and creation time leaves the identity, the labels and
    the annotations of the object as they are. *)
Lemma prune_keeps_top (u : Unstructured) (a : string) :
  String.eqb a "status" = false -> String.eqb a "metadata" = false ->
  NestedFieldNoCopy (VMap (Object (pruneStatusAndCreation u))) [a]
  = NestedFieldNoCopy (VMap (Object u)) [a].
Proof.
  intros Hs Hm. unfold pruneStatusAndCreation, SetCreationTimestampZero.
  cbn [Object].
  rewrite NestedFieldNoCopy_Remove_top by exact Hm.
  apply NestedFieldNoCopy_delete_other. exact Hs.
Qed.

Lemma prune_keeps_metadata (u : Unstructured) (c : string) :
  String.eqb c "creationTimestamp" = false ->
  NestedFieldNoCopy (VMap (Object (pruneStatusAndCreation u))) ["metadata"; c]
  = NestedFieldNoCopy (VMap (Object u)) ["metadata"; c].
Proof.
  intros Hc. unfold pruneStatusAndCreation, SetCreationTimestampZero.
  cbn [Object].
  rewrite NestedFieldNoCopy_Remove_other by exact Hc.
  apply NestedFieldNoCopy_delete_other. reflexivity.
Qed.

Lemma prune_keeps_identity (u : Unstructured) :
  GetName (pruneStatusAndCreation u) = GetName u /\
  GetNamespace (pruneStatusAndCreation u) = GetNamespace u /\
  GetKind (pruneStatusAndCreation u) = GetKind u /\
  GetAPIVersion (pruneStatusAndCreation u) = GetAPIVersion u /\
  GetLabels (pruneStatusAndCreation u) = GetLabels u /\
  GetAnnotations (pruneStatusAndCreation u) = GetAnnotations u.
Proof.
  unfold GetName, GetNamespace, GetKind, GetAPIVersion, GetLabels, GetAnnotations,
    getNestedString, NestedString, NestedStringMap.
  rewrite !prune_keeps_metadata by reflexivity.
  rewrite !prune_keeps_top by reflexivity.
  repeat split; reflexivity.
Qed.

Lemma prune_keeps_GroupVersionKind (u : Unstructured) :
  GroupVersionKindOf (pruneStatusAndCreation u) = GroupVersionKindOf u.
Proof.
  unfold GroupVersionKindOf.
  destruct (prune_keeps_identity u) as (_ & _ & Hk & Ha & _).
  rewrite Hk, Ha. reflexivity.
Qed.

(** Every field of a resource that [NewResource] returns, and its log. *)
Lemma NewResource_Ok_fields (slice : ResourceSlice) (index : nat)
  (logs : list string) (res : Resource) :
  NewResource slice index = (logs, Ok res) ->
  exists resource parsed0 gvk patch,
    nth_error (Slice_Resources slice) index = Some resource /\
    UnmarshalJSON (Manifest_Manifest resource) = Ok parsed0 /\
    GetName parsed0 <> EmptyString /\
    GetKind parsed0 <> EmptyString /\
    GetAPIVersion parsed0 <> EmptyString /\
    parsePatch (Manifest_Manifest resource) (GroupVersionKindOf parsed0)
    = Ok (gvk, patch) /\
    let parsed := pruneStatusAndCreation parsed0 in
    let anno := manifestAnnotations (Manifest_Manifest resource) in
    logs = fst (parseReconcileInterval anno) ++ fst (parseReadinessGroup anno)
           ++ fst (parseReadinessChecks anno) /\
    res = mkResource
            (mkRef (GetName parsed0) (GetNamespace parsed0)
                   (GVK_Group (GroupVersionKindOf parsed0)) (GetKind parsed0))
            (Manifest_Deleted resource)
            (mkManifestRef (mkNSN (Slice_Namespace slice) (Slice_Name slice)) index)
            (fnv64 (Manifest_Manifest resource))
            (snd (parseReconcileInterval anno))
            gvk
            (sortChecks (snd (parseReadinessChecks anno)))
            patch
            (String.eqb (strmap_index (Some anno) disableUpdatesKey) "true")
            (snd (parseReadinessGroup anno))
            (GetLabels parsed0)
            (definedGroupKind gvk parsed)
            (VMap (Object (pruneEnoMetadata parsed))).
Proof.
  unfold NewResource, manifestAnnotations.
  destruct (nth_error (Slice_Resources slice) index) as [resource|]; [|discriminate].
  destruct (UnmarshalJSON (Manifest_Manifest resource)) as [parsed0|e|m] eqn:Hu;
    try discriminate.
  rewrite prune_keeps_GroupVersionKind.
  destruct (prune_keeps_identity parsed0) as (Hn & Hns & Hk & Ha & Hl & Han).
  rewrite Hn, Hns, Hk, Ha, Hl. cbn [Ref_Name Ref_Kind].
  destruct (String.eqb (GetName parsed0) EmptyString) eqn:En; [discriminate|].
  destruct (String.eqb (GetKind parsed0) EmptyString) eqn:Ek; [discriminate|].
  destruct (String.eqb (GetAPIVersion parsed0) EmptyString) eqn:Ea; [discriminate|].
  cbn [orb].
  destruct (parsePatch _ _) as [[gvk' patch]|e|m] eqn:Hp; try discriminate.
  destruct (parseReconcileInterval _) as [logs1 interval] eqn:Hi.
  destruct (parseReadinessGroup _) as [logs2 group] eqn:Hg.
  destruct (parseReadinessChecks _) as [logs3 checks] eqn:Hc.
  intros E. inversion E; subst. clear E.
  exists resource, parsed0, gvk', patch.
  apply String.eqb_neq in En, Ek, Ea.
  cbv zeta. rewrite Hu, Hi, Hg, Hc. cbn [fst snd].
  repeat split; try assumption; try reflexivity.
Qed.

(** X1. [NewResource] succeeds exactly on a position that the slice has and
    whose manifest is accepted: it decodes, has a name, a kind and an API
    version and, for a Patch, a patch member that decodes.  The values of
    the annotations never make it fail. *)
Theorem NewResource_succeeds_iff :
  forall (slice : ResourceSlice) (index : nat),
    (exists logs res, NewResource slice index = (logs, Ok res)) <->
    (exists manifest,
        manifestAt slice index = Some manifest /\ manifestAccepted manifest).
Proof.
  intros slice index. split.
  - intros (logs & res & Hnew).
    apply NewResource_Ok_fields in Hnew.
    destruct Hnew as (resource & parsed0 & gvk & patch & Hn & Hu & Hname & Hkind
                      & Hapi & Hp & _).
    exists (Manifest_Manifest resource). split.
    + unfold manifestAt. rewrite Hn. reflexivity.
    + exists parsed0. repeat split; try assumption. exists gvk, patch. exact Hp.
  - intros (manifest & Hm & parsed0 & Hu & Hname & Hkind & Hapi & gvk & patch & Hp).
    unfold manifestAt in Hm. unfold NewResource.
    destruct (nth_error (Slice_Resources slice) index) as [resource|]; [|discriminate].
    simpl in Hm. inversion Hm; subst manifest. rewrite Hu.
    rewrite prune_keeps_GroupVersionKind.
    destruct (prune_keeps_identity parsed0) as (Hn & _ & Hk & Ha & _).
    rewrite Hn, Hk, Ha. cbn [Ref_Name Ref_Kind].
    apply String.eqb_neq in Hname, Hkind, Hapi.
    rewrite Hname, Hkind, Hapi, Hp. cbn [orb].
    destruct (parseReconcileInterval _) as [logs1 interval].
    destruct (parseReadinessGroup _) as [logs2 group].
    destruct (parseReadinessChecks _) as [logs3 checks].
    eexists. eexists. reflexivity.
Qed.

End MoreParserProperties.

Section ResourceIdentity.
Import resource apiv1.
Context {json : JSONCodec} {gostd : GoStd} {readiness : ReadinessLib}.

(** X2. The identity of a parsed resource is the one its manifest states:
    name, namespace and kind as the decoded object has them, the group of
    its API version, never an empty name or kind; the resource remembers
    the slice and position it came from and the deletion flag of its
    manifest. *)
Theorem NewResource_identity :
  forall (slice : ResourceSlice) (index : nat) (logs : list string) (res : Resource),
    NewResource slice index = (logs, Ok res) ->
    exists resource parsed0,
      nth_error (Slice_Resources slice) index = Some resource /\
      UnmarshalJSON (Manifest_Manifest resource) = Ok parsed0 /\
      rRef res = mkRef (GetName parsed0) (GetNamespace parsed0)
                       (GVK_Group (GroupVersionKindOf parsed0)) (GetKind parsed0) /\
      Ref_Name (rRef res) <> EmptyString /\
      Ref_Kind (rRef res) <> EmptyString /\
      rManifestRef res
      = mkManifestRef (mkNSN (Slice_Namespace slice) (Slice_Name slice)) index /\
      ManifestDeleted res = Manifest_Deleted resource.
Proof.
  intros slice index logs res Hnew.
  apply NewResource_Ok_fields in Hnew.
  destruct Hnew as (resource & parsed0 & gvk & patch & Hn & Hu & Hname & Hkind
                    & _ & _ & _ & Hres).
  exists resource, parsed0. subst res. cbn.
  repeat split; assumption.
Qed.

Lemma GVK_eqb_eq (a b : GroupVersionKind) : GVK_eqb a b = true -> a = b.
Proof.
  unfold GVK_eqb. destruct a as [g v k], b as [g' v' k']. cbn.
  rewrite !andb_true_iff, !String.eqb_eq. intros [[-> ->] ->]. reflexivity.
Qed.

Lemma GroupVersionKindOf_Patch (u : Unstructured) :
  GroupVersionKindOf u = patchGVK ->
  GetKind u = "Patch" /\ GVK_Group (GroupVersionKindOf u) = "eno.azure.io".
Proof.
  intros E. rewrite E. split; [|reflexivity].
  unfold GroupVersionKindOf in E.
  destruct (ParseGroupVersion (GetAPIVersion u)) as [gv|e|m];
    inversion E; reflexivity.
Qed.

(** X3. Only a manifest of kind Patch in [eno.azure.io] gives a resource
    with a patch.  Such a resource keeps the identity of the Patch object
    itself, while its operations, and the kind and API version that its
    [GVK] reports, come from the patch member of the manifest; any other
    resource has no patch and reports the group, version and kind of its
    manifest. *)
Theorem NewResource_patch_only_from_Patch :
  forall (slice : ResourceSlice) (index : nat) (logs : list string) (res : Resource),
    NewResource slice index = (logs, Ok res) ->
    exists manifest parsed0,
      manifestAt slice index = Some manifest /\
      UnmarshalJSON manifest = Ok parsed0 /\
      (GroupVersionKindOf parsed0 = patchGVK ->
       Ref_Group (rRef res) = "eno.azure.io" /\
       Ref_Kind (rRef res) = "Patch" /\
       exists obj gv,
         json_Unmarshal_patch manifest = Ok obj /\
         ParseGroupVersion (pm_APIVersion obj) = Ok gv /\
         GVK res = mkGVK (GV_Group gv) (GV_Version gv) (pm_Kind obj) /\
         Patch res = pm_Ops obj) /\
      (GroupVersionKindOf parsed0 <> patchGVK ->
       Patch res = None /\ GVK res = GroupVersionKindOf parsed0).
Proof.
  intros slice index logs res Hnew.
  apply NewResource_Ok_fields in Hnew.
  destruct Hnew as (resource & parsed0 & gvk & patch & Hn & Hu & _ & _ & _ & Hp
                    & _ & Hres).
  exists (Manifest_Manifest resource), parsed0.
  split; [unfold manifestAt; rewrite Hn; reflexivity|].
  split; [exact Hu|].
  subst res. cbn [rRef Ref_Group Ref_Kind GVK Patch].
  unfold parsePatch in Hp. split.
  - intros Hgvk. destruct (GroupVersionKindOf_Patch parsed0 Hgvk) as [Hk Hg].
    split; [exact Hg|]. split; [exact Hk|].
    rewrite Hgvk in Hp. cbn [GVK_eqb patchGVK] in Hp.
    replace (GVK_eqb patchGVK patchGVK) with true in Hp by reflexivity.
    destruct (json_Unmarshal_patch (Manifest_Manifest resource)) as [obj|e|m];
      try discriminate.
    cbn in Hp.
    destruct (ParseGroupVersion (pm_APIVersion obj)) as [gv|e|m] eqn:Hgv;
      try discriminate.
    cbn in Hp. inversion Hp; subst.
    exists obj, gv. repeat split; assumption.
  - intros Hne.
    destruct (GVK_eqb (GroupVersionKindOf parsed0) patchGVK) eqn:E.
    + apply GVK_eqb_eq in E. contradiction.
    + inversion Hp; subst. split; reflexivity.
Qed.

End ResourceIdentity.

Section PruneMetadataProperties.
Import resource.

Lemma pruneMetadata_Some (m : strmap) (l : list (string * string)) :
  pruneMetadata m = Some l ->
  l <> [] /\
  exists l0, m = Some l0 /\
             l = m_DeleteFunc (fun key _ => String.prefix "eno.azure.io/" key) l0.
Proof.
  unfold pruneMetadata. destruct m as [l0|]; [|discriminate].
  destruct (m_DeleteFunc _ l0) as [|kv rest] eqn:E; [discriminate|].
  intros H. inversion H; subst. split; [discriminate|].
  exists l0. split; [reflexivity|]. symmetry. exact E.
Qed.

(** X4. [pruneMetadata] keeps exactly the entries whose key is not under
    [eno.azure.io/], each with its value; it gives the nil map exactly when
    no such entry is left; and pruning twice is pruning once. *)
Theorem pruneMetadata_keeps_the_rest :
  forall (m : strmap),
    (forall k v,
        (exists l, pruneMetadata m = Some l /\ In (k, v) l) <->
        (exists l0, m = Some l0 /\ In (k, v) l0 /\
                    String.prefix "eno.azure.io/" k = false)) /\
    (pruneMetadata m = None <->
     forall l0 k v, m = Some l0 -> In (k, v) l0 ->
                    String.prefix "eno.azure.io/" k = true) /\
    pruneMetadata (pruneMetadata m) = pruneMetadata m.
Proof.
  intros m. split; [|split].
  - intros k v. split.
    + intros (l & Hl & Hin). apply pruneMetadata_Some in Hl.
      destruct Hl as (_ & l0 & -> & ->).
      unfold m_DeleteFunc in Hin. apply filter_In in Hin. destruct Hin as [Hin Hp].
      exists l0. repeat split; [exact Hin|]. cbn in Hp.
      apply negb_true_iff in Hp. exact Hp.
    + intros (l0 & -> & Hin & Hp). unfold pruneMetadata.
      assert (Hin' : In (k, v)
                (m_DeleteFunc (fun key _ => String.prefix "eno.azure.io/" key) l0)).
      { unfold m_DeleteFunc. apply filter_In. split; [exact Hin|].
        cbn. rewrite Hp. reflexivity. }
      destruct (m_DeleteFunc _ l0) as [|kv rest] eqn:E; [destruct Hin'|].
      eexists. split; [reflexivity|exact Hin'].
  - split.
    + intros Hnone l0 k v -> Hin.
      destruct (String.prefix "eno.azure.io/" k) eqn:Hp; [reflexivity|].
      exfalso. unfold pruneMetadata in Hnone.
      assert (Hin' : In (k, v)
                (m_DeleteFunc (fun key _ => String.prefix "eno.azure.io/" key) l0)).
      { unfold m_DeleteFunc. apply filter_In. split; [exact Hin|].
        cbn. rewrite Hp. reflexivity. }
      destruct (m_DeleteFunc _ l0) as [|kv rest]; [destruct Hin'|discriminate].
    + intros Hall. unfold pruneMetadata. destruct m as [l0|]; [|reflexivity].
      destruct (m_DeleteFunc _ l0) as [|[k v] rest] eqn:E; [reflexivity|].
      exfalso.
      assert (Hin : In (k, v)
                (m_DeleteFunc (fun key _ => String.prefix "eno.azure.io/" key) l0))
        by (rewrite E; left; reflexivity).
      unfold m_DeleteFunc in Hin. apply filter_In in Hin. destruct Hin as [Hin Hp].
      cbn in Hp. rewrite (Hall l0 k v eq_refl Hin) in Hp. discriminate.
  - destruct (pruneMetadata m) as [l|] eqn:E; [|reflexivity].
    apply pruneMetadata_Some in E. destruct E as (Hne & l0 & -> & ->).
    unfold pruneMetadata, m_DeleteFunc.
    assert (Hid : forall l1 : list (string * string),
               filter (fun kv => negb (String.prefix "eno.azure.io/" (fst kv)))
                 (filter (fun kv => negb (String.prefix "eno.azure.io/" (fst kv))) l1)
               = filter (fun kv => negb (String.prefix "eno.azure.io/" (fst kv))) l1).
    { induction l1 as [|kv l1 IH]; [reflexivity|]. cbn.
      destruct (negb (String.prefix "eno.azure.io/" (fst kv))) eqn:Ekv; cbn.
      - rewrite Ekv, IH. reflexivity.
      - exact IH. }
    rewrite Hid. unfold m_DeleteFunc in Hne.
    destruct (filter _ l0) as [|kv rest]; [contradiction|reflexivity].
Qed.

End PruneMetadataProperties.

Section InternedMetadata.
Import resource apiv1.
Context {json : JSONCodec} {gostd : GoStd} {readiness : ReadinessLib}.

(** Reading back the string map that [setNestedMap] wrote. *)
Lemma NestedStringMap_after_set (u : Unstructured) (m : strmap) (k : string) :
  (forall l, m = Some l -> exists x, m_get "metadata" (Object u) = Some (VMap x)) ->
  fst (fst (NestedStringMap (Object (setNestedMap u m ["metadata"; k]))
              ["metadata"; k])) = m.
Proof.
  intros Hmap. destruct m as [l|]; cbn [setNestedMap Object].
  - destruct (Hmap l eq_refl) as [x Hx].
    unfold NestedStringMap, SetNestedStringMap.
    rewrite (NestedFieldNoCopy_set_same _ _ _ _ x Hx).
    rewrite toStringMap_map. reflexivity.
  - unfold NestedStringMap.
    rewrite NestedFieldNoCopy_two, RemoveNestedField_two.
    destruct (m_get "metadata" (Object u)) as [[| | | | | |x]|] eqn:E;
      rewrite ?E; try reflexivity.
    rewrite m_get_set_same. rewrite NestedFieldNoCopy_cons.
    rewrite m_get_delete_same. reflexivity.
Qed.

Lemma NestedStringMap_after_set_other (u : Unstructured) (m : strmap) (k c : string) :
  String.eqb c k = false ->
  NestedStringMap (Object (setNestedMap u m ["metadata"; k])) ["metadata"; c]
  = NestedStringMap (Object u) ["metadata"; c].
Proof.
  intros Hne. unfold NestedStringMap.
  destruct m as [l|]; cbn [setNestedMap Object].
  - unfold SetNestedStringMap.
    rewrite (NestedFieldNoCopy_set_other _ _ _ _ _ Hne). reflexivity.
  - rewrite (NestedFieldNoCopy_Remove_other _ _ _ _ Hne). reflexivity.
Qed.

Lemma pruneMetadata_of_map (u : Unstructured) (k : string) (l : list (string * string)) :
  pruneMetadata (fst (fst (NestedStringMap (Object u) ["metadata"; k]))) = Some l ->
  exists x, m_get "metadata" (Object u) = Some (VMap x).
Proof.
  intros Hp. apply pruneMetadata_Some in Hp. destruct Hp as (_ & l0 & Hl0 & _).
  apply (NestedStringMap_Some _ _ _ _ Hl0).
Qed.

(** The annotations and labels of the object after [pruneEnoMetadata]. *)
Lemma pruneEnoMetadata_annotations (u : Unstructured) :
  GetAnnotations (pruneEnoMetadata u) = pruneMetadata (GetAnnotations u).
Proof.
  unfold pruneEnoMetadata, GetAnnotations, SetLabels at 1.
  rewrite NestedStringMap_after_set_other by reflexivity.
  unfold SetAnnotations. apply NestedStringMap_after_set.
  intros l Hl. apply (pruneMetadata_of_map u "annotations" l Hl).
Qed.

Lemma pruneEnoMetadata_labels (u : Unstructured) :
  GetLabels (pruneEnoMetadata u) = pruneMetadata (GetLabels u).
Proof.
  unfold pruneEnoMetadata.
  set (u1 := SetAnnotations u (pruneMetadata (GetAnnotations u))).
  assert (H1 : GetLabels u1 = GetLabels u).
  { unfold GetLabels, u1, SetAnnotations.
    rewrite NestedStringMap_after_set_other by reflexivity. reflexivity. }
  rewrite <- H1. unfold GetLabels at 1, SetLabels.
  apply NestedStringMap_after_set.
  intros l Hl. apply (pruneMetadata_of_map u1 "labels" l Hl).
Qed.

(** X5. The object that a resource is interned from carries the
    annotations and the labels of its manifest less those under
    [eno.azure.io/] (none at all when nothing else is left), while the
    [Labels] of the resource are all the labels of the manifest. *)
Theorem NewResource_interns_pruned_metadata :
  forall (slice : ResourceSlice) (index : nat) (logs : list string) (res : Resource),
    NewResource slice index = (logs, Ok res) ->
    exists manifest parsed0 obj,
      manifestAt slice index = Some manifest /\
      UnmarshalJSON manifest = Ok parsed0 /\
      value res = VMap obj /\
      GetAnnotations (mkUnstructured obj) = pruneMetadata (GetAnnotations parsed0) /\
      GetLabels (mkUnstructured obj) = pruneMetadata (GetLabels parsed0) /\
      Labels res = GetLabels parsed0.
Proof.
  intros slice index logs res Hnew.
  apply NewResource_Ok_fields in Hnew.
  destruct Hnew as (resource & parsed0 & gvk & patch & Hn & Hu & _ & _ & _ & _
                    & _ & Hres).
  exists (Manifest_Manifest resource), parsed0,
    (Object (pruneEnoMetadata (pruneStatusAndCreation parsed0))).
  split; [unfold manifestAt; rewrite Hn; reflexivity|].
  split; [exact Hu|].
  subst res. cbn [value Labels].
  destruct (prune_keeps_identity parsed0) as (_ & _ & _ & _ & Hl & Ha).
  split; [reflexivity|].
  assert (Hmk : forall u, mkUnstructured (Object u) = u) by (intros [o]; reflexivity).
  rewrite Hmk, pruneEnoMetadata_annotations, pruneEnoMetadata_labels, Hl, Ha.
  repeat split; reflexivity.
Qed.

End InternedMetadata.

(* ================================================================= *)
(** * Sorting by name *)

Section SortFacts.
Context {A : Type} (key : A -> string).

Lemma ltb_asym (a b : string) : String.ltb a b = true -> String.ltb b a = false.
Proof.
  unfold String.ltb. rewrite (String.compare_antisym a b).
  destruct (String.compare b a); simpl; intros E; try discriminate; reflexivity.
Qed.

Lemma insertBy_perm (x : A) (l : list A) : Permutation (insertBy key x l) (x :: l).
Proof.
  induction l as [|y l IH]; simpl; [apply Permutation_refl|].
  destruct (String.ltb (key x) (key y)); [apply Permutation_refl|].
  eapply Permutation_trans; [apply perm_skip; exact IH|apply perm_swap].
Qed.

Lemma sortBy_perm (l : list A) : Permutation (sortBy key l) l.
Proof.
  unfold sortBy.
  assert (Hgen : forall l acc,
             Permutation (fold_left (fun acc x => insertBy key x acc) l acc)
                         (l ++ acc)).
  { clear l. induction l as [|x l IH]; intros acc; simpl; [apply Permutation_refl|].
    eapply Permutation_trans; [apply IH|].
    eapply Permutation_trans;
      [apply Permutation_app_head; apply insertBy_perm|].
    apply Permutation_sym. apply Permutation_middle. }
  specialize (Hgen l []). rewrite app_nil_r in Hgen. exact Hgen.
Qed.

Lemma insertBy_HdRel (x y : A) (l : list A) :
  String.ltb (key x) (key y) = false ->
  HdRel (fun a b => String.ltb (key b) (key a) = false) y l ->
  HdRel (fun a b => String.ltb (key b) (key a) = false) y (insertBy key x l).
Proof.
  intros Hxy Hhd. destruct l as [|z l]; simpl.
  - constructor. exact Hxy.
  - destruct (String.ltb (key x) (key z)).
    + constructor. exact Hxy.
    + constructor. inversion Hhd; assumption.
Qed.

Lemma insertBy_ordered (x : A) (l : list A) :
  orderedBy key l -> orderedBy key (insertBy key x l).
Proof.
  unfold orderedBy. induction l as [|y l IH]; intros Hs; simpl.
  - constructor; constructor.
  - destruct (String.ltb (key x) (key y)) eqn:E.
    + constructor; [exact Hs|]. constructor. apply ltb_asym. exact E.
    + inversion Hs as [|? ? Hs' Hhd]; subst.
      constructor; [apply IH; exact Hs'|].
      apply insertBy_HdRel; assumption.
Qed.

Lemma sortBy_ordered (l : list A) : orderedBy key (sortBy key l).
Proof.
  unfold sortBy.
  assert (Hgen : forall l acc, orderedBy key acc ->
             orderedBy key (fold_left (fun acc x => insertBy key x acc) l acc)).
  { clear l. induction l as [|x l IH]; intros acc Hacc; simpl; [exact Hacc|].
    apply IH. apply insertBy_ordered. exact Hacc. }
  apply Hgen. constructor.
Qed.

End SortFacts.

Section ReadinessProperties.
Import resource apiv1.
Context {json : JSONCodec} {gostd : GoStd} {readiness : ReadinessLib}.

Lemma sortChecks_sortBy (l : list readiness_Check) :
  sortChecks l = sortBy Check_Name l.
Proof.
  unfold sortChecks, sortBy.
  assert (Hins : forall c acc, insertCheck c acc = insertBy Check_Name c acc).
  { intros c acc. induction acc as [|x acc IH]; simpl; [reflexivity|].
    rewrite IH. reflexivity. }
  generalize (@nil readiness_Check) as acc.
  induction l as [|c l IH]; intros acc; simpl; [reflexivity|].
  rewrite Hins. apply IH.
Qed.

(** Where the checks that the parser collects come from. *)
Lemma parseReadinessChecks_In (anno : list (string * string)) (c : readiness_Check) :
  In c (snd (parseReadinessChecks anno)) ->
  exists key val parsed,
    In (key, val) anno /\
    String.prefix "eno.azure.io/readiness" key = true /\
    key <> readinessGroupKey /\
    ParseCheck val = Ok parsed /\
    c = mkCheck (readinessName key) (Check_program parsed).
Proof.
  induction anno as [|[key val] anno IH]; simpl; [intros []|].
  destruct (parseReadinessChecks anno) as [logs checks].
  destruct (String.prefix "eno.azure.io/readiness" key) eqn:Hp; simpl.
  - destruct (String.eqb key readinessGroupKey) eqn:Hg.
    + intros Hin. destruct (IH Hin) as (k & v & p & Hi & H').
      exists k, v, p. split; [right; exact Hi|exact H'].
    + destruct (ParseCheck val) as [parsed|e|m] eqn:Hc; simpl.
      * intros [Heq|Hin].
        -- exists key, val, parsed. apply String.eqb_neq in Hg.
           repeat split; try assumption; [left; reflexivity|symmetry; exact Heq].
        -- destruct (IH Hin) as (k & v & p & Hi & H').
           exists k, v, p. split; [right; exact Hi|exact H'].
      * intros Hin. destruct (IH Hin) as (k & v & p & Hi & H').
        exists k, v, p. split; [right; exact Hi|exact H'].
      * intros Hin. destruct (IH Hin) as (k & v & p & Hi & H').
        exists k, v, p. split; [right; exact Hi|exact H'].
  - intros Hin. destruct (IH Hin) as (k & v & p & Hi & H').
    exists k, v, p. split; [right; exact Hi|exact H'].
Qed.

(** X6. The readiness checks of a parsed resource are in the order of their
    names, and each of them comes from an annotation of the manifest whose
    key starts with [eno.azure.io/readiness], is not the readiness-group key
    and whose value compiles; the check is named after the key. *)
Theorem NewResource_checks_ordered :
  forall (slice : ResourceSlice) (index : nat) (logs : list string) (res : Resource),
    NewResource slice index = (logs, Ok res) ->
    orderedBy Check_Name (ReadinessChecks res) /\
    exists manifest,
      manifestAt slice index = Some manifest /\
      forall c, In c (ReadinessChecks res) ->
        exists key val parsed,
          In (key, val) (manifestAnnotations manifest) /\
          String.prefix "eno.azure.io/readiness" key = true /\
          key <> readinessGroupKey /\
          ParseCheck val = Ok parsed /\
          c = mkCheck (readinessName key) (Check_program parsed).
Proof.
  intros slice index logs res Hnew.
  apply NewResource_Ok_fields in Hnew.
  destruct Hnew as (resource & parsed0 & gvk & patch & Hn & Hu & _ & _ & _ & _
                    & _ & Hres).
  subst res. cbn [ReadinessChecks]. rewrite sortChecks_sortBy. split.
  - apply sortBy_ordered.
  - exists (Manifest_Manifest resource).
    split; [unfold manifestAt; rewrite Hn; reflexivity|].
    intros c Hin. apply parseReadinessChecks_In.
    apply (Permutation_in c (sortBy_perm Check_Name _)). exact Hin.
Qed.

End ReadinessProperties.

Section ReadinessNames.
Import resource.







End ReadinessNames.

Section PolicyAnnotations.
Import resource apiv1.
Context {json : JSONCodec} {gostd : GoStd} {readiness : ReadinessLib}.

(** X8. The policy that the annotations of a manifest set on its resource.
    A readiness group that is an integer is taken; one that is not leaves
    the group at 0 and is logged, as does no annotation at all, without a
    log.  A reconcile interval that parses is the interval of the resource.
    Updates are disabled exactly when the annotation is the string [true]. *)
Theorem NewResource_policy_annotations :
  forall (slice : ResourceSlice) (index : nat) (manifest : string)
         (logs : list string) (res : Resource),
    manifestAt slice index = Some manifest ->
    NewResource slice index = (logs, Ok res) ->
    (forall str n,
        m_get readinessGroupKey (manifestAnnotations manifest) = Some str ->
        Atoi str = Ok n -> ReadinessGroup res = n) /\
    (forall str,
        m_get readinessGroupKey (manifestAnnotations manifest) = Some str ->
        (forall n, Atoi str <> Ok n) ->
        ReadinessGroup res = 0%Z /\ In "invalid readiness group - ignoring" logs) /\
    (m_get readinessGroupKey (manifestAnnotations manifest) = None ->
     ReadinessGroup res = 0%Z) /\
    (forall str d,
        m_get reconcileIntervalKey (manifestAnnotations manifest) = Some str ->
        ParseDuration str = Ok d -> ReconcileInterval res = Some d) /\
    (DisableUpdates res = true <->
     m_get disableUpdatesKey (manifestAnnotations manifest) = Some "true").
Proof.
  intros slice index manifest logs res Hm Hnew.
  apply NewResource_Ok_fields in Hnew.
  destruct Hnew as (resource & parsed0 & gvk & patch & Hn & _ & _ & _ & _ & _
                    & Hlogs & Hres).
  unfold manifestAt in Hm. rewrite Hn in Hm. simpl in Hm. inversion Hm; subst manifest.
  subst res. cbn [ReadinessGroup ReconcileInterval DisableUpdates].
  split; [|split; [|split; [|split]]].
  - intros str n Ha Hi. unfold parseReadinessGroup. rewrite Ha, Hi. reflexivity.
  - intros str Ha Hbad. rewrite Hlogs. unfold parseReadinessGroup. rewrite Ha.
    destruct (Atoi str) as [n|e|m] eqn:Hi.
    + exfalso. exact (Hbad n eq_refl).
    + split; [reflexivity|]. apply in_or_app. right. apply in_or_app. left.
      left. reflexivity.
    + split; [reflexivity|]. apply in_or_app. right. apply in_or_app. left.
      left. reflexivity.
  - intros Ha. unfold parseReadinessGroup. rewrite Ha. reflexivity.
  - intros str d Ha Hd. unfold parseReconcileInterval. rewrite Ha, Hd. reflexivity.
  - unfold strmap_index.
    destruct (m_get disableUpdatesKey (manifestAnnotations (Manifest_Manifest resource)))
      as [v|]; rewrite String.eqb_eq; split.
    + intros ->. reflexivity.
    + intros E. inversion E. reflexivity.
    + discriminate.
    + discriminate.
Qed.

End PolicyAnnotations.

(* ================================================================= *)
(** * The order of conflicting resources *)

Section LessProperties.
Import resource.

Lemma bytes_Compare_refl (a : list Z) : bytes_Compare a a = Eq.
Proof.
  induction a as [|x a IH]; simpl; [reflexivity|].
  rewrite Z.compare_refl. exact IH.
Qed.

Lemma bytes_Compare_eq (a : list Z) : forall b, bytes_Compare a b = Eq -> a = b.
Proof.
  induction a as [|x a IH]; intros [|y b]; simpl; try discriminate; [reflexivity|].
  destruct (Z.compare x y) eqn:E; try discriminate.
  intros H. apply Z.compare_eq in E. subst y. rewrite (IH b H). reflexivity.
Qed.

Lemma bytes_Compare_antisym (a : list Z) :
  forall b, bytes_Compare b a = CompOpp (bytes_Compare a b).
Proof.
  induction a as [|x a IH]; intros [|y b]; simpl; try reflexivity.
  rewrite (Z.compare_antisym x y).
  destruct (Z.compare x y); simpl; try reflexivity. apply IH.
Qed.

Lemma bytes_Compare_trans (a : list Z) :
  forall b c, bytes_Compare a b = Lt -> bytes_Compare b c = Lt ->
              bytes_Compare a c = Lt.
Proof.
  induction a as [|x a IH]; intros [|y b] [|z c]; simpl; try discriminate;
    try reflexivity.
  destruct (Z.compare x y) eqn:Exy; try discriminate;
    destruct (Z.compare y z) eqn:Eyz; try discriminate; intros H1 H2.
  - apply Z.compare_eq in Exy, Eyz. subst. rewrite Z.compare_refl.
    apply (IH b c H1 H2).
  - apply Z.compare_eq in Exy. subst. rewrite Eyz. reflexivity.
  - apply Z.compare_eq in Eyz. subst. rewrite Exy. reflexivity.
  - rewrite Z.compare_lt_iff in Exy, Eyz.
    assert (Hxz : (x < z)%Z) by lia.
    apply Z.compare_lt_iff in Hxz. rewrite Hxz. reflexivity.
Qed.

(** X9. [Less] is a strict total order on the hashes of the manifests: no
    resource is less than itself or than one with the same hash, two
    resources are never less than each other, the relation is transitive,
    and of two resources with different hashes one is less than the other. *)
Theorem Less_strict_total_order :
  (forall a b, ManifestHash a = ManifestHash b -> Less a b = false) /\
  (forall a b, Less a b = true -> Less b a = false) /\
  (forall a b c, Less a b = true -> Less b c = true -> Less a c = true) /\
  (forall a b, ManifestHash a <> ManifestHash b ->
               Less a b = true \/ Less b a = true).
Proof.
  unfold Less. split; [|split; [|split]].
  - intros a b E. rewrite E, bytes_Compare_refl. reflexivity.
  - intros a b H. rewrite (bytes_Compare_antisym (ManifestHash a) (ManifestHash b)).
    destruct (bytes_Compare (ManifestHash a) (ManifestHash b)); try discriminate.
    reflexivity.
  - intros a b c H1 H2.
    destruct (bytes_Compare (ManifestHash a) (ManifestHash b)) eqn:E1;
      try discriminate.
    destruct (bytes_Compare (ManifestHash b) (ManifestHash c)) eqn:E2;
      try discriminate.
    rewrite (bytes_Compare_trans _ _ _ E1 E2). reflexivity.
  - intros a b Hne.
    rewrite (bytes_Compare_antisym (ManifestHash a) (ManifestHash b)).
    destruct (bytes_Compare (ManifestHash a) (ManifestHash b)) eqn:E.
    + apply bytes_Compare_eq in E. contradiction.
    + left. reflexivity.
    + right. reflexivity.
Qed.

End LessProperties.

(* ================================================================= *)
(** * What [Merge] reports *)

Section MergeReports.
Import resource.
Context {json : JSONCodec} {jsonpatch : JSONPatchLib} {smd : SMD}.

(** X10. The flag that [Merge] returns with a result tells which path
    produced it: true with a type reference, false without.  An object
    returned by the schema-free path is the patched object, and it differs
    from the live one: [Merge] never hands back the live object unchanged. *)
Theorem Merge_reports_its_path :
  forall (r : Resource) (old : option Resource) (current : Unstructured)
         (sg : SchemaGetter) (result : option Unstructured) (typed : bool),
    Merge r old current sg = Ok (result, typed) ->
    mergePath r sg = Some typed /\
    (typed = false ->
     forall u, result = Some u ->
               patchedUntyped r old current = Ok u /\ DeepEqual current u = false).
Proof.
  intros r old current sg result typed. unfold Merge, mergePath.
  destruct (Get sg (GVK r)) as [[[typeref|] schem]|e|m]; try discriminate.
  - destruct (mergedTyped r old current schem typeref) as [merged|e|m];
      simpl; try discriminate.
    unfold finishTyped.
    assert (Hcopy : match tv_AsValue merged with
                    | VMap m => Ok (Some (mkUnstructured m), true)
                    | _ => Panic "interface conversion: interface {} is not map[string]interface {}"
                    end = Ok (result, typed) -> typed = true).
    { destruct (tv_AsValue merged); try discriminate.
      intros E. inversion E. reflexivity. }
    intros Hres.
    assert (Ht : typed = true).
    { destruct (Compare merged _) as [cmp|e|m]; try discriminate.
      - destruct (IsSame cmp); [inversion Hres; reflexivity|exact (Hcopy Hres)].
      - exact (Hcopy Hres). }
    subst typed. split; [reflexivity|discriminate].
  - unfold mergeUntyped.
    destruct (patchedUntyped r old current) as [patched|e|m]; simpl; try discriminate.
    destruct (DeepEqual current patched) eqn:Heq; intros E; inversion E; subst.
    + split; [reflexivity|]. intros _ u Hu. discriminate.
    + split; [reflexivity|]. intros _ u Hu. inversion Hu; subst. split; [reflexivity|exact Heq].
Qed.

End MergeReports.

(* ================================================================= *)
(** * Further properties of the reconstituter *)

Section QueueProperties.
Import apiv1 reconstitution.
Context {cachelib : Cache} {store : Client}.

Lemma enqueue_nil (qs : list Queue) : enqueue qs [] = qs.
Proof.
  unfold enqueue. induction qs as [|q qs IH]; simpl; [reflexivity|].
  rewrite app_nil_r, IH. reflexivity.
Qed.

Lemma enqueue_enqueue (qs : list Queue) (a b : list Request) :
  enqueue (enqueue qs a) b = enqueue qs (a ++ b).
Proof.
  unfold enqueue. rewrite map_map. apply map_ext.
  intros q. rewrite app_assoc. reflexivity.
Qed.

Lemma populateCache_queues (r : reconstituter) (comp : Composition)
  (synthesis : option Synthesis) :
  exists reqs,
    queues (fst (populateCache r comp synthesis)) = enqueue (queues r) reqs.
Proof.
  unfold populateCache.
  destruct synthesis as [s|]; [|exists []; symmetry; apply enqueue_nil].
  destruct (ResourceSliceCount s) as [count|];
    [|exists []; symmetry; apply enqueue_nil].
  destruct (HasSynthesis _ _ _); [exists []; symmetry; apply enqueue_nil|].
  destruct (client_List _ _) as [items|e|m];
    try (exists []; symmetry; apply enqueue_nil).
  destruct (negb _); [exists []; symmetry; apply enqueue_nil|].
  destruct (Fill _ _ _ _) as [c [reqs|e|m]]; simpl.
  - exists reqs. reflexivity.
  - exists []. symmetry. apply enqueue_nil.
  - exists []. symmetry. apply enqueue_nil.
Qed.

(** X11. A reconcile pass only adds to the subscriber queues: there are
    requests that every queue receives after what it already held, in the
    same order for all; no queue is added or dropped and nothing queued is
    taken back, whatever the outcome of the pass. *)
Theorem Reconcile_appends_to_every_queue :
  forall (r : reconstituter) (req : NamespacedName),
    exists reqs,
      queues (fst (Reconcile r req)) = map (fun q => q ++ reqs) (queues r).
Proof.
  intros r req. unfold Reconcile.
  set (r0 := mkReconstituter (r_cache r) (queues r) true).
  fold (enqueue (queues r)).
  destruct (client_Get req) as [comp|e|m].
  - destruct (populateCache_queues r0 comp (PreviousState comp)) as [reqs1 H1].
    destruct (populateCache r0 comp (PreviousState comp)) as [r1 [u|e|m]];
      simpl in H1; try (exists reqs1; exact H1).
    destruct (populateCache_queues r1 comp (CurrentState comp)) as [reqs2 H2].
    destruct (populateCache r1 comp (CurrentState comp)) as [r2 [u'|e|m]];
      simpl in H2; exists (reqs1 ++ reqs2); simpl;
      rewrite H2, H1; apply enqueue_enqueue.
  - exists []. destruct (IsNotFound e); simpl; symmetry; apply enqueue_nil.
  - exists []. simpl. symmetry. apply enqueue_nil.
Qed.

(** X12. With a cache that reports the syntheses it was filled with, a
    synthesis is enqueued once: when [populateCache] has succeeded for a
    synthesis, doing it again for the same synthesis changes nothing and
    puts nothing on the queues. *)
Theorem populateCache_enqueues_once :
  forall (r r' : reconstituter) (comp : Composition) (synthesis : option Synthesis),
    Fill_is_remembered ->
    populateCache r comp synthesis = (r', Ok tt) ->
    populateCache r' comp synthesis = (r', Ok tt).
Proof.
  intros r r' comp synthesis Hlaw. unfold populateCache.
  destruct synthesis as [s|]; [|intros E; inversion E; reflexivity].
  destruct (ResourceSliceCount s) as [count|]; [|intros E; inversion E; reflexivity].
  destruct (HasSynthesis (r_cache r) _ s) eqn:Hhas.
  - intros E. inversion E; subst r'. rewrite Hhas. reflexivity.
  - destruct (client_List _ _) as [items|e|m] eqn:Hl; try discriminate.
    destruct (negb _) eqn:Hn.
    + intros E. inversion E; subst r'. rewrite Hhas. reflexivity.
    + destruct (Fill _ _ _ _) as [c [reqs|e|m]] eqn:Hf; try discriminate.
      intros E. inversion E; subst r'. cbn [r_cache].
      rewrite (Hlaw _ _ _ _ _ _ Hf). reflexivity.
Qed.

End QueueProperties.

(* ================================================================= *)
(** * Further properties of the slice controller *)

Section SliceControllerSafety.
Import apiv1 synthesis.
Context {store : Client} {methods : CompositionMethods}.

Lemma checkSlices_write_means_missing (comp : Composition)
  (refs : list ResourceSliceRef) :
  fst (checkSlices comp refs) <> [] ->
  exists ref, In ref refs /\ sliceMissing comp ref.
Proof.
  induction refs as [|ref refs IH]; simpl; [intros F; contradiction|].
  destruct (GetResourceSlice (mkNSN (Namespace comp) (SliceRef_Name ref)))
    as [slice|e|m] eqn:Hget.
  - intros Hw. destruct (IH Hw) as (r & Hin & Hm). exists r. split; [right|]; assumption.
  - destruct (IsNotFound e) eqn:Hnf.
    + intros _. exists ref. split; [left; reflexivity|]. exists e. split; assumption.
    + destruct (IgnoreNotFound e).
      * intros F. contradiction.
      * intros Hw. destruct (IH Hw) as (r & Hin & Hm).
        exists r. split; [right|]; assumption.
  - intros F. contradiction.
Qed.

(** X13. The slice controller asks for a resynthesis only with cause: a
    pass that sends a status update has read the composition and its
    synthesizer, found the composition eligible, and met a slice of the
    current synthesis that the store does not have. *)
Theorem sliceController_writes_only_when_missing :
  forall (req : NamespacedName),
    fst (Reconcile req) <> [] ->
    exists comp syn current ref,
      GetComposition req = Ok comp /\
      GetSynthesizer (Spec_Synthesizer_Name comp) = Ok syn /\
      NotEligibleForResynthesis comp syn = false /\
      CurrentSynthesis (Status comp) = Some current /\
      In ref (ResourceSlices current) /\
      sliceMissing comp ref.
Proof.
  intros req. unfold Reconcile.
  destruct (GetComposition req) as [comp|e|m]; try (intros F; contradiction).
  destruct (GetSynthesizer _) as [syn|e|m] eqn:Hs; try (intros F; contradiction).
  destruct (NotEligibleForResynthesis comp syn) eqn:He; [intros F; contradiction|].
  destruct (CurrentSynthesis (Status comp)) as [current|] eqn:Hc;
    [|intros F; contradiction].
  intros Hw. destruct (checkSlices_write_means_missing comp _ Hw) as (ref & Hin & Hm).
  exists comp, syn, current, ref. repeat split; assumption.
Qed.

Lemma checkSlices_all_present (comp : Composition) (refs : list ResourceSliceRef) :
  (forall ref, In ref refs ->
     exists slice,
       GetResourceSlice (mkNSN (Namespace comp) (SliceRef_Name ref)) = Ok slice) ->
  checkSlices comp refs = ([], Ok Result0).
Proof.
  induction refs as [|ref refs IH]; intros Hall; simpl; [reflexivity|].
  destruct (Hall ref (or_introl eq_refl)) as [slice Hs]. rewrite Hs.
  apply IH. intros r Hin. apply Hall. right. exact Hin.
Qed.

(** X14. When the store has every slice that the current synthesis of an
    eligible composition refers to, the pass succeeds without writing. *)
Theorem sliceController_quiet_when_slices_exist :
  forall (req : NamespacedName) (comp : Composition) (syn : Synthesizer)
         (current : Synthesis),
    GetComposition req = Ok comp ->
    GetSynthesizer (Spec_Synthesizer_Name comp) = Ok syn ->
    NotEligibleForResynthesis comp syn = false ->
    CurrentSynthesis (Status comp) = Some current ->
    (forall ref, In ref (ResourceSlices current) ->
       exists slice,
         GetResourceSlice (mkNSN (Namespace comp) (SliceRef_Name ref)) = Ok slice) ->
    Reconcile req = ([], Ok Result0).
Proof.
  intros req comp syn current Hc Hs He Hcur Hall.
  unfold Reconcile. rewrite Hc, Hs, He, Hcur.
  apply checkSlices_all_present. exact Hall.
Qed.

(** X15. Of the events on resource slices only deletions reach the
    controller, and only for a slice that has a controller owner: the
    request then names that owner, in the namespace of the slice, and is the
    only one. *)
Theorem newSliceHandler_requests :
  forall (e : Event),
    newSliceHandler e = [] \/
    exists obj owner,
      e = DeleteEvent obj /\
      In owner (Object_OwnerReferences obj) /\
      Owner_Controller owner = Some true /\
      newSliceHandler e = [mkNSN (Object_Namespace obj) (Owner_Name owner)].
Proof.
  intros [obj|o n|obj|obj]; try (left; reflexivity).
  unfold newSliceHandler, apply, GetControllerOf.
  destruct (find _ (Object_OwnerReferences obj)) as [owner|] eqn:Hf;
    [|left; reflexivity].
  right. exists obj, owner. apply find_some in Hf. destruct Hf as [Hin Hc].
  repeat split; try assumption.
  destruct (Owner_Controller owner) as [[|]|]; try discriminate. reflexivity.
Qed.

End SliceControllerSafety.

(* ================================================================= *)
(** * The status of a symphony *)

Section AggregationProperties.
Import apiv1 aggregation.

Lemma maxValues_cons (comp : Composition) (comps : list Composition)
  (st : SymphonyStatus) :
  maxValues (comp :: comps) st
  = maxValues comps
      (match CurrentSynthesis (Status comp) with
       | None => st
       | Some cur =>
           mkSymphonyStatus (Symphony_ObservedGeneration st)
             (later (Symphony_Synthesized st) (Synthesized cur))
             (later (Symphony_Reconciled st) (Reconciled cur))
             (later (Symphony_Ready st) (Ready cur))
             (Symphony_Synthesizers st)
       end).
Proof. reflexivity. Qed.

Lemma maxValues_field (f : timeField) (comps : list Composition) :
  forall st,
    ofStatus f (maxValues comps st) = maxTime (ofSynthesis f) comps (ofStatus f st).
Proof.
  induction comps as [|comp comps IH]; intros st; [reflexivity|].
  rewrite maxValues_cons, IH. unfold maxTime at 2. simpl fold_left.
  fold (maxTime (ofSynthesis f) comps). f_equal.
  destruct (CurrentSynthesis (Status comp)); destruct f; reflexivity.
Qed.

Lemma maxValues_keeps (comps : list Composition) :
  forall st,
    Symphony_ObservedGeneration (maxValues comps st) = Symphony_ObservedGeneration st /\
    Symphony_Synthesizers (maxValues comps st) = Symphony_Synthesizers st.
Proof.
  induction comps as [|comp comps IH]; intros st; [split; reflexivity|].
  rewrite maxValues_cons.
  destruct (IH (match CurrentSynthesis (Status comp) with
                | None => st
                | Some cur =>
                    mkSymphonyStatus (Symphony_ObservedGeneration st)
                      (later (Symphony_Synthesized st) (Synthesized cur))
                      (later (Symphony_Reconciled st) (Reconciled cur))
                      (later (Symphony_Ready st) (Ready cur))
                      (Symphony_Synthesizers st)
                end)) as [Hg Hs].
  rewrite Hg, Hs. destruct (CurrentSynthesis (Status comp)); split; reflexivity.
Qed.

Lemma later_cases (acc t : option Time_) :
  later acc t
  = match acc, t with
    | None, _ => t
    | Some a, Some b => if Z.ltb a b then Some b else Some a
    | Some a, None => Some a
    end.
Proof.
  destruct acc as [a|], t as [b|]; unfold later, Before; try reflexivity.
  destruct (Z.ltb a b); reflexivity.
Qed.

Lemma maxTime_cons (field : Synthesis -> option Time_) (comp : Composition)
  (comps : list Composition) (acc : option Time_) :
  maxTime field (comp :: comps) acc
  = maxTime field comps
      (match CurrentSynthesis (Status comp) with
       | None => acc
       | Some cur => later acc (field cur)
       end).
Proof. reflexivity. Qed.

Lemma maxTime_sound (field : Synthesis -> option Time_) (comps : list Composition) :
  forall acc t,
    maxTime field comps acc = Some t ->
    (forall a, acc = Some a -> (a <= t)%Z) /\
    (forall comp cur t',
        In comp comps -> CurrentSynthesis (Status comp) = Some cur ->
        field cur = Some t' -> (t' <= t)%Z) /\
    (acc = Some t \/
     exists comp cur,
       In comp comps /\ CurrentSynthesis (Status comp) = Some cur /\
       field cur = Some t).
Proof.
  induction comps as [|comp comps IH]; intros acc t Hmax.
  - simpl in Hmax. subst acc. split; [|split].
    + intros a E. inversion E. lia.
    + intros comp cur t' [].
    + left. reflexivity.
  - rewrite maxTime_cons in Hmax. apply IH in Hmax. destruct Hmax as (Hacc & Hall & Hex).
    destruct (CurrentSynthesis (Status comp)) as [cur|] eqn:Hcur.
    + rewrite later_cases in Hacc, Hex.
      split; [|split].
      * intros a E. subst acc. destruct (field cur) as [b|].
        -- destruct (Z.ltb_spec a b); specialize (Hacc _ eq_refl); lia.
        -- apply Hacc. reflexivity.
      * intros comp' cur' t' [E|Hin] Hc Hf.
        -- subst comp'. rewrite Hcur in Hc. inversion Hc; subst cur'.
           rewrite Hf in Hacc. destruct acc as [a|].
           ++ destruct (Z.ltb_spec a t'); specialize (Hacc _ eq_refl); lia.
           ++ apply Hacc. reflexivity.
        -- exact (Hall comp' cur' t' Hin Hc Hf).
      * destruct Hex as [E|(c & cu & Hin & Hc & Hf)].
        -- destruct acc as [a|].
           ++ destruct (field cur) as [b|] eqn:Hb.
              ** destruct (Z.ltb a b).
                 --- right. exists comp, cur. inversion E; subst b.
                     split; [left; reflexivity|]. split; assumption.
                 --- left. exact E.
              ** left. exact E.
           ++ right. exists comp, cur. split; [left; reflexivity|]. split; assumption.
        -- right. exists c, cu. split; [right; exact Hin|]. split; assumption.
    + split; [exact Hacc|split].
      * intros comp' cur' t' [E|Hin] Hc Hf.
        -- subst comp'. rewrite Hcur in Hc. discriminate.
        -- exact (Hall comp' cur' t' Hin Hc Hf).
      * destruct Hex as [E|(c & cu & Hin & Hc & Hf)]; [left; exact E|].
        right. exists c, cu. split; [right; exact Hin|]. split; assumption.
Qed.

Lemma maxTime_complete (field : Synthesis -> option Time_) (comps : list Composition) :
  forall acc t,
    (forall a, acc = Some a -> (a <= t)%Z) ->
    (forall comp cur t',
        In comp comps -> CurrentSynthesis (Status comp) = Some cur ->
        field cur = Some t' -> (t' <= t)%Z) ->
    (acc = Some t \/
     exists comp cur,
       In comp comps /\ CurrentSynthesis (Status comp) = Some cur /\
       field cur = Some t) ->
    maxTime field comps acc = Some t.
Proof.
  induction comps as [|comp comps IH]; intros acc t Hacc Hall Hex.
  - destruct Hex as [E|(c & cu & [] & _)]. exact E.
  - rewrite maxTime_cons. apply IH.
    + intros a E. destruct (CurrentSynthesis (Status comp)) as [cur|] eqn:Hcur;
        [|apply Hacc; exact E].
      rewrite later_cases in E. destruct acc as [a0|].
      * destruct (field cur) as [b|] eqn:Hb.
        -- destruct (Z.ltb a0 b); inversion E; subst a.
           ++ apply (Hall comp cur b (or_introl eq_refl) Hcur Hb).
           ++ apply Hacc. reflexivity.
        -- inversion E; subst a. apply Hacc. reflexivity.
      * apply (Hall comp cur a (or_introl eq_refl) Hcur E).
    + intros c cu t' Hin. apply Hall. right. exact Hin.
    + destruct Hex as [E|(c & cu & [Ec|Hin] & Hc & Hf)].
      * subst acc. left. destruct (CurrentSynthesis (Status comp)) as [cur|] eqn:Hcur;
          [|reflexivity].
        rewrite later_cases. destruct (field cur) as [b|] eqn:Hb; [|reflexivity].
        pose proof (Hall comp cur b (or_introl eq_refl) Hcur Hb) as Hle.
        destruct (Z.ltb_spec t b); [lia|reflexivity].
      * subst c. left. rewrite Hc, later_cases, Hf. destruct acc as [a|]; [|reflexivity].
        pose proof (Hacc a eq_refl) as Hle.
        destruct (Z.ltb_spec a t); [reflexivity|]. f_equal. lia.
      * right. exists c, cu. split; [exact Hin|]. split; assumption.
Qed.

Lemma clearTimes_field (f : timeField) (st : SymphonyStatus) :
  ofStatus f (clearTimes st) = None.
Proof. destruct f; reflexivity. Qed.

Lemma filterValues_cons (comp : Composition) (rest : list Composition)
  (st : SymphonyStatus) (synthMap : list string) :
  filterValues (comp :: rest) st synthMap
  = match CurrentSynthesis (Status comp) with
    | None => (clearTimes st, None)
    | Some cur =>
        if negb (Z.eqb (ObservedCompositionGeneration cur) (Generation comp))
           || match DeletionTimestamp comp with Some _ => true | None => false end
        then (clearTimes st, None)
        else
          filterValues rest
            (mkSymphonyStatus (Symphony_ObservedGeneration st)
               (unlessNil (Symphony_Synthesized st) (Synthesized cur))
               (unlessNil (Symphony_Reconciled st) (Reconciled cur))
               (unlessNil (Symphony_Ready st) (Ready cur))
               (Symphony_Synthesizers st))
            (Spec_Synthesizer_Name comp :: synthMap)
    end.
Proof. reflexivity. Qed.

Lemma upToDate_test (comp : Composition) (cur : Synthesis) :
  CurrentSynthesis (Status comp) = Some cur ->
  (negb (Z.eqb (ObservedCompositionGeneration cur) (Generation comp))
   || match DeletionTimestamp comp with Some _ => true | None => false end = false
   <-> upToDate comp cur).
Proof.
  intros Hcur. unfold upToDate. split.
  - intros H. apply orb_false_iff in H. destruct H as [Hg Hd].
    apply negb_false_iff, Z.eqb_eq in Hg.
    destruct (DeletionTimestamp comp); [discriminate|]. auto.
  - intros (_ & Hg & Hd). rewrite Hg, Hd, Z.eqb_refl. reflexivity.
Qed.

Lemma filterValues_keeps (comps : list Composition) :
  forall st m,
    Symphony_ObservedGeneration (fst (filterValues comps st m))
    = Symphony_ObservedGeneration st /\
    Symphony_Synthesizers (fst (filterValues comps st m)) = Symphony_Synthesizers st.
Proof.
  induction comps as [|comp comps IH]; intros st m; [split; reflexivity|].
  rewrite filterValues_cons.
  destruct (CurrentSynthesis (Status comp)) as [cur|]; [|split; reflexivity].
  destruct (_ || _); [split; reflexivity|].
  match goal with
  | |- context [filterValues comps ?st' ?m'] => destruct (IH st' m') as [Hg Hs]
  end.
  rewrite Hg, Hs. split; reflexivity.
Qed.

Lemma filterValues_Some (comps : list Composition) :
  forall st m st' m',
    filterValues comps st m = (st', Some m') ->
    m' = rev (map Spec_Synthesizer_Name comps) ++ m /\
    (forall comp, In comp comps -> exists cur, upToDate comp cur) /\
    (forall f,
        ofStatus f st'
        = if forallb (fun comp =>
                        match CurrentSynthesis (Status comp) with
                        | Some cur => match ofSynthesis f cur with
                                      | Some _ => true
                                      | None => false
                                      end
                        | None => false
                        end) comps
          then ofStatus f st else None).
Proof.
  induction comps as [|comp comps IH]; intros st m st' m' Hf.
  - simpl in Hf. inversion Hf; subst. split; [reflexivity|].
    split; [intros comp []|]. intros f. reflexivity.
  - rewrite filterValues_cons in Hf.
    destruct (CurrentSynthesis (Status comp)) as [cur|] eqn:Hcur; [|discriminate].
    destruct (_ || _) eqn:Htest; [discriminate|].
    apply (upToDate_test comp cur Hcur) in Htest.
    apply IH in Hf. destruct Hf as (Hm & Hall & Hfield).
    split; [|split].
    + rewrite Hm. simpl. rewrite <- app_assoc. reflexivity.
    + intros c [E|Hin]; [subst c; exists cur; exact Htest|apply Hall; exact Hin].
    + intros f. rewrite Hfield. cbn [forallb]. rewrite Hcur.
      destruct f;
        cbn [ofStatus ofSynthesis Symphony_Synthesized Symphony_Reconciled
             Symphony_Ready];
        [destruct (Synthesized cur)|destruct (Reconciled cur)|destruct (Ready cur)];
        cbn [unlessNil andb]; destruct (forallb _ comps); reflexivity.
Qed.

Lemma filterValues_None (comps : list Composition) :
  forall st m st',
    filterValues comps st m = (st', None) ->
    (exists comp, In comp comps /\ forall cur, ~ upToDate comp cur) /\
    forall f, ofStatus f st' = None.
Proof.
  induction comps as [|comp comps IH]; intros st m st' Hf.
  - simpl in Hf. discriminate.
  - rewrite filterValues_cons in Hf.
    destruct (CurrentSynthesis (Status comp)) as [cur|] eqn:Hcur.
    + destruct (_ || _) eqn:Htest.
      * inversion Hf; subst. split; [|intros f; apply clearTimes_field].
        exists comp. split; [left; reflexivity|]. intros cur' Hup.
        assert (cur' = cur) by (destruct Hup as [Hc _]; congruence). subst cur'.
        apply (upToDate_test comp cur Hcur) in Hup. congruence.
      * apply IH in Hf. destruct Hf as [(c & Hin & Hno) Hnone].
        split; [|exact Hnone]. exists c. split; [right; exact Hin|exact Hno].
    + inversion Hf; subst. split; [|intros f; apply clearTimes_field].
      exists comp. split; [left; reflexivity|]. intros cur [Hc _]. congruence.
Qed.

Lemma buildStatus_fst (symph : Symphony) (comps : list Composition) :
  fst (buildStatus symph comps)
  = fst (filterValues comps
           (maxValues comps
              (mkSymphonyStatus (Symphony_Generation symph) None None None
                 (Symphony_Synthesizers (Symphony_Status symph))))
           []).
Proof.
  unfold buildStatus. cbv zeta.
  destruct (filterValues _ _ _) as [st [m|]]; [|reflexivity].
  destruct (forallb _ _); reflexivity.
Qed.

Lemma buildStatus_field (f : timeField) (symph : Symphony)
  (comps : list Composition) (t : Time_) :
  ofStatus f (fst (buildStatus symph comps)) = Some t
  <-> latestOf (ofSynthesis f) comps t.
Proof.
  rewrite buildStatus_fst.
  set (st0 := maxValues comps _).
  assert (H0 : ofStatus f st0 = maxTime (ofSynthesis f) comps None).
  { unfold st0. rewrite maxValues_field. destruct f; reflexivity. }
  destruct (filterValues comps st0 []) as [st' [m'|]] eqn:Hf; cbn [fst].
  - apply filterValues_Some in Hf. destruct Hf as (_ & Hall & Hfield).
    rewrite Hfield, H0. split.
    + intros H. destruct (forallb _ comps) eqn:Hfa; [|discriminate].
      rewrite forallb_forall in Hfa.
      apply maxTime_sound in H. destruct H as (_ & Hle & [E|Hex]); [discriminate|].
      split; [|exact Hex].
      intros comp Hin. destruct (Hall comp Hin) as [cur Hup].
      specialize (Hfa comp Hin). pose proof Hup as [Hc _]. rewrite Hc in Hfa.
      destruct (ofSynthesis f cur) as [t'|] eqn:Ht; [|discriminate].
      exists cur, t'. split; [exact Hup|]. split; [exact Ht|].
      apply (Hle comp cur t' Hin Hc Ht).
    + intros [Hevery Hex].
      assert (Hfa : forallb (fun comp =>
                        match CurrentSynthesis (Status comp) with
                        | Some cur => match ofSynthesis f cur with
                                      | Some _ => true
                                      | None => false
                                      end
                        | None => false
                        end) comps = true).
      { apply forallb_forall. intros comp Hin.
        destruct (Hevery comp Hin) as (cur & t' & [Hc _] & Ht & _).
        rewrite Hc, Ht. reflexivity. }
      rewrite Hfa. apply maxTime_complete.
      * intros a E. discriminate.
      * intros comp cur t' Hin Hc Ht.
        destruct (Hevery comp Hin) as (cur' & t'' & [Hc' _] & Ht' & Hle).
        congruence.
      * right. exact Hex.
  - apply filterValues_None in Hf. destruct Hf as [(c & Hin & Hno) Hnone].
    rewrite Hnone. split; [discriminate|].
    intros [Hevery _]. destruct (Hevery c Hin) as (cur & t' & Hup & _).
    exfalso. exact (Hno cur Hup).
Qed.

(** X16. The times in the status that [buildStatus] computes: the status
    has a time of synthesis, of reconciliation or of readiness exactly when
    every composition is up to date (it has a current synthesis, made from
    its present generation, and is not being deleted) and has that time, and
    the time is then the latest among the compositions.  With no
    composition at all the status has no time. *)
Theorem buildStatus_times_are_the_latest :
  forall (symph : Symphony) (comps : list Composition) (t : Time_),
    (Symphony_Synthesized (fst (buildStatus symph comps)) = Some t
     <-> latestOf Synthesized comps t) /\
    (Symphony_Reconciled (fst (buildStatus symph comps)) = Some t
     <-> latestOf Reconciled comps t) /\
    (Symphony_Ready (fst (buildStatus symph comps)) = Some t
     <-> latestOf Ready comps t).
Proof.
  intros symph comps t.
  exact (conj (buildStatus_field FSynthesized symph comps t)
           (conj (buildStatus_field FReconciled symph comps t)
                 (buildStatus_field FReady symph comps t))).
Qed.

(** X17. [buildStatus] asks for the status to be written exactly when every
    composition is up to date, every variation of the symphony has a
    composition running its synthesizer, and the status computed differs
    from the one the symphony has. *)
Theorem buildStatus_ok_iff :
  forall (symph : Symphony) (comps : list Composition),
    snd (buildStatus symph comps) = true <->
    (forall comp, In comp comps -> exists cur, upToDate comp cur) /\
    (forall v, In v (Symphony_Variations symph) -> covered comps v) /\
    statusEqual (fst (buildStatus symph comps)) (Symphony_Status symph) = false.
Proof.
  intros symph comps.
  assert (Hcov : forall m' v,
             m' = rev (map Spec_Synthesizer_Name comps) ++ [] ->
             (existsb (String.eqb (SynthesizerRef_Name (Variation_Synthesizer v))) m'
              = true <-> covered comps v)).
  { intros m' v Hm. subst m'. rewrite app_nil_r, existsb_exists. unfold covered. split.
    - intros (n & Hin & E). apply String.eqb_eq in E.
      apply in_rev, in_map_iff in Hin. destruct Hin as (comp & En & Hin).
      exists comp. split; [exact Hin|congruence].
    - intros (comp & Hin & E). exists (Spec_Synthesizer_Name comp).
      split; [apply -> in_rev; apply in_map; exact Hin|].
      apply String.eqb_eq. symmetry. exact E. }
  unfold buildStatus. cbv zeta.
  destruct (filterValues comps _ []) as [st [m'|]] eqn:Hf.
  - apply filterValues_Some in Hf. destruct Hf as (Hm & Hall & _).
    destruct (forallb _ (Symphony_Variations symph)) eqn:Hv; cbn [fst snd].
    + rewrite forallb_forall in Hv. rewrite negb_true_iff. split.
      * intros E. split; [exact Hall|]. split; [|exact E].
        intros v Hin. apply (Hcov m' v Hm). apply Hv. exact Hin.
      * intros (_ & _ & E). exact E.
    + split; [discriminate|]. intros (_ & Hc & _).
      assert (Hall' : forallb
                (fun v => existsb
                            (String.eqb (SynthesizerRef_Name (Variation_Synthesizer v)))
                            m')
                (Symphony_Variations symph) = true).
      { apply forallb_forall. intros v Hin. apply (Hcov m' v Hm). apply Hc. exact Hin. }
      congruence.
  - apply filterValues_None in Hf. destruct Hf as [(c & Hin & Hno) _]. cbn [snd].
    split; [discriminate|]. intros (Hall & _).
    destruct (Hall c Hin) as [cur Hup]. exfalso. exact (Hno cur Hup).
Qed.

(** X18. Whatever the compositions are, the status that [buildStatus]
    computes observes the generation of the symphony and lists the
    synthesizers that the status of the symphony already lists. *)
Theorem buildStatus_keeps_synthesizers :
  forall (symph : Symphony) (comps : list Composition),
    Symphony_ObservedGeneration (fst (buildStatus symph comps))
    = Symphony_Generation symph /\
    Symphony_Synthesizers (fst (buildStatus symph comps))
    = Symphony_Synthesizers (Symphony_Status symph).
Proof.
  intros symph comps. rewrite buildStatus_fst.
  destruct (filterValues_keeps comps
              (maxValues comps
                 (mkSymphonyStatus (Symphony_Generation symph) None None None
                    (Symphony_Synthesizers (Symphony_Status symph)))) [])
    as [Hg Hs].
  destruct (maxValues_keeps comps
              (mkSymphonyStatus (Symphony_Generation symph) None None None
                 (Symphony_Synthesizers (Symphony_Status symph))))
    as [Hg' Hs'].
  rewrite Hg, Hs, Hg', Hs'. split; reflexivity.
Qed.

End AggregationProperties.

(* ================================================================= *)
(** * The synthesizers listed in the status of a symphony *)

Section ReplicationProperties.
Import apiv1 replication.
Context {store : Client}.

Lemma refsEqual_eq (a b : list SynthesizerRef) :
  aggregation.refsEqual a b = true <-> a = b.
Proof.
  revert b. induction a as [|[x] a IH]; intros [|[y] b]; simpl;
    try (split; [discriminate|discriminate]); [split; reflexivity|].
  rewrite andb_true_iff, String.eqb_eq, IH. split.
  - intros [E1 E2]. subst. reflexivity.
  - intros E. inversion E. split; reflexivity.
Qed.

Lemma sortSynthesizerRefs_names (comps : list Composition) :
  Permutation
    (map SynthesizerRef_Name
       (sortSynthesizerRefs
          (map (fun comp => mkSynthesizerRef (Spec_Synthesizer_Name comp)) comps)))
    (map Spec_Synthesizer_Name comps).
Proof.
  unfold sortSynthesizerRefs.
  eapply Permutation_trans;
    [apply Permutation_map; apply sortBy_perm|].
  rewrite map_map. apply Permutation_refl.
Qed.

(** X19. When [syncStatus] succeeds, the status of the symphony lists the
    synthesizers of the compositions, one entry for each composition, in
    the order of their names.  It reports a modification exactly when it
    changed the symphony, having then sent the symphony it leaves to the
    store; and for a symphony whose status lists these synthesizers a
    further call finds nothing to do. *)
Theorem syncStatus_lists_the_synthesizers :
  forall (symph symph' : Symphony) (comps : list Composition) (modified : bool),
    syncStatus symph comps = (symph', Ok modified) ->
    Permutation
      (map SynthesizerRef_Name (Symphony_Synthesizers (Symphony_Status symph')))
      (map Spec_Synthesizer_Name comps) /\
    orderedBy SynthesizerRef_Name (Symphony_Synthesizers (Symphony_Status symph')) /\
    (modified = false <-> symph' = symph) /\
    (modified = true -> StatusUpdate symph' = Ok tt) /\
    (forall again,
        Symphony_Synthesizers (Symphony_Status again)
        = Symphony_Synthesizers (Symphony_Status symph') ->
        syncStatus again comps = (again, Ok false)).
Proof.
  intros symph symph' comps modified. unfold syncStatus. cbv zeta.
  set (refs := sortSynthesizerRefs _).
  assert (Hperm : Permutation (map SynthesizerRef_Name refs)
                    (map Spec_Synthesizer_Name comps))
    by apply sortSynthesizerRefs_names.
  assert (Hord : orderedBy SynthesizerRef_Name refs) by apply sortBy_ordered.
  assert (Hrefl : aggregation.refsEqual refs refs = true)
    by (apply refsEqual_eq; reflexivity).
  destruct (aggregation.refsEqual refs (Symphony_Synthesizers (Symphony_Status symph)))
    eqn:Heq.
  - intros E. inversion E; subst symph' modified.
    apply refsEqual_eq in Heq. rewrite <- Heq.
    split; [exact Hperm|]. split; [exact Hord|].
    split; [split; reflexivity|]. split; [discriminate|].
    intros again Hagain. rewrite Hagain, Hrefl. reflexivity.
  - destruct (StatusUpdate (setSynthesizers symph refs)) as [[]|e|m] eqn:Hup;
      try discriminate.
    intros E. inversion E; subst symph' modified. cbn [setSynthesizers Symphony_Status
      Symphony_Synthesizers].
    split; [exact Hperm|]. split; [exact Hord|].
    split; [|split; [intros _; exact Hup|]].
    + split; [discriminate|]. intros Esym. exfalso.
      assert (Hsame : Symphony_Synthesizers (Symphony_Status symph) = refs)
        by (rewrite <- Esym; reflexivity).
      rewrite Hsame, Hrefl in Heq. discriminate.
    + intros again Hagain. rewrite Hagain, Hrefl. reflexivity.
Qed.

End ReplicationProperties.

(* ================================================================= *)
(** * The properties above, on concrete inputs *)

Section MoreOnExamples.
Import refimpl examples resource.

Lemma annotatedManifest_parses :
  NewResource (sliceOf annotatedManifest) 0 = ([], Ok annotatedResource).
Proof. vm_compute. reflexivity. Qed.

(** The annotated config map: its resource is [foo] in [bar], a ConfigMap
    of the core group, from position 0 of the slice. *)
Lemma NewResource_identity_witness :
  exists resource parsed0,
    nth_error (apiv1.Slice_Resources (sliceOf annotatedManifest)) 0 = Some resource /\
    UnmarshalJSON (apiv1.Manifest_Manifest resource) = Ok parsed0 /\
    rRef annotatedResource
    = mkRef (GetName parsed0) (GetNamespace parsed0)
            (GVK_Group (GroupVersionKindOf parsed0)) (GetKind parsed0) /\
    Ref_Name (rRef annotatedResource) <> EmptyString /\
    Ref_Kind (rRef annotatedResource) <> EmptyString /\
    rManifestRef annotatedResource
    = mkManifestRef (apiv1.mkNSN (apiv1.Slice_Namespace (sliceOf annotatedManifest))
                       (apiv1.Slice_Name (sliceOf annotatedManifest))) 0 /\
    ManifestDeleted annotatedResource = apiv1.Manifest_Deleted resource.
Proof.
  apply (NewResource_identity (sliceOf annotatedManifest) 0 [] annotatedResource).
  vm_compute. reflexivity.
Defined.

(** The patch that adds a data entry: the resource is the Patch [foo], and
    its operations and its [GVK] are those of the patch member. *)
Lemma NewResource_patch_only_from_Patch_witness :
  Ref_Kind (rRef dataPatch) = "Patch" /\
  GVK dataPatch = mkGVK EmptyString "v1" "ConfigMap" /\
  Patch dataPatch <> None.
Proof.
  destruct (NewResource_patch_only_from_Patch (sliceOf dataPatchManifest) 0 []
              dataPatch) as (manifest & parsed0 & Hm & Hu & Hpatch & _).
  - vm_compute. reflexivity.
  - assert (Em : manifest = dataPatchManifest)
      by (vm_compute in Hm; inversion Hm; reflexivity).
    subst manifest.
    assert (Hgvk : GroupVersionKindOf parsed0 = patchGVK).
    { assert (Hu' : exists p, UnmarshalJSON dataPatchManifest = Ok p /\
                              GroupVersionKindOf p = patchGVK)
        by (eexists; split; vm_compute; reflexivity).
      destruct Hu' as (p & Hp & Hg). rewrite Hp in Hu. inversion Hu; subst p.
      exact Hg. }
    destruct (Hpatch Hgvk) as (_ & Hkind & _).
    split; [exact Hkind|]. split; vm_compute; [reflexivity|discriminate].
Defined.

(** The annotated config map: of its labels and annotations the interned
    object keeps [app] and [team], while [Labels] has both labels. *)
Lemma NewResource_interns_pruned_metadata_witness :
  exists manifest parsed0 obj,
    manifestAt (sliceOf annotatedManifest) 0 = Some manifest /\
    UnmarshalJSON manifest = Ok parsed0 /\
    value annotatedResource = VMap obj /\
    GetAnnotations (mkUnstructured obj) = pruneMetadata (GetAnnotations parsed0) /\
    GetLabels (mkUnstructured obj) = pruneMetadata (GetLabels parsed0) /\
    Labels annotatedResource = GetLabels parsed0.
Proof.
  apply (NewResource_interns_pruned_metadata (sliceOf annotatedManifest) 0 []
           annotatedResource).
  vm_compute. reflexivity.
Defined.

(** The annotated config map: the check [default] comes before [zz],
    although the manifest has them the other way round. *)
Lemma NewResource_checks_ordered_witness :
  orderedBy Check_Name (ReadinessChecks annotatedResource) /\
  map Check_Name (ReadinessChecks annotatedResource) = ["default"; "zz"].
Proof.
  split; [|vm_compute; reflexivity].
  apply (NewResource_checks_ordered (sliceOf annotatedManifest) 0 []
           annotatedResource).
  vm_compute. reflexivity.
Defined.

(** The annotated config map: readiness group 250, an interval of ten
    seconds, updates disabled. *)
Lemma NewResource_policy_annotations_witness :
  ReadinessGroup annotatedResource = 250%Z /\
  ReconcileInterval annotatedResource = Some 10000000000%Z /\
  DisableUpdates annotatedResource = true.
Proof.
  destruct (NewResource_policy_annotations (sliceOf annotatedManifest) 0
              annotatedManifest [] annotatedResource)
    as (Hgroup & _ & _ & Hinterval & Hdisable).
  - reflexivity.
  - vm_compute. reflexivity.
  - split; [|split].
    + apply (Hgroup "250"); vm_compute; reflexivity.
    + apply (Hinterval "10s"); vm_compute; reflexivity.
    + apply Hdisable. vm_compute. reflexivity.
Defined.

(** The deployments of [TestMergeBasics] without a schema: [Merge] returns
    the patched object, which is not the live one, and says that no type
    was used. *)
Lemma Merge_reports_its_path_witness :
  exists u,
    Merge newState (Some oldState) live untypedGetter = Ok (Some u, false) /\
    mergePath newState untypedGetter = Some false /\
    patchedUntyped newState (Some oldState) live = Ok u /\
    DeepEqual live u = false.
Proof.
  assert (Hm : exists u,
             Merge newState (Some oldState) live untypedGetter = Ok (Some u, false))
    by (eexists; vm_compute; reflexivity).
  destruct Hm as [u Hm]. exists u.
  destruct (Merge_reports_its_path newState (Some oldState) live untypedGetter
              (Some u) false Hm) as [Hpath Hres].
  destruct (Hres eq_refl u eq_refl) as [Hp Hd].
  exact (conj Hm (conj Hpath (conj Hp Hd))).
Defined.

Lemma cacheOfGenerations_remembers : Fill_is_remembered.
Proof.
  intros c nsn s items c' reqs E. simpl in E. inversion E; subst.
  simpl. rewrite Z.eqb_refl. reflexivity.
Qed.

(** The previous synthesis of the composition, whose one slice is listed:
    the first call fills the cache and enqueues the request, the second
    leaves the queue as it is. *)
Lemma populateCache_enqueues_once_witness :
  reconstitution.populateCache
    (reconstitution.mkReconstituter (cachelib := cacheOfGenerations)
       [1%Z] [[("slice", 0)]] false)
    staleComposition (reconstitution.PreviousState staleComposition)
  = (reconstitution.mkReconstituter (cachelib := cacheOfGenerations)
       [1%Z] [[("slice", 0)]] false, Ok tt).
Proof.
  apply (populateCache_enqueues_once freshReconstituter
           (reconstitution.mkReconstituter (cachelib := cacheOfGenerations)
       [1%Z] [[("slice", 0)]] false)
           staleComposition (reconstitution.PreviousState staleComposition)
           cacheOfGenerations_remembers).
  vm_compute. reflexivity.
Defined.

(** The store without the slice [b]: the pass writes, and [b] is the
    missing slice. *)
Lemma sliceController_writes_only_when_missing_witness :
  exists comp syn current ref,
    synthesis.GetComposition (apiv1.mkNSN "default" "comp") = Ok comp /\
    synthesis.GetSynthesizer (apiv1.Spec_Synthesizer_Name comp) = Ok syn /\
    apiv1.NotEligibleForResynthesis comp syn = false /\
    apiv1.CurrentSynthesis (apiv1.Status comp) = Some current /\
    In ref (apiv1.ResourceSlices current) /\
    sliceMissing comp ref.
Proof.
  apply (sliceController_writes_only_when_missing (apiv1.mkNSN "default" "comp")).
  vm_compute. discriminate.
Defined.

(** The store that has both slices: the pass over the same composition
    writes nothing. *)
Lemma sliceController_quiet_when_slices_exist_witness :
  synthesis.Reconcile (store := storeWithBoth) (apiv1.mkNSN "default" "comp")
  = ([], Ok Result0).
Proof.
  refine (sliceController_quiet_when_slices_exist (store := storeWithBoth)
            (apiv1.mkNSN "default" "comp") referringComposition
            (apiv1.mkSynthesizer "synth" 1%Z)
            (apiv1.mkSynthesis "uuid" 1%Z 1%Z (Some 10%Z) None None
               [apiv1.mkSliceRef "a"; apiv1.mkSliceRef "b"])
            _ _ _ _ _).
  - reflexivity.
  - reflexivity.
  - reflexivity.
  - reflexivity.
  - intros ref _. eexists. reflexivity.
Defined.

(** Two compositions, running [synth-b] and [synth-a]: the status of the
    symphony comes to list [synth-a] before [synth-b], and is sent. *)
Lemma syncStatus_lists_the_synthesizers_witness :
  map apiv1.SynthesizerRef_Name
    (apiv1.Symphony_Synthesizers
       (apiv1.Symphony_Status
          (fst (replication.syncStatus someSymphony symphonyCompositions))))
  = ["synth-a"; "synth-b"] /\
  orderedBy apiv1.SynthesizerRef_Name
    (apiv1.Symphony_Synthesizers
       (apiv1.Symphony_Status
          (fst (replication.syncStatus someSymphony symphonyCompositions)))) /\
  replication.syncStatus
    (fst (replication.syncStatus someSymphony symphonyCompositions))
    symphonyCompositions
  = (fst (replication.syncStatus someSymphony symphonyCompositions), Ok false).
Proof.
  destruct (syncStatus_lists_the_synthesizers someSymphony
              (fst (replication.syncStatus someSymphony symphonyCompositions))
              symphonyCompositions true)
    as (_ & Hord & _ & _ & Hagain).
  - vm_compute. reflexivity.
  - split; [vm_compute; reflexivity|]. split; [exact Hord|].
    apply Hagain. reflexivity.
Defined.

(** The same symphony and compositions for [buildStatus]: the second
    composition is not ready, so the status has no time of readiness, and
    the other two times are the latest of each. *)
Lemma buildStatus_on_the_example :
  aggregation.buildStatus someSymphony symphonyCompositions
  = (apiv1.mkSymphonyStatus 3%Z (Some 12%Z) (Some 25%Z) None [], true).
Proof. vm_compute. reflexivity. Qed.

End MoreOnExamples.
